(** * tpsp: status of the Sao Paulo public transportation lines

    A shallow embedding of [cmd/tpsp/main.go] and the properties of its
    argument handling, filter, string transforms and renderers.

    Go strings are byte sequences: a Go [string] is a Rocq [string], one
    [ascii] per byte, and a string literal of this file denotes the UTF-8
    bytes of its text exactly as a Go literal does.  A [rune] and an [int]
    are integers of [Z]. *)

From Stdlib Require Import ZArith List String Ascii Bool Lia DecimalString.
Import ListNotations.

Set Warnings "-register-all".

Open Scope list_scope.
Open Scope string_scope.
Open Scope Z_scope.

(** ** Bytes *)

Definition byteZ (a : ascii) : Z := Z.of_N (N_of_ascii a).

(** Go's conversion [byte(z)] keeps the low eight bits. *)
Definition mkByte (z : Z) : ascii := ascii_of_N (Z.to_N (z mod 256)).

Definition str1 (a : ascii) : string := String a EmptyString.

Fixpoint rev_onto (s acc : string) : string :=
  match s with
  | EmptyString => acc
  | String a s' => rev_onto s' (String a acc)
  end.

Definition srev (s : string) : string := rev_onto s EmptyString.

(** [s[i:]] for [0 <= i]; the whole of [s] is dropped when [i] is past its end. *)
Fixpoint sdrop (i : nat) (s : string) : string :=
  match i, s with
  | O, _ => s
  | S _, EmptyString => EmptyString
  | S k, String _ s' => sdrop k s'
  end.

(** [s[:i]]. *)
Fixpoint stake (i : nat) (s : string) : string :=
  match i, s with
  | O, _ => EmptyString
  | S _, EmptyString => EmptyString
  | S k, String a s' => String a (stake k s')
  end.

(** ** Package unicode/utf8 *)

Module utf8.

Definition RuneError : Z := 0xFFFD.
Definition RuneSelf : Z := 0x80.
Definition MaxRune : Z := 0x10FFFF.
Definition UTFMax : nat := 4.

(** A continuation byte, 10xxxxxx. *)
Definition cont (b : Z) : bool := (0x80 <=? b) && (b <=? 0xBF).

(** The range accepted for the second byte after the lead byte [b0]
    (the package's [acceptRanges]). *)
Definition acceptLo (b0 : Z) : Z :=
  if b0 =? 0xE0 then 0xA0 else if b0 =? 0xF0 then 0x90 else 0x80.
Definition acceptHi (b0 : Z) : Z :=
  if b0 =? 0xED then 0x9F else if b0 =? 0xF4 then 0x8F else 0xBF.
Definition accept (b0 b1 : Z) : bool := (acceptLo b0 <=? b1) && (b1 <=? acceptHi b0).

(** [DecodeRuneInString]: the first rune of [s] and its width in bytes;
    [(RuneError, 0)] on the empty string and [(RuneError, 1)] on an invalid
    encoding.  The masks and shifts of the package are written as the
    remainders and products they compute. *)
Definition DecodeRuneInString (s : string) : Z * nat :=
  match s with
  | EmptyString => (RuneError, 0%nat)
  | String a0 s1 =>
    let b0 := byteZ a0 in
    if b0 <? RuneSelf then (b0, 1%nat)
    else
      match s1 with
      | EmptyString => (RuneError, 1%nat)
      | String a1 s2 =>
        let b1 := byteZ a1 in
        if (0xC2 <=? b0) && (b0 <=? 0xDF) then
          if accept b0 b1 then (b0 mod 32 * 64 + b1 mod 64, 2%nat)
          else (RuneError, 1%nat)
        else if (0xE0 <=? b0) && (b0 <=? 0xEF) then
          if accept b0 b1 then
            match s2 with
            | EmptyString => (RuneError, 1%nat)
            | String a2 _ =>
              let b2 := byteZ a2 in
              if cont b2
              then (b0 mod 16 * 4096 + b1 mod 64 * 64 + b2 mod 64, 3%nat)
              else (RuneError, 1%nat)
            end
          else (RuneError, 1%nat)
        else if (0xF0 <=? b0) && (b0 <=? 0xF4) then
          if accept b0 b1 then
            match s2 with
            | EmptyString => (RuneError, 1%nat)
            | String a2 s3 =>
              let b2 := byteZ a2 in
              if cont b2 then
                match s3 with
                | EmptyString => (RuneError, 1%nat)
                | String a3 _ =>
                  let b3 := byteZ a3 in
                  if cont b3
                  then (b0 mod 8 * 262144 + b1 mod 64 * 4096
                        + b2 mod 64 * 64 + b3 mod 64, 4%nat)
                  else (RuneError, 1%nat)
                end
              else (RuneError, 1%nat)
            end
          else (RuneError, 1%nat)
        else (RuneError, 1%nat)
      end
  end.

Definition surrogate (r : Z) : bool := (0xD800 <=? r) && (r <=? 0xDFFF).

(** [ValidRune]: a Unicode scalar value. *)
Definition ValidRune (r : Z) : bool :=
  (0 <=? r) && (r <=? MaxRune) && negb (surrogate r).

Definition enc3 (r : Z) : string :=
  String (mkByte (0xE0 + r / 4096))
    (String (mkByte (0x80 + r / 64 mod 64))
      (String (mkByte (0x80 + r mod 64)) EmptyString)).

(** [AppendRune] onto the empty string, which is what [Builder.WriteRune]
    and the conversion [string(r)] produce: a rune that is no scalar value
    is written as [RuneError]. *)
Definition EncodeRune (r : Z) : string :=
  if (0 <=? r) && (r <=? 0x7F) then str1 (mkByte r)
  else if (0 <=? r) && (r <=? 0x7FF) then
    String (mkByte (0xC0 + r / 64)) (String (mkByte (0x80 + r mod 64)) EmptyString)
  else if negb (ValidRune r) then enc3 RuneError
  else if r <=? 0xFFFF then enc3 r
  else
    String (mkByte (0xF0 + r / 262144))
      (String (mkByte (0x80 + r / 4096 mod 64))
        (String (mkByte (0x80 + r / 64 mod 64))
          (String (mkByte (0x80 + r mod 64)) EmptyString))).

(** [RuneStart]: the byte is no continuation byte. *)
Definition RuneStart (b : Z) : bool := negb (cont b).

(** The backward scan of [DecodeLastRuneInString],
    [for start--; start >= lim; start-- { if RuneStart(s[start]) { break } }],
    on the bytes before the last one, nearest first; [n] bounds the number of
    positions down to [lim].  The result is how far [start] has moved back
    from the last byte. *)
Fixpoint scanStart (n : nat) (before : string) (back : nat) : nat :=
  match n, before with
  | O, _ => back
  | S _, EmptyString => back
  | S n', String a before' =>
    if RuneStart (byteZ a) then back else scanStart n' before' (S back)
  end.

(** [DecodeLastRuneInString], on the reversed string (last byte first). *)
Definition DecodeLastRune (rs : string) : Z * nat :=
  match rs with
  | EmptyString => (RuneError, 0%nat)
  | String a before =>
    let r := byteZ a in
    if r <? RuneSelf then (r, 1%nat)
    else
      (* start = end - 1 - back; the loop leaves start one below lim, or
         below zero, when no byte of the last UTFMax starts a rune *)
      let back := scanStart (UTFMax - 1) before 1%nat in
      let back := Nat.min back (String.length before) in
      let '(r', size) := DecodeRuneInString (srev (stake (S back) rs)) in
      if Nat.eqb size (S back) then (r', size) else (RuneError, 1%nat)
  end.

(** [RuneCountInString]: every decoding step counts, an invalid byte as
    one rune of width one. *)
Fixpoint countFrom (skip : nat) (s : string) : Z :=
  match s with
  | EmptyString => 0
  | String _ s' =>
    match skip with
    | S k => countFrom k s'
    | O => 1 + countFrom (snd (DecodeRuneInString s) - 1) s'
    end
  end.

Definition RuneCountInString (s : string) : Z := countFrom 0 s.

(** [ValidString]: no decoding step reports an invalid byte. *)
Fixpoint validFrom (skip : nat) (s : string) : bool :=
  match s with
  | EmptyString => true
  | String _ s' =>
    match skip with
    | S k => validFrom k s'
    | O =>
      let '(r, w) := DecodeRuneInString s in
      negb ((r =? RuneError) && Nat.eqb w 1) && validFrom (w - 1) s'
    end
  end.

Definition ValidString (s : string) : bool := validFrom 0 s.

End utf8.

(** ** Package unicode *)

Module unicode.

(** The case tables of the package above Latin-1 ([CaseRanges] past U+00FF
    and the orbits of [SimpleFold]) are data of the Go distribution, not of
    this repository: they are a parameter of the model.  [lowerAbove] and
    [upperAbove] are what [To(LowerCase, r, CaseRanges)] and
    [To(UpperCase, r, CaseRanges)] return for a rune above U+00FF;
    [foldOrbit sr tr] is the outcome of the orbit walk
    [r := SimpleFold(sr); for r != sr && r < tr { r = SimpleFold(r) }; r == tr]. *)
Record Tables : Type := mkTables {
  lowerAbove : Z -> Z;
  upperAbove : Z -> Z;
  foldOrbit : Z -> Z -> bool
}.

(** [IsSpace]: the Latin-1 switch of the package, then the White_Space table. *)
Definition IsSpace (r : Z) : bool :=
  if r <=? 0xFF then
    ((0x09 <=? r) && (r <=? 0x0D)) || (r =? 0x20) || (r =? 0x85) || (r =? 0xA0)
  else
    (r =? 0x1680) || ((0x2000 <=? r) && (r <=? 0x200A))
    || (r =? 0x2028) || (r =? 0x2029) || (r =? 0x202F) || (r =? 0x205F)
    || (r =? 0x3000).

Section Case.

Variable U : Tables.

(** [ToLower]: the ASCII branch of the package, the Latin-1 rows of
    [CaseRanges] (U+00C0..U+00D6 and U+00D8..U+00DE, delta +32), then the
    table. *)
Definition ToLower (r : Z) : Z :=
  if r <=? 0x7F then
    if (0x41 <=? r) && (r <=? 0x5A) then r + 32 else r
  else if r <=? 0xFF then
    if ((0xC0 <=? r) && (r <=? 0xD6)) || ((0xD8 <=? r) && (r <=? 0xDE))
    then r + 32 else r
  else lowerAbove U r.

(** [ToUpper]: the ASCII branch, the Latin-1 rows (U+00B5 +743,
    U+00E0..U+00F6 and U+00F8..U+00FE -32, U+00FF +121), then the table. *)
Definition ToUpper (r : Z) : Z :=
  if r <=? 0x7F then
    if (0x61 <=? r) && (r <=? 0x7A) then r - 32 else r
  else if r <=? 0xFF then
    if r =? 0xB5 then r + 743
    else if ((0xE0 <=? r) && (r <=? 0xF6)) || ((0xF8 <=? r) && (r <=? 0xFE))
    then r - 32
    else if r =? 0xFF then r + 121
    else r
  else upperAbove U r.

End Case.

End unicode.

(** ** Package strings *)

Module strings.

(** [Map]: every rune of [s], as a [range] loop decodes it, is replaced by
    the encoding of its image; a negative image drops the rune.  (The
    package copies the bytes of an unchanged rune instead of encoding it
    again, which is the same string: see [Decode_Encode].)  The loop is a
    recursion on the bytes: [skip] counts the bytes of the rune decoded
    last that are still to be passed over. *)
Fixpoint MapFrom (mapping : Z -> Z) (skip : nat) (s : string) : string :=
  match s with
  | EmptyString => EmptyString
  | String _ s' =>
    match skip with
    | S k => MapFrom mapping k s'
    | O =>
      let '(c, w) := utf8.DecodeRuneInString s in
      let r := mapping c in
      (if r <? 0 then EmptyString else utf8.EncodeRune r)
        ++ MapFrom mapping (w - 1) s'
    end
  end.

Definition Map (mapping : Z -> Z) (s : string) : string := MapFrom mapping 0 s.

(** [ToLower] and [ToUpper]: the loops of the package for a string of ASCII
    bytes return what [Map] returns on it. *)
Definition ToLower (U : unicode.Tables) (s : string) : string :=
  Map (unicode.ToLower U) s.

Definition ToUpper (U : unicode.Tables) (s : string) : string :=
  Map (unicode.ToUpper U) s.

(** [HasPrefix]. *)
Definition HasPrefix (s p : string) : bool := String.prefix p s.

(** [TrimLeftFunc]: [s] from its first rune that does not satisfy [f]. *)
Fixpoint trimLeftFrom (f : Z -> bool) (skip : nat) (s : string) : string :=
  match s with
  | EmptyString => EmptyString
  | String _ s' =>
    match skip with
    | S k => trimLeftFrom f k s'
    | O =>
      let '(c, w) := utf8.DecodeRuneInString s in
      if f c then trimLeftFrom f (w - 1) s' else s
    end
  end.

Definition TrimLeftFunc (s : string) (f : Z -> bool) : string := trimLeftFrom f 0 s.

(** [lastIndexFunc(s, f, truth)], on the reversed string: the runes are
    decoded from the end, and the index of the first one with [f r = truth]
    is returned, [-1] when there is none. *)
Fixpoint lastIndexFrom (f : Z -> bool) (truth : bool) (skip : nat) (rs : string) : Z :=
  match rs with
  | EmptyString => -1
  | String _ rs' =>
    match skip with
    | S k => lastIndexFrom f truth k rs'
    | O =>
      let '(r, size) := utf8.DecodeLastRune rs in
      if Bool.eqb (f r) truth
      then Z.of_nat (String.length rs) - Z.of_nat size
      else lastIndexFrom f truth (size - 1) rs'
    end
  end.

Definition lastIndexFunc (s : string) (f : Z -> bool) (truth : bool) : Z :=
  lastIndexFrom f truth 0 (srev s).

(** [TrimRightFunc]. *)
Definition TrimRightFunc (s : string) (f : Z -> bool) : string :=
  let i := lastIndexFunc s f false in
  let at_i := sdrop (Z.to_nat i) s in
  let i' :=
    match at_i with
    | String a _ =>
      if (0 <=? i) && (utf8.RuneSelf <=? byteZ a)
      then i + Z.of_nat (snd (utf8.DecodeRuneInString at_i))
      else i + 1
    | EmptyString => i + 1
    end in
  stake (Z.to_nat i') s.

(** [TrimSpace]: the ASCII loops of the package remove one-byte white space
    and hand over to [TrimFunc(s, unicode.IsSpace)], which removes the same
    bytes and the rest. *)
Definition TrimSpace (s : string) : string :=
  TrimRightFunc (TrimLeftFunc s unicode.IsSpace) unicode.IsSpace.

(** [Split(s, sep)] for a separator that is not empty: the pieces of [s]
    between the occurrences of [sep], found from the left without overlap;
    [cur] is the piece being read. *)
Fixpoint splitFrom (sep : string) (skip : nat) (cur : string) (s : string) : list string :=
  match s with
  | EmptyString => [cur]
  | String a s' =>
    match skip with
    | S k => splitFrom sep k cur s'
    | O =>
      if String.prefix sep s
      then cur :: splitFrom sep (String.length sep - 1) EmptyString s'
      else splitFrom sep 0 (cur ++ str1 a) s'
    end
  end.

Definition Split (s sep : string) : list string := splitFrom sep 0 EmptyString s.

(** The test of [EqualFold] on two ASCII bytes or on an ASCII rune pair. *)
Definition asciiFold (x y : Z) : bool :=
  let sr := Z.min x y in
  let tr := Z.max x y in
  (tr =? sr) || ((0x41 <=? sr) && (sr <=? 0x5A) && (tr =? sr + 32)).

(** The comparison of two runes in the Unicode loop of [EqualFold]. *)
Definition runeFold (U : unicode.Tables) (x y : Z) : bool :=
  let sr := Z.min x y in
  let tr := Z.max x y in
  if tr =? sr then true
  else if tr <? utf8.RuneSelf then (0x41 <=? sr) && (sr <=? 0x5A) && (tr =? sr + 32)
  else unicode.foldOrbit U sr tr.

(** The loop after [hasUnicode]: the runes of [s] against those of [t]. *)
Fixpoint foldRunes (U : unicode.Tables) (skip : nat) (s t : string) : bool :=
  match s with
  | EmptyString => match t with EmptyString => true | _ => false end
  | String _ s' =>
    match skip with
    | S k => foldRunes U k s' t
    | O =>
      match t with
      | EmptyString => false
      | String _ _ =>
        let '(sr, w) := utf8.DecodeRuneInString s in
        let '(tr, size) := utf8.DecodeRuneInString t in
        if runeFold U sr tr then foldRunes U (w - 1) s' (sdrop size t) else false
      end
    end
  end.

(** [EqualFold]: the ASCII loop runs while both bytes are below [RuneSelf]
    and hands the rest of both strings to the Unicode loop. *)
Fixpoint EqualFold (U : unicode.Tables) (s t : string) : bool :=
  match s, t with
  | String a s', String b t' =>
    if utf8.RuneSelf <=? Z.lor (byteZ a) (byteZ b) then foldRunes U 0 s t
    else if asciiFold (byteZ a) (byteZ b) then EqualFold U s' t' else false
  | EmptyString, EmptyString => true
  | _, _ => false
  end.

(** [Repeat] and [Join]. *)
Fixpoint Repeat (s : string) (count : nat) : string :=
  match count with
  | O => EmptyString
  | S n => s ++ Repeat s n
  end.

Definition Join (elems : list string) (sep : string) : string := String.concat sep elems.

End strings.

(** ** Package fmt *)

Module fmt.

(** The verb [%-*s] with the width [wid] taken from the arguments.  A
    width above 1,000,000 or below -1,000,000 is refused: [%!(BADWIDTH)]
    is written in its place and [s] follows without padding.  Else [s] is
    followed by blanks up to the width, which is measured in runes
    ([utf8.RuneCountInString]); a negative width stands for its absolute
    value. *)
Definition padRight (wid : Z) (s : string) : string :=
  if (1000000 <? wid) || (wid <? -1000000) then "%!(BADWIDTH)" ++ s
  else s ++ strings.Repeat " " (Z.to_nat (Z.abs wid - utf8.RuneCountInString s)).

(** The verb [%d] on an integer: its decimal digits, a minus sign before
    them when it is negative. *)
Definition Itoa (n : Z) : string := NilZero.string_of_int (Z.to_int n).

End fmt.

(** * The program *)

Definition LF : string := str1 "010"%char.
Definition ESC : string := str1 "027"%char.
Definition DQ : string := str1 "034"%char.

Definition programName : string := "tpsp".
Definition programVersion : string := "2.0.0".
Definition programDescription : string :=
  "CLI for Sao Paulo public transportation line status".
Definition programURL : string := "https://github.com/caian-org/tpsp".
Definition apiURL : string := "https://www.tictrens.com.br/helper/line-statuses".

Definition copyrightInfo : string := "
The person who associated a work with this deed has dedicated the work to the
public domain by waiving all of his or her rights to the work worldwide under
copyright law, including all related and neighboring rights, to the extent
allowed by law.

You can copy, modify, distribute and perform the work, even for commercial
purposes, all without asking permission.

AFFIRMER OFFERS THE WORK AS-IS AND MAKES NO REPRESENTATIONS OR WARRANTIES OF
ANY KIND CONCERNING THE WORK, EXPRESS, IMPLIED, STATUTORY OR OTHERWISE,
INCLUDING WITHOUT LIMITATION WARRANTIES OF TITLE, MERCHANTABILITY, FITNESS FOR
A PARTICULAR PURPOSE, NON INFRINGEMENT, OR THE ABSENCE OF LATENT OR OTHER
DEFECTS, ACCURACY, OR THE PRESENT OR ABSENCE OF ERRORS, WHETHER OR NOT
DISCOVERABLE, ALL TO THE GREATEST EXTENT PERMISSIBLE UNDER APPLICABLE LAW.

For more information, please see
<http://creativecommons.org/publicdomain/zero/1.0/>
".

Definition validServices : list string :=
  ["metro"; "cptm"; "viamobilidade"; "viaquatro"].

(** ** API response structures *)

Record LineItem : Type := mkLineItem {
  ID : string;
  Line : string;
  Color : string;
  Status : string;
  StatusColor : string;
  Description : string;
  Code : string
}.

Record ServiceData : Type := mkServiceData {
  ListItem : list LineItem;
  DateUpdate : string;
  Type_ : string
}.

Record APIResponse : Type := mkAPIResponse {
  apiStatus : bool;
  apiData : list ServiceData
}.

(** ** Output structure for JSON mode *)

Record OutputLine : Type := mkOutputLine {
  olLine : string;
  olStatus : string
}.

Record OutputResponse : Type := mkOutputResponse {
  orCode : Z;
  orData : list OutputLine;
  orMessage : string
}.

(** ** ANSI color codes *)

Definition colorReset : string := ESC ++ "[0m".
Definition colorBold : string := ESC ++ "[1m".
Definition colorDim : string := ESC ++ "[2m".
Definition colorGreen : string := ESC ++ "[32m".
Definition colorYellow : string := ESC ++ "[33m".
Definition colorRed : string := ESC ++ "[31m".

Section Program.

Variable U : unicode.Tables.

Definition getColorForStatus (statusColor : string) : string :=
  let c := strings.ToLower U statusColor in
  if String.eqb c "verde" then colorGreen
  else if String.eqb c "amarelo" then colorYellow
  else if String.eqb c "vermelho" then colorRed
  else if String.eqb c "cinza" then colorDim
  else colorReset.

(** [formatLineName] extracts the color name and formats it as title case.
    [parts[len(parts)-1]] is the last piece of the split, which always has
    one ([Split_not_nil]); [name[0]] is a byte, and [string(name[0])] is the
    encoding of the rune with that byte's value. *)
Definition formatLineName (line : string) : string :=
  let parts := strings.Split line "-" in
  let name := strings.TrimSpace (List.last parts EmptyString) in
  match name with
  | EmptyString => name
  | String name0 name1 =>
    strings.ToUpper U (utf8.EncodeRune (byteZ name0)) ++ strings.ToLower U name1
  end.

(** [normalizeStatus] normalizes status text (plural to singular). *)
Definition normalizeStatus (status : string) : string :=
  let status := strings.TrimSpace status in
  let c := strings.ToLower U status in
  if String.eqb c "operações encerradas" then "Operação Encerrada"
  else if String.eqb c "operações normais" then "Operação Normal"
  else status.

(** The loop of [filterByService]: [result] grows by the items of every
    batch that passes the test. *)
Definition filterByService (data : list ServiceData) (service : string) : list LineItem :=
  fold_left
    (fun result svc =>
       if String.eqb service EmptyString || strings.EqualFold U (Type_ svc) service
       then (result ++ ListItem svc)%list
       else result)
    data [].

Fixpoint isValidService_in (services : list string) (service : string) : bool :=
  match services with
  | [] => false
  | s :: rest =>
    if strings.EqualFold U s service then true else isValidService_in rest service
  end.

Definition isValidService (service : string) : bool :=
  isValidService_in validServices service.

(** The first loop of [printTable]: the width of the name column. *)
Definition maxLen (lines : list LineItem) : Z :=
  fold_left
    (fun m line =>
       let name := formatLineName (Line line) in
       if m <? Z.of_nat (String.length name) then Z.of_nat (String.length name) else m)
    lines 5.

Definition tableRow (width : Z) (line : LineItem) : string :=
  let name := formatLineName (Line line) in
  let status := normalizeStatus (Status line) in
  let color := getColorForStatus (StatusColor line) in
  fmt.padRight width name ++ "  " ++ color ++ status ++ colorReset ++ LF.

(** [printTable]: what it writes to standard output. *)
Definition printTable (lines : list LineItem) : string :=
  let w := maxLen lines in
  (colorBold ++ fmt.padRight w "Linha" ++ "  " ++ "Status" ++ colorReset ++ LF)
  ++ (strings.Repeat "-" (Z.to_nat (w + 2 + 20)) ++ LF)
  ++ fold_left (fun out line => out ++ tableRow w line) lines EmptyString.

End Program.

(** ** Package encoding/json *)

Module json.

Inductive Value : Type :=
| Null
| Bool (b : bool)
| Number (n : Z)
| Str (s : string)
| Array (elems : list Value)
| Object (members : list (string * Value)).

Definition hexDigit (n : Z) : ascii :=
  if n <? 10 then mkByte (0x30 + n) else mkByte (0x61 + (n - 10)).

(** [htmlSafeSet]: the ASCII bytes written as they are when HTML escaping
    is on, which is an [Encoder]'s default. *)
Definition htmlSafe (b : Z) : bool :=
  (0x20 <=? b) && (b <? 0x80)
  && negb ((b =? 0x22) || (b =? 0x5C) || (b =? 0x3C) || (b =? 0x3E) || (b =? 0x26)).

(** The escape written for an ASCII byte outside [htmlSafeSet] (Go 1.21,
    the toolchain of the Dockerfile). *)
Definition escapeByte (b : Z) : string :=
  if (b =? 0x5C) || (b =? 0x22) then String "\" (str1 (mkByte b))
  else if b =? 0x0A then "\n"
  else if b =? 0x0D then "\r"
  else if b =? 0x09 then "\t"
  else "\u00" ++ String (hexDigit (b / 16)) (str1 (hexDigit (b mod 16))).

(** The body of a JSON string for the Go string [s], rune by rune: an
    ASCII byte as it is or escaped, an invalid byte as the escape of
    U+FFFD, U+2028 and U+2029 escaped, any other rune copied. *)
Fixpoint quoteFrom (skip : nat) (s : string) : string :=
  match s with
  | EmptyString => EmptyString
  | String a s' =>
    match skip with
    | S k => quoteFrom k s'
    | O =>
      let b := byteZ a in
      if b <? utf8.RuneSelf then
        (if htmlSafe b then str1 a else escapeByte b) ++ quoteFrom 0 s'
      else
        let '(c, size) := utf8.DecodeRuneInString s in
        if (c =? utf8.RuneError) && Nat.eqb size 1 then
          ("\u" ++ "fffd") ++ quoteFrom 0 s'
        else if (c =? 0x2028) || (c =? 0x2029) then
          "\u202" ++ String (hexDigit (c mod 16)) (quoteFrom (size - 1) s')
        else stake size s ++ quoteFrom (size - 1) s'
    end
  end.

Definition quote (s : string) : string :=
  String "034"%char (quoteFrom 0 s ++ str1 "034"%char).

(** [appendNewline] with an empty prefix. *)
Definition newline (indent : string) (depth : nat) : string :=
  String "010"%char (strings.Repeat indent depth).

(** The indented text of a value: what [Indent] makes of its compact
    encoding.  The elements of an array and the members of an object stand
    on lines of their own, one level deeper, a comma after each but the
    last; an empty array or object is written without a line break. *)
Fixpoint indented (indent : string) (depth : nat) (v : Value) : string :=
  match v with
  | Null => "null"
  | Bool true => "true"
  | Bool false => "false"
  | Number n => fmt.Itoa n
  | Str s => quote s
  | Array [] => "[]"
  | Array elems =>
    "[" ++ newline indent (S depth)
    ++ String.concat ("," ++ newline indent (S depth))
         (List.map (indented indent (S depth)) elems)
    ++ newline indent depth ++ "]"
  | Object [] => "{}"
  | Object members =>
    "{" ++ newline indent (S depth)
    ++ String.concat ("," ++ newline indent (S depth))
         (List.map (fun m : string * Value =>
                      let (k, x) := m in quote k ++ ": " ++ indented indent (S depth) x)
                   members)
    ++ newline indent depth ++ "}"
  end.

(** [Encoder.Encode] after [SetIndent("", indent)]: the indented text and
    the newline that ends every encoded value. *)
Definition Encode (indent : string) (v : Value) : string :=
  indented indent 0 v ++ str1 "010"%char.

(** *** Decoding

    A decoder of JSON texts (RFC 8259) as a pushdown automaton that reads
    one byte at a time, in the manner of the package's scanner.  Numbers
    are integers, as for a field of type [int]; the bytes of a string above
    0x7F are copied; an escaped surrogate pair is one rune and an unpaired
    surrogate is U+FFFD. *)

Inductive Frame : Type :=
| FArr (acc : list Value)
| FObj (acc : list (string * Value)) (key : string).

Inductive Mode : Type :=
| Start
| ArrOpen
| ObjOpen
| Key
| Colon
| After
| InStr (key : bool) (acc : string) (hi : option Z)
| InEsc (key : bool) (acc : string) (hi : option Z)
| InHex (key : bool) (acc : string) (hi : option Z) (n : nat) (v : Z)
| InNum (neg : bool) (v : option Z)
| InLit (rest : string) (v : Value)
| Fail.

Record State : Type := mkState {
  mode : Mode;
  stack : list Frame;
  result : option Value
}.

Definition failed : State := mkState Fail [] None.

Definition isWS (b : Z) : bool :=
  (b =? 0x20) || (b =? 0x09) || (b =? 0x0A) || (b =? 0x0D).

Definition isDigit (b : Z) : bool := (0x30 <=? b) && (b <=? 0x39).

Definition hexVal (b : Z) : option Z :=
  if (0x30 <=? b) && (b <=? 0x39) then Some (b - 0x30)
  else if (0x61 <=? b) && (b <=? 0x66) then Some (b - 0x61 + 10)
  else if (0x41 <=? b) && (b <=? 0x46) then Some (b - 0x41 + 10)
  else None.

(** A value is complete: it is the result, an element of the array or the
    member of the object being read. *)
Definition deliver (v : Value) (stk : list Frame) (res : option Value) : State :=
  match stk with
  | [] => mkState After [] (Some v)
  | FArr acc :: stk' => mkState After (FArr (acc ++ [v])%list :: stk') res
  | FObj acc k :: stk' => mkState After (FObj (acc ++ [(k, v)])%list k :: stk') res
  end.

(** A pending high surrogate that no low surrogate follows is U+FFFD. *)
Definition flush (acc : string) (hi : option Z) : string :=
  match hi with
  | Some _ => acc ++ utf8.EncodeRune utf8.RuneError
  | None => acc
  end.

Definition endString (key : bool) (s : string) (stk : list Frame) (res : option Value)
  : State :=
  if key then
    match stk with
    | FObj acc _ :: stk' => mkState Colon (FObj acc s :: stk') res
    | _ => failed
    end
  else deliver (Str s) stk res.

Definition stepStart (b : Z) (stk : list Frame) (res : option Value) : State :=
  if isWS b then mkState Start stk res
  else if b =? 0x22 then mkState (InStr false EmptyString None) stk res
  else if b =? 0x5B then mkState ArrOpen (FArr [] :: stk) res
  else if b =? 0x7B then mkState ObjOpen (FObj [] EmptyString :: stk) res
  else if b =? 0x2D then mkState (InNum true None) stk res
  else if isDigit b then mkState (InNum false (Some (b - 0x30))) stk res
  else if b =? 0x74 then mkState (InLit "rue" (Bool true)) stk res
  else if b =? 0x66 then mkState (InLit "alse" (Bool false)) stk res
  else if b =? 0x6E then mkState (InLit "ull" Null) stk res
  else failed.

Definition stepAfter (b : Z) (stk : list Frame) (res : option Value) : State :=
  if isWS b then mkState After stk res
  else
    match stk with
    | [] => failed
    | FArr acc :: stk' =>
      if b =? 0x2C then mkState Start stk res
      else if b =? 0x5D then deliver (Array acc) stk' res
      else failed
    | FObj acc _ :: stk' =>
      if b =? 0x2C then mkState Key stk res
      else if b =? 0x7D then deliver (Object acc) stk' res
      else failed
    end.

(** Four hexadecimal digits of an escape have been read. *)
Definition endHex (key : bool) (acc : string) (hi : option Z) (v : Z) : Mode :=
  let low := (0xDC00 <=? v) && (v <=? 0xDFFF) in
  let high := (0xD800 <=? v) && (v <=? 0xDBFF) in
  match hi with
  | Some h =>
    if low
    then InStr key
           (acc ++ utf8.EncodeRune (0x10000 + (h - 0xD800) * 1024 + (v - 0xDC00))) None
    else if high then InStr key (flush acc hi) (Some v)
    else InStr key (flush acc hi ++ utf8.EncodeRune v) None
  | None =>
    if high then InStr key acc (Some v)
    else InStr key (acc ++ utf8.EncodeRune v) None
  end.

Definition step (st : State) (a : ascii) : State :=
  let b := byteZ a in
  let stk := stack st in
  let res := result st in
  match mode st with
  | Start => stepStart b stk res
  | ArrOpen =>
    if isWS b then st
    else if b =? 0x5D then
      match stk with
      | FArr acc :: stk' => deliver (Array acc) stk' res
      | _ => failed
      end
    else stepStart b stk res
  | ObjOpen =>
    if isWS b then st
    else if b =? 0x7D then
      match stk with
      | FObj acc _ :: stk' => deliver (Object acc) stk' res
      | _ => failed
      end
    else if b =? 0x22 then mkState (InStr true EmptyString None) stk res
    else failed
  | Key =>
    if isWS b then st
    else if b =? 0x22 then mkState (InStr true EmptyString None) stk res
    else failed
  | Colon =>
    if isWS b then st
    else if b =? 0x3A then mkState Start stk res
    else failed
  | After => stepAfter b stk res
  | InStr key acc hi =>
    if b =? 0x22 then endString key (flush acc hi) stk res
    else if b =? 0x5C then mkState (InEsc key acc hi) stk res
    else if b <? 0x20 then failed
    else mkState (InStr key (flush acc hi ++ str1 a) None) stk res
  | InEsc key acc hi =>
    if b =? 0x75 then mkState (InHex key acc hi 0 0) stk res
    else
      let put (c : Z) := mkState (InStr key (flush acc hi ++ str1 (mkByte c)) None) stk res in
      if (b =? 0x22) || (b =? 0x5C) || (b =? 0x2F) then put b
      else if b =? 0x62 then put 0x08
      else if b =? 0x66 then put 0x0C
      else if b =? 0x6E then put 0x0A
      else if b =? 0x72 then put 0x0D
      else if b =? 0x74 then put 0x09
      else failed
  | InHex key acc hi n v =>
    match hexVal b with
    | Some d =>
      if Nat.eqb n 3 then mkState (endHex key acc hi (v * 16 + d)) stk res
      else mkState (InHex key acc hi (S n) (v * 16 + d)) stk res
    | None => failed
    end
  | InNum neg v =>
    if isDigit b then
      match v with
      | Some 0 => failed
      | Some n => mkState (InNum neg (Some (n * 10 + (b - 0x30)))) stk res
      | None => mkState (InNum neg (Some (b - 0x30))) stk res
      end
    else
      match v with
      | Some n =>
        let st' := deliver (Number (if neg then - n else n)) stk res in
        match mode st' with
        | After => stepAfter b (stack st') (result st')
        | _ => failed
        end
      | None => failed
      end
  | InLit rest v =>
    match rest with
    | String c rest' =>
      if Ascii.eqb a c then
        match rest' with
        | EmptyString => deliver v stk res
        | _ => mkState (InLit rest' v) stk res
        end
      else failed
    | EmptyString => failed
    end
  | Fail => failed
  end.

Fixpoint run (st : State) (text : string) : State :=
  match text with
  | EmptyString => st
  | String a text' => run (step st a) text'
  end.

(** The end of the text: a number at the top level ends here. *)
Definition finish (st : State) : option Value :=
  match mode st, stack st with
  | After, [] => result st
  | InNum neg (Some n), [] => Some (Number (if neg then - n else n))
  | _, _ => None
  end.

Definition Decode (text : string) : option Value :=
  finish (run (mkState Start [] None) text).

(** The member of an object under a key, the first one as written. *)
Fixpoint member (k : string) (members : list (string * Value)) : option Value :=
  match members with
  | [] => None
  | (k', v) :: rest => if String.eqb k k' then Some v else member k rest
  end.

Definition field (k : string) (v : Value) : option Value :=
  match v with
  | Object members => member k members
  | _ => None
  end.

End json.

(** ** The JSON renderer and [main] *)

(** [l[i] = v] on a slice: Go panics when [i] is out of range. *)
Fixpoint setAt {A : Type} (i : nat) (v : A) (l : list A) : option (list A) :=
  match l, i with
  | [], _ => None
  | _ :: t, O => Some (v :: t)
  | h :: t, S k =>
    match setAt k v t with
    | Some t' => Some (h :: t')
    | None => None
    end
  end.

(** [printUsage]: the usage text it writes to standard output, the
    arguments of its format string in their places. *)
Definition printUsage : string :=
  programName ++ ": " ++ programDescription ++ "

" ++ programName ++ " (portuguese for " ++ DQ ++ "Sao Paulo public transportation" ++ DQ ++ ")
is a tiny command-line tool that tells you the current
status of Metro, CPTM, ViaMobilidade, and ViaQuatro lines.

Usage:
    " ++ programName ++ " [service] [flags]

Services:
    metro          Show Metro lines only
    cptm           Show CPTM lines only
    viamobilidade  Show ViaMobilidade lines only
    viaquatro      Show ViaQuatro lines only

    If no service is specified, all lines are shown.

Flags:
    -j, --json     Show the output in JSON format
    -v, --version  Show the program version and exit
    --copyright    Show the copyright information and exit
    -h, --help     Show this help message

Examples:
    $ " ++ programName ++ "
    # => shows the current state of all lines

    $ " ++ programName ++ " metro
    # => shows the current state of all Metro lines

    $ " ++ programName ++ " cptm --json
    # => shows the current state of all CPTM lines in JSON format

This is a Free and Open-Source Software (FOSS).
Project page: <" ++ programURL ++ ">
".

(** What the HTTP exchange of [fetchLineStatuses] can come to: the request
    fails, or a response arrives with a status code and a body that the
    JSON decoder rejects or decodes.  [Decoded resp] is a body that is a
    JSON document of the shape of [APIResponse]: [resp] holds its values,
    every text as the bytes of the body give it. *)
Inductive Body : Type :=
| Malformed (err : string)
| Decoded (resp : APIResponse).

Inductive Exchange : Type :=
| RequestFailed (err : string)
| Responded (statusCode : Z) (body : Body).

(** What [Decoder.Decode] stores for a string of the body: the decoder
    makes every string valid UTF-8, a byte that is no part of a rune
    becomes U+FFFD (the package's [unquote] decodes and encodes again
    every rune outside ASCII). *)
Definition decodeString (s : string) : string := strings.Map (fun r => r) s.

Definition decodeLineItem (l : LineItem) : LineItem :=
  mkLineItem (decodeString (ID l)) (decodeString (Line l)) (decodeString (Color l))
             (decodeString (Status l)) (decodeString (StatusColor l))
             (decodeString (Description l)) (decodeString (Code l)).

Definition decodeServiceData (svc : ServiceData) : ServiceData :=
  mkServiceData (List.map decodeLineItem (ListItem svc))
                (decodeString (DateUpdate svc)) (decodeString (Type_ svc)).

Definition decodeResponse (resp : APIResponse) : APIResponse :=
  mkAPIResponse (apiStatus resp) (List.map decodeServiceData (apiData resp)).

(** [fetchLineStatuses]: the response, or the text of the error. *)
Definition fetchLineStatuses (x : Exchange) : APIResponse + string :=
  match x with
  | RequestFailed err => inr ("failed to fetch data: " ++ err)
  | Responded statusCode body =>
    if negb (statusCode =? 200)
    then inr ("API returned status " ++ fmt.Itoa statusCode)
    else
      match body with
      | Malformed err => inr ("failed to parse response: " ++ err)
      | Decoded resp => inl (decodeResponse resp)
      end
  end.

(** Standard output when the encoder of [printJSON] writes the document
    to it: the write succeeds, or it fails with an error, which [Encode]
    and [printJSON] return. *)
Inductive Sink : Type :=
| Accepting
| Failing (err : string).

(** One run of the program: the text it writes to standard output and to
    standard error, its exit code, and whether it issued the HTTP request.
    A run-time panic ends a Go program with exit code 2. *)
Record Run : Type := mkRun {
  stdout : string;
  stderr : string;
  exitCode : Z;
  requested : bool
}.

Record Flags : Type := mkFlags {
  jsonOutput : bool;
  showVersion : bool;
  showCopyright : bool;
  showHelp : bool;
  args : list string
}.

(** The argument loop of [main]: the flags and positional arguments, or
    the first unknown flag, at which the program exits. *)
Fixpoint parseArgs (osArgs : list string) (f : Flags) : Flags + string :=
  match osArgs with
  | [] => inl f
  | arg :: rest =>
    if String.eqb arg "-j" || String.eqb arg "--json" then
      parseArgs rest (mkFlags true (showVersion f) (showCopyright f) (showHelp f) (args f))
    else if String.eqb arg "-v" || String.eqb arg "--version" then
      parseArgs rest (mkFlags (jsonOutput f) true (showCopyright f) (showHelp f) (args f))
    else if String.eqb arg "--copyright" then
      parseArgs rest (mkFlags (jsonOutput f) (showVersion f) true (showHelp f) (args f))
    else if String.eqb arg "-h" || String.eqb arg "--help" then
      parseArgs rest (mkFlags (jsonOutput f) (showVersion f) (showCopyright f) true (args f))
    else if strings.HasPrefix arg "-" then inr arg
    else
      parseArgs rest
        (mkFlags (jsonOutput f) (showVersion f) (showCopyright f) (showHelp f)
                 (args f ++ [arg])%list)
  end.

Section Main.

Variable U : unicode.Tables.

(** The loop of [printJSON] over [outputLines], made with [len(lines)]
    zero values; [None] is the panic of an index out of range. *)
Fixpoint fillOutput (lines : list LineItem) (i : nat) (outputLines : list OutputLine)
  : option (list OutputLine) :=
  match lines with
  | [] => Some outputLines
  | line :: rest =>
    match setAt i (mkOutputLine (formatLineName U (Line line))
                                (normalizeStatus U (Status line))) outputLines with
    | Some outputLines' => fillOutput rest (S i) outputLines'
    | None => None
    end
  end.

(** The JSON value of a struct: its fields in order, under their tags. *)
Definition outputLineValue (l : OutputLine) : json.Value :=
  json.Object [("line", json.Str (olLine l)); ("status", json.Str (olStatus l))].

Definition outputValue (o : OutputResponse) : json.Value :=
  json.Object [("code", json.Number (orCode o));
               ("data", json.Array (List.map outputLineValue (orData o)));
               ("message", json.Str (orMessage o))].

(** [printJSON]: what it writes to standard output; the error it returns
    is that of the write, which [main] looks at. *)
Definition printJSON (lines : list LineItem) : option string :=
  match fillOutput lines 0
          (List.repeat (mkOutputLine EmptyString EmptyString) (List.length lines)) with
  | Some outputLines =>
    let output := mkOutputResponse 200 outputLines "success" in
    Some (json.Encode "    " (outputValue output))
  | None => None
  end.

(** [main] on the arguments after the program name, [os.Args[1:]], the
    HTTP exchange that takes place if the request is issued, and what
    becomes of the write of the JSON document.  The calls of [fmt] return
    their write errors too, but the program looks at none of them. *)
Definition main (osArgs : list string) (x : Exchange) (w : Sink) : Run :=
  match parseArgs osArgs (mkFlags false false false false []) with
  | inr arg =>
    mkRun EmptyString
          ("Error: unknown flag '" ++ arg ++ "'" ++ LF
           ++ "Use '" ++ programName ++ " --help' for usage information" ++ LF)
          1 false
  | inl f =>
    if showHelp f then mkRun printUsage EmptyString 0 false
    else if showVersion f then
      mkRun (programName ++ " (" ++ programVersion ++ ")" ++ LF) EmptyString 0 false
    else if showCopyright f then mkRun (copyrightInfo ++ LF) EmptyString 0 false
    else
      let serviceFilter := match args f with [] => EmptyString | a :: _ => a end in
      if match args f with [] => false | _ :: _ => negb (isValidService U serviceFilter) end
      then
        mkRun EmptyString
              ("Error: invalid service '" ++ serviceFilter ++ "'" ++ LF
               ++ "Valid services: " ++ strings.Join validServices ", " ++ LF)
              1 false
      else
        match fetchLineStatuses x with
        | inr err => mkRun EmptyString ("Error: " ++ err ++ LF) 1 true
        | inl apiResp =>
          if negb (apiStatus apiResp)
          then mkRun EmptyString ("Error: API returned unsuccessful status" ++ LF) 1 true
          else
            let lines := filterByService U (apiData apiResp) serviceFilter in
            match lines with
            | [] => mkRun EmptyString ("No lines found" ++ LF) 1 true
            | _ :: _ =>
              if jsonOutput f then
                match printJSON lines with
                | Some text =>
                  match w with
                  | Accepting => mkRun (LF ++ text) EmptyString 0 true
                  | Failing err =>
                    mkRun (LF ++ text) ("Error encoding JSON: " ++ err ++ LF) 1 true
                  end
                | None => mkRun LF "panic: runtime error: index out of range" 2 true
                end
              else mkRun (LF ++ printTable U lines) EmptyString 0 true
            end
        end
  end.

End Main.

(** * Vocabulary of the statements *)

(** Tables that leave every rune above U+00FF as it is and fold none: an
    instance on which the program can be run. *)
Definition plainTables : unicode.Tables :=
  unicode.mkTables (fun r => r) (fun r => r) (fun _ _ => false).

(** The test of the loop of [filterByService] on one batch. *)
Definition selects (U : unicode.Tables) (service : string) (svc : ServiceData) : bool :=
  String.eqb service EmptyString || strings.EqualFold U (Type_ svc) service.


(** Title case as the comment of [formatLineName] words it: the first
    letter in upper case, the rest in lower case. *)
Definition titleCase (U : unicode.Tables) (s : string) : string :=
  let w := snd (utf8.DecodeRuneInString s) in
  strings.ToUpper U (stake w s) ++ strings.ToLower U (sdrop w s).

(** The text after the last [sep] of [s], all of [s] when it has none;
    [cur] is the text read since the last one. *)
Fixpoint afterLastFrom (sep : ascii) (cur : string) (s : string) : string :=
  match s with
  | EmptyString => cur
  | String a s' =>
    if Ascii.eqb a sep then afterLastFrom sep EmptyString s'
    else afterLastFrom sep (cur ++ str1 a) s'
  end.

Definition afterLast (sep : ascii) (s : string) : string :=
  afterLastFrom sep EmptyString s.

Fixpoint contains (sep : ascii) (s : string) : bool :=
  match s with
  | EmptyString => false
  | String a s' => Ascii.eqb a sep || contains sep s'
  end.

(** The width of a text on the terminal, in characters. *)
Definition displayWidth (s : string) : Z := utf8.RuneCountInString s.

(** The widest formatted line name, and no less than the header. *)
Definition widestName (U : unicode.Tables) (lines : list LineItem) : Z :=
  fold_right Z.max 5 (List.map (fun l => displayWidth (formatLineName U (Line l))) lines).

(** The arguments of an invocation. *)
Definition isJSONFlag (arg : string) : bool := String.eqb arg "-j" || String.eqb arg "--json".
Definition isVersionFlag (arg : string) : bool :=
  String.eqb arg "-v" || String.eqb arg "--version".
Definition isCopyrightFlag (arg : string) : bool := String.eqb arg "--copyright".
Definition isHelpFlag (arg : string) : bool := String.eqb arg "-h" || String.eqb arg "--help".

Definition recognizedFlag (arg : string) : bool :=
  isJSONFlag arg || isVersionFlag arg || isCopyrightFlag arg || isHelpFlag arg.

Definition unknownFlag (arg : string) : bool :=
  strings.HasPrefix arg "-" && negb (recognizedFlag arg).

(** A flag that makes the program print a text and exit. *)
Definition informational (arg : string) : bool :=
  isVersionFlag arg || isCopyrightFlag arg || isHelpFlag arg.

Definition positionals (osArgs : list string) : list string :=
  filter (fun arg => negb (strings.HasPrefix arg "-")) osArgs.

(** The positional service argument, and the service the run asks for. *)
Definition serviceArgument (osArgs : list string) : option string :=
  List.head (positionals osArgs).

Definition requestedService (osArgs : list string) : string :=
  match positionals osArgs with
  | [] => EmptyString
  | service :: _ => service
  end.

(** The JSON document of the claim on the JSON renderer. *)
Definition expectedDocument (U : unicode.Tables) (lines : list LineItem) : json.Value :=
  json.Object
    [("code", json.Number 200);
     ("data",
      json.Array
        (List.map
           (fun l => json.Object
                       [("line", json.Str (formatLineName U (Line l)));
                        ("status", json.Str (normalizeStatus U (Status l)))])
           lines));
     ("message", json.Str "success")].

(** What the model asks of the case tables above U+00FF where a statement
    depends on them: lower-casing maps a scalar value to a scalar value,
    and a lower-cased rune is its own lower case. *)
Definition lowerTableOK (U : unicode.Tables) : Prop :=
  forall r, 0xFF < r -> utf8.ValidRune r = true ->
            utf8.ValidRune (unicode.lowerAbove U r) = true
            /\ unicode.ToLower U (unicode.lowerAbove U r) = unicode.lowerAbove U r.

(** The cases of [DecodeRuneInString]. *)
Inductive DecodeCase : string -> Z -> nat -> Prop :=
| DecEmpty : DecodeCase EmptyString utf8.RuneError 0
| DecAscii (a0 : ascii) (s : string) :
    byteZ a0 < 0x80 -> DecodeCase (String a0 s) (byteZ a0) 1
| DecTwo (a0 a1 : ascii) (s : string) :
    0xC2 <= byteZ a0 <= 0xDF -> 0x80 <= byteZ a1 <= 0xBF ->
    DecodeCase (String a0 (String a1 s)) (byteZ a0 mod 32 * 64 + byteZ a1 mod 64) 2
| DecThree (a0 a1 a2 : ascii) (s : string) :
    0xE0 <= byteZ a0 <= 0xEF ->
    utf8.acceptLo (byteZ a0) <= byteZ a1 <= utf8.acceptHi (byteZ a0) ->
    0x80 <= byteZ a2 <= 0xBF ->
    DecodeCase (String a0 (String a1 (String a2 s)))
             (byteZ a0 mod 16 * 4096 + byteZ a1 mod 64 * 64 + byteZ a2 mod 64) 3
| DecFour (a0 a1 a2 a3 : ascii) (s : string) :
    0xF0 <= byteZ a0 <= 0xF4 ->
    utf8.acceptLo (byteZ a0) <= byteZ a1 <= utf8.acceptHi (byteZ a0) ->
    0x80 <= byteZ a2 <= 0xBF -> 0x80 <= byteZ a3 <= 0xBF ->
    DecodeCase (String a0 (String a1 (String a2 (String a3 s))))
             (byteZ a0 mod 8 * 262144 + byteZ a1 mod 64 * 4096
              + byteZ a2 mod 64 * 64 + byteZ a3 mod 64) 4
| DecInvalid (a0 : ascii) (s : string) :
    0x80 <= byteZ a0 -> DecodeCase (String a0 s) utf8.RuneError 1.

(** The modes between two tokens, in which white space is skipped. *)
Definition between (m : json.Mode) : Prop :=
  m = json.Start \/ m = json.ArrOpen \/ m = json.ObjOpen \/ m = json.Key
  \/ m = json.Colon \/ m = json.After.

(** Every byte of the string is above 0x7F. *)
Fixpoint highBytes (s : string) : Prop :=
  match s with
  | EmptyString => True
  | String a s' => 0x80 <= byteZ a /\ highBytes s'
  end.

(** Both texts of an output line are valid UTF-8. *)
Definition validLine (o : OutputLine) : Prop :=
  utf8.ValidString (olLine o) = true /\ utf8.ValidString (olStatus o) = true.

(** The conversion [string(runes)]: the encodings of the runes, in order. *)
Definition stringOfRunes (l : list Z) : string :=
  fold_right (fun r acc => utf8.EncodeRune r ++ acc) EmptyString l.

(** Every rune of the list is a scalar value. *)
Definition validRunes (l : list Z) : Prop :=
  Forall (fun r => utf8.ValidRune r = true) l.

(** Every byte of the string is an ASCII byte. *)
Definition isASCII (s : string) : bool :=
  forallb (fun a => byteZ a <? 0x80) (list_ascii_of_string s).

(** The list from its first rune that does not satisfy [f]. *)
Fixpoint dropWhile (f : Z -> bool) (l : list Z) : list Z :=
  match l with
  | [] => []
  | r :: l' => if f r then dropWhile f l' else l
  end.

(** The runes of a text without the white space at its start and end. *)
Definition trimRunes (l : list Z) : list Z :=
  rev (dropWhile unicode.IsSpace (rev (dropWhile unicode.IsSpace l))).

(** The list does not start with a rune that satisfies [f]. *)
Definition noLead (f : Z -> bool) (l : list Z) : Prop :=
  match l with
  | [] => True
  | r :: _ => f r = false
  end.

(** Every byte of the string satisfies [p]. *)
Fixpoint allBytes (p : Z -> bool) (s : string) : bool :=
  match s with
  | EmptyString => true
  | String a s' => p (byteZ a) && allBytes p s'
  end.

(** The bytes that HTML gives a meaning to: [<], [>] and [&]. *)
Definition htmlSpecial (b : Z) : bool := (b =? 0x3C) || (b =? 0x3E) || (b =? 0x26).

(** A text that is valid UTF-8 and has none of the bytes [<], [>], [&]. *)
Definition safeText (s : string) : Prop :=
  utf8.ValidString s = true /\ allBytes (fun b => negb (htmlSpecial b)) s = true.

(** A printing ASCII byte that HTML gives no meaning to. *)
Definition printingByte (b : Z) : bool :=
  (0x20 <=? b) && (b <? 0x80) && negb (htmlSpecial b).

(** The bytes of the punctuation and the indentation of a document. *)
Definition plainByte (b : Z) : bool := (b =? 0x0A) || printingByte b.

(** What [encoding/json] makes of a Go string: every byte that is no part
    of a rune is replaced by U+FFFD, one for each such byte. *)
Definition replaceInvalid (s : string) : string := strings.Map (fun r => r) s.

(** The JSON document that decoding the output of the JSON renderer
    yields. *)
Definition decodedDocument (U : unicode.Tables) (lines : list LineItem) : json.Value :=
  json.Object
    [("code", json.Number 200);
     ("data",
      json.Array
        (List.map
           (fun l => json.Object
                       [("line", json.Str (formatLineName U (Line l)));
                        ("status", json.Str (replaceInvalid (normalizeStatus U (Status l))))])
           lines));
     ("message", json.Str "success")].

(** An output line as it is read back from the document. *)
Definition coercedLine (o : OutputLine) : OutputLine :=
  mkOutputLine (replaceInvalid (olLine o)) (replaceInvalid (olStatus o)).

(** The invocation passes the argument loop and the checks before the
    request: no unknown flag, no help, version or copyright flag, and a
    service argument, if there is one, that is a valid service. *)
Definition proceeds (U : unicode.Tables) (osArgs : list string) : bool :=
  forallb (fun a => negb (unknownFlag a) && negb (informational a)) osArgs
  && match positionals osArgs with
     | [] => true
     | service :: _ => isValidService U service
     end.

(** A run that fails: nothing on standard output, the message and a line
    feed on standard error, exit code 1; [issued] tells whether the HTTP
    request was issued before. *)
Definition failure (message : string) (issued : bool) : Run :=
  mkRun EmptyString (message ++ LF) 1 issued.

(** The document of the one line with the label [Linha 9-a<b] and the
    status [ B&B> ] followed by the byte 0xFF. *)
Definition escapedDocument : string :=
  "{" ++ LF ++ "    " ++ DQ ++ "code" ++ DQ ++ ": 200," ++ LF
  ++ "    " ++ DQ ++ "data" ++ DQ ++ ": [" ++ LF
  ++ "        {" ++ LF
  ++ "            " ++ DQ ++ "line" ++ DQ ++ ": " ++ DQ
  ++ "A" ++ ("\u" ++ "003c") ++ "b" ++ DQ ++ "," ++ LF
  ++ "            " ++ DQ ++ "status" ++ DQ ++ ": " ++ DQ
  ++ "B" ++ ("\u" ++ "0026") ++ "B" ++ ("\u" ++ "003e") ++ " " ++ ("\u" ++ "fffd")
  ++ DQ ++ LF
  ++ "        }" ++ LF
  ++ "    ]," ++ LF
  ++ "    " ++ DQ ++ "message" ++ DQ ++ ": " ++ DQ ++ "success" ++ DQ ++ LF
  ++ "}" ++ LF.

(** The text of the document before and after its data array. *)
Definition documentHead : string :=
  "{" ++ json.newline "    " 1 ++ json.quote "code" ++ ": " ++ fmt.Itoa 200
  ++ "," ++ json.newline "    " 1 ++ json.quote "data" ++ ": ".

Definition documentTail : string :=
  "," ++ json.newline "    " 1 ++ json.quote "message" ++ ": "
  ++ json.quote "success" ++ json.newline "    " 0 ++ "}".

(** * Properties *)

(** ** Bytes and strings *)

Lemma sapp_assoc (a b c : string) : (a ++ b) ++ c = a ++ (b ++ c).
Proof. induction a as [|x a IH]; simpl; [reflexivity | now rewrite IH]. Qed.

Lemma sapp_nil_r (a : string) : a ++ EmptyString = a.
Proof. induction a as [|x a IH]; simpl; [reflexivity | now rewrite IH]. Qed.

Lemma slength_app (a b : string) :
  String.length (a ++ b) = (String.length a + String.length b)%nat.
Proof. induction a as [|x a IH]; simpl; [reflexivity | now rewrite IH]. Qed.

Lemma stake_sdrop (n : nat) (s : string) : stake n s ++ sdrop n s = s.
Proof.
  revert s; induction n as [|n IH]; intros [|a s]; simpl; try reflexivity.
  now rewrite IH.
Qed.

Lemma sdrop_app_length (a b : string) : sdrop (String.length a) (a ++ b) = b.
Proof. induction a as [|x a IH]; simpl; [reflexivity | exact IH]. Qed.

Lemma stake_app_length (a b : string) : stake (String.length a) (a ++ b) = a.
Proof. induction a as [|x a IH]; simpl; [reflexivity | now rewrite IH]. Qed.

Lemma sdrop_pred (n : nat) (a : ascii) (s : string) :
  (1 <= n)%nat -> sdrop (n - 1) s = sdrop n (String a s).
Proof. destruct n as [|n]; [lia | ]. intros _. cbn [sdrop]. now rewrite Nat.sub_succ, Nat.sub_0_r. Qed.

Lemma byteZ_range (a : ascii) : 0 <= byteZ a < 256.
Proof.
  unfold byteZ. pose proof (N_ascii_bounded a) as H.
  split; [apply N2Z.is_nonneg | ].
  change 256 with (Z.of_N 256). now apply N2Z.inj_lt.
Qed.

Lemma byteZ_mkByte (z : Z) : 0 <= z < 256 -> byteZ (mkByte z) = z.
Proof.
  intros H. unfold byteZ, mkByte.
  rewrite Z.mod_small by lia.
  rewrite N_ascii_embedding.
  - apply Z2N.id; lia.
  - change 256%N with (Z.to_N 256). apply Z2N.inj_lt; lia.
Qed.

Lemma mkByte_byteZ (a : ascii) : mkByte (byteZ a) = a.
Proof.
  unfold mkByte, byteZ. pose proof (byteZ_range a) as H. unfold byteZ in H.
  rewrite Z.mod_small by lia.
  rewrite N2Z.id. apply ascii_N_embedding.
Qed.

Lemma byteZ_inj (a b : ascii) : byteZ a = byteZ b -> a = b.
Proof. intros H. rewrite <- (mkByte_byteZ a), <- (mkByte_byteZ b). now rewrite H. Qed.

(** ** The filter *)

Lemma filter_loop (U : unicode.Tables) (service : string) (data : list ServiceData)
      (result : list LineItem) :
  fold_left
    (fun result svc =>
       if String.eqb service EmptyString || strings.EqualFold U (Type_ svc) service
       then (result ++ ListItem svc)%list
       else result)
    data result
  = (result ++ flat_map ListItem (filter (selects U service) data))%list.
Proof.
  revert result; induction data as [|svc data IH]; intros result; simpl.
  - now rewrite app_nil_r.
  - rewrite IH. unfold selects at 2.
    destruct (String.eqb service EmptyString || strings.EqualFold U (Type_ svc) service);
      simpl; [now rewrite <- app_assoc | reflexivity].
Qed.

Lemma filterByService_selects (U : unicode.Tables) (data : list ServiceData)
      (service : string) :
  filterByService U data service = flat_map ListItem (filter (selects U service) data).
Proof. unfold filterByService. now rewrite filter_loop. Qed.

Lemma filter_none {A : Type} (p : A -> bool) (l : list A) :
  (forall x, In x l -> p x = false) -> filter p l = [].
Proof.
  induction l as [|x l IH]; simpl; intros H; [reflexivity | ].
  rewrite (H x) by now left. apply IH. intros y Hy. apply H. now right.
Qed.

(** C1.  [filterByService] returns the line items of the batches whose
    operator type matches the service string under [strings.EqualFold]
    (Go's case-insensitive equality), concatenated in source order; with the
    empty service string it returns the items of all batches in order; and
    when the service string matches the type of exactly one batch it
    returns the items of that batch alone. *)
Theorem filterByService_matching_batches :
  forall (U : unicode.Tables) (data : list ServiceData) (service : string),
    (service <> EmptyString ->
     filterByService U data service
     = flat_map ListItem
         (filter (fun svc => strings.EqualFold U (Type_ svc) service) data))
    /\ filterByService U data EmptyString = flat_map ListItem data
    /\ (forall (pre post : list ServiceData) (b : ServiceData),
           data = (pre ++ b :: post)%list ->
           service <> EmptyString ->
           strings.EqualFold U (Type_ b) service = true ->
           (forall x, In x (pre ++ post)%list ->
                      strings.EqualFold U (Type_ x) service = false) ->
           filterByService U data service = ListItem b).
Proof.
  intros U data service.
  assert (Hne : service <> EmptyString ->
                forall svc, selects U service svc
                            = strings.EqualFold U (Type_ svc) service).
  { intros Hs svc. unfold selects.
    destruct (String.eqb_spec service EmptyString); [contradiction | reflexivity]. }
  split; [ | split].
  - intros Hs. rewrite filterByService_selects.
    f_equal. apply filter_ext. now apply Hne.
  - rewrite filterByService_selects.
    replace (filter (selects U EmptyString) data) with data; [reflexivity | ].
    induction data as [|svc data IH]; simpl; [reflexivity | now rewrite <- IH].
  - intros pre post b -> Hs Hb Hothers.
    rewrite filterByService_selects, filter_app. simpl.
    rewrite (Hne Hs b), Hb.
    rewrite !filter_none.
    + simpl. now rewrite app_nil_r.
    + intros x Hx. rewrite (Hne Hs). apply Hothers. apply in_or_app. now right.
    + intros x Hx. rewrite (Hne Hs). apply Hothers. apply in_or_app. now left.
Qed.

Lemma filterByService_witness :
  filterByService plainTables
    [mkServiceData [mkLineItem "1" "Linha 1-Azul" "" "Operações Normais" "verde" "" ""]
                   "" "metro";
     mkServiceData [mkLineItem "7" "Linha 7-Rubi" "" "Operações Normais" "verde" "" ""]
                   "" "cptm"]
    "CPTM"
  = [mkLineItem "7" "Linha 7-Rubi" "" "Operações Normais" "verde" "" ""].
Proof.
  refine (proj2 (proj2 (filterByService_matching_batches plainTables _ "CPTM"))
            [mkServiceData [mkLineItem "1" "Linha 1-Azul" "" "Operações Normais" "verde" "" ""]
                           "" "metro"]
            []
            (mkServiceData [mkLineItem "7" "Linha 7-Rubi" "" "Operações Normais" "verde" "" ""]
                           "" "cptm")
            eq_refl _ eq_refl _).
  - discriminate.
  - intros x [<- | []]. reflexivity.
Defined.

(** ** The status colors *)




(** ** The status text *)

(** C5.  [normalizeStatus] trims its input; a trimmed input that reads
    [operações encerradas] or [operações normais], in whatever letter case,
    becomes the singular form; every other input is returned trimmed and
    otherwise unchanged. *)
Theorem normalizeStatus_spec :
  forall (U : unicode.Tables) (status : string),
    let t := strings.TrimSpace status in
    (strings.ToLower U t = "operações encerradas" ->
     normalizeStatus U status = "Operação Encerrada")
    /\ (strings.ToLower U t = "operações normais" ->
        normalizeStatus U status = "Operação Normal")
    /\ (strings.ToLower U t <> "operações encerradas" ->
        strings.ToLower U t <> "operações normais" ->
        normalizeStatus U status = t)
    /\ normalizeStatus U "Operações Normais" = "Operação Normal"
    /\ normalizeStatus U "Operações Encerradas" = "Operação Encerrada".
Proof.
  intros U status t. unfold normalizeStatus. fold t.
  repeat split.
  - intros ->. reflexivity.
  - intros ->. reflexivity.
  - intros H1 H2.
    destruct (String.eqb_spec (strings.ToLower U t) "operações encerradas");
      [contradiction | ].
    destruct (String.eqb_spec (strings.ToLower U t) "operações normais");
      [contradiction | reflexivity].
Qed.

Lemma normalizeStatus_witness :
  normalizeStatus plainTables "  OPERAÇÕES ENCERRADAS " = "Operação Encerrada"
  /\ normalizeStatus plainTables " Velocidade Reduzida  " = "Velocidade Reduzida".
Proof.
  split.
  - exact (proj1 (normalizeStatus_spec plainTables "  OPERAÇÕES ENCERRADAS ") eq_refl).
  - refine (proj1 (proj2 (proj2 (normalizeStatus_spec plainTables " Velocidade Reduzida  ")))
              _ _); discriminate.
Defined.

(** ** The arguments and the exit code *)

Lemma recognizedFlag_prefix (arg : string) :
  recognizedFlag arg = true -> strings.HasPrefix arg "-" = true.
Proof.
  unfold recognizedFlag, isJSONFlag, isVersionFlag, isCopyrightFlag, isHelpFlag.
  repeat match goal with
         | |- context [String.eqb arg ?b] =>
           destruct (String.eqb_spec arg b) as [-> | _]; [reflexivity | ]
         end.
  discriminate.
Qed.

Lemma parseArgs_cons (arg : string) (rest : list string) (f : Flags) :
  parseArgs (arg :: rest) f =
    if isJSONFlag arg then
      parseArgs rest (mkFlags true (showVersion f) (showCopyright f) (showHelp f) (args f))
    else if isVersionFlag arg then
      parseArgs rest (mkFlags (jsonOutput f) true (showCopyright f) (showHelp f) (args f))
    else if isCopyrightFlag arg then
      parseArgs rest (mkFlags (jsonOutput f) (showVersion f) true (showHelp f) (args f))
    else if isHelpFlag arg then
      parseArgs rest (mkFlags (jsonOutput f) (showVersion f) (showCopyright f) true (args f))
    else if strings.HasPrefix arg "-" then inr arg
    else
      parseArgs rest
        (mkFlags (jsonOutput f) (showVersion f) (showCopyright f) (showHelp f)
                 (args f ++ [arg])%list).
Proof. reflexivity. Qed.

(** An argument is one of the seven flags, or none of them. *)
Lemma flag_kind (arg : string) :
  (arg = "-j" \/ arg = "--json" \/ arg = "-v" \/ arg = "--version"
   \/ arg = "--copyright" \/ arg = "-h" \/ arg = "--help")
  \/ (isJSONFlag arg = false /\ isVersionFlag arg = false
      /\ isCopyrightFlag arg = false /\ isHelpFlag arg = false).
Proof.
  unfold isJSONFlag, isVersionFlag, isCopyrightFlag, isHelpFlag.
  repeat match goal with
         | |- context [String.eqb arg ?b] =>
           destruct (String.eqb_spec arg b) as [-> | _]; [left; tauto | ]
         end.
  right. tauto.
Qed.

Ltac flag_cases arg :=
  destruct (flag_kind arg)
    as [[-> | [-> | [-> | [-> | [-> | [-> | ->]]]]]] | (Ej & Ev & Ec & Eh)];
  [ .. | rewrite parseArgs_cons, Ej, Ev, Ec, Eh;
         destruct (strings.HasPrefix arg "-") eqn:Ep ].

(** The loop stops at an argument that is an unknown flag, and only there. *)
Lemma parseArgs_inr (osArgs : list string) (f : Flags) (a : string) :
  parseArgs osArgs f = inr a -> In a osArgs /\ unknownFlag a = true.
Proof.
  revert f; induction osArgs as [|arg rest IH]; intros f; [discriminate | ].
  flag_cases arg; intros H;
    try (destruct (IH _ H) as [Hin Hu]; split; [now right | exact Hu]).
  injection H as <-. split; [now left | ].
  unfold unknownFlag, recognizedFlag. now rewrite Ep, Ej, Ev, Ec, Eh.
Qed.

Lemma parseArgs_unknown (osArgs : list string) (f : Flags) :
  (exists a, In a osArgs /\ unknownFlag a = true) ->
  exists a, parseArgs osArgs f = inr a.
Proof.
  revert f; induction osArgs as [|arg rest IH]; intros f [a [Hin Hu]]; [destruct Hin | ].
  assert (Hrest : unknownFlag arg = true \/ exists a', In a' rest /\ unknownFlag a' = true).
  { destruct Hin as [-> | Hin]; [now left | right; now exists a]. }
  clear Hin Hu.
  flag_cases arg;
    try (destruct Hrest as [Hu | Hrest]; [discriminate Hu | now apply IH]).
  - now exists arg.
  - destruct Hrest as [Hu | Hrest]; [ | now apply IH].
    unfold unknownFlag in Hu. rewrite Ep in Hu. discriminate.
Qed.

(** When the loop runs to its end, the flags are those that occur and the
    positional arguments are the arguments that start with no dash. *)
Lemma parseArgs_inl (osArgs : list string) (f f' : Flags) :
  parseArgs osArgs f = inl f' ->
  args f' = (args f ++ positionals osArgs)%list
  /\ showHelp f' = showHelp f || existsb isHelpFlag osArgs
  /\ showVersion f' = showVersion f || existsb isVersionFlag osArgs
  /\ showCopyright f' = showCopyright f || existsb isCopyrightFlag osArgs
  /\ jsonOutput f' = jsonOutput f || existsb isJSONFlag osArgs.
Proof.
  revert f; induction osArgs as [|arg rest IH]; intros f.
  - simpl. intros H. injection H as <-.
    now rewrite app_nil_r, !orb_false_r.
  - flag_cases arg; intros H; try discriminate;
      destruct (IH _ H) as (Ha & Hh & Hv & Hc & Hj);
      unfold positionals; simpl filter; fold (positionals rest);
      simpl existsb; rewrite ?Ep, ?Ej, ?Ev, ?Ec, ?Eh; simpl in *;
      rewrite Ha, Hh, Hv, Hc, Hj, ?orb_true_r, ?orb_false_r;
      repeat split; try reflexivity.
    now rewrite <- app_assoc.
Qed.

Lemma existsb_none {A : Type} (p q : A -> bool) (l : list A) :
  (forall a, q a = false -> p a = false) ->
  (forall a, In a l -> q a = false) -> existsb p l = false.
Proof.
  intros Hpq. induction l as [|a l IH]; simpl; intros H; [reflexivity | ].
  rewrite (Hpq a) by (apply H; now left). apply IH. intros b Hb. apply H. now right.
Qed.

Lemma informational_flags (a : string) :
  informational a = false ->
  isHelpFlag a = false /\ isVersionFlag a = false /\ isCopyrightFlag a = false.
Proof.
  unfold informational.
  destruct (isVersionFlag a), (isCopyrightFlag a), (isHelpFlag a);
    simpl; intros H; try discriminate; tauto.
Qed.

(** C7 as stated fails: with [--help] beside it an invalid service
    argument is never looked at, and the program exits with code 0. *)
Lemma invalid_service_with_help_exits_0 :
  serviceArgument ["bogus"; "--help"] = Some "bogus"
  /\ (forall U : unicode.Tables, isValidService U "bogus" = false)
  /\ (forall (U : unicode.Tables) (x : Exchange) (w : Sink),
         exitCode (main U ["bogus"; "--help"] x w) = 0
         /\ stderr (main U ["bogus"; "--help"] x w) = EmptyString).
Proof.
  split; [reflexivity | split].
  - intros U. reflexivity.
  - intros U x w. split; reflexivity.
Qed.

(** C7, amended.  An invocation with an argument that starts with a dash
    and is no recognized flag, and an invocation without a help, version or
    copyright flag whose positional service argument is not a valid service
    (compared case-insensitively), exits with code 1 after a message on
    standard error that is not empty, writes nothing to standard output and
    issues no HTTP request. *)
Theorem invalid_invocation_exits_1 :
  forall (U : unicode.Tables) (osArgs : list string) (x : Exchange) (w : Sink),
    (exists a, In a osArgs /\ unknownFlag a = true)
    \/ ((forall a, In a osArgs -> informational a = false)
        /\ exists service,
             serviceArgument osArgs = Some service /\ isValidService U service = false) ->
    exitCode (main U osArgs x w) = 1
    /\ stderr (main U osArgs x w) <> EmptyString
    /\ stdout (main U osArgs x w) = EmptyString
    /\ requested (main U osArgs x w) = false.
Proof.
  intros U osArgs x w H.
  assert (Hunknown : forall a, parseArgs osArgs (mkFlags false false false false []) = inr a ->
                     exitCode (main U osArgs x w) = 1
                     /\ stderr (main U osArgs x w) <> EmptyString
                     /\ stdout (main U osArgs x w) = EmptyString
                     /\ requested (main U osArgs x w) = false).
  { intros a Ha. unfold main. rewrite Ha. simpl. repeat split. discriminate. }
  destruct H as [H | [Hinfo (service & Hservice & Hinvalid)]].
  - destruct (parseArgs_unknown osArgs (mkFlags false false false false []) H) as [a Ha].
    now apply (Hunknown a).
  - destruct (parseArgs osArgs (mkFlags false false false false [])) as [f | a] eqn:Hparse;
      [ | now apply (Hunknown a)].
    clear Hunknown.
    destruct (parseArgs_inl _ _ _ Hparse) as (Ha & Hh & Hv & Hc & _). simpl in Ha, Hh, Hv, Hc.
    rewrite (existsb_none isHelpFlag informational) in Hh;
      [ | intros a E; now apply informational_flags in E | exact Hinfo].
    rewrite (existsb_none isVersionFlag informational) in Hv;
      [ | intros a E; now apply informational_flags in E | exact Hinfo].
    rewrite (existsb_none isCopyrightFlag informational) in Hc;
      [ | intros a E; now apply informational_flags in E | exact Hinfo].
    unfold serviceArgument in Hservice.
    unfold main. rewrite Hparse, Hh, Hv, Hc, Ha.
    destruct (positionals osArgs) as [|s rest]; [discriminate | ].
    injection Hservice as ->. rewrite Hinvalid. simpl.
    repeat split. discriminate.
Qed.

Lemma invalid_invocation_witness :
  exitCode (main plainTables ["--json"; "onibus"] (RequestFailed "unreachable") Accepting) = 1
  /\ exitCode (main plainTables ["metro"; "--verbose"] (RequestFailed "unreachable") Accepting)
     = 1.
Proof.
  split.
  - refine (proj1 (invalid_invocation_exits_1 plainTables ["--json"; "onibus"]
                     (RequestFailed "unreachable") Accepting (or_intror (conj _ _)))).
    + intros a [<- | [<- | []]]; reflexivity.
    + exists "onibus". split; reflexivity.
  - refine (proj1 (invalid_invocation_exits_1 plainTables ["metro"; "--verbose"]
                     (RequestFailed "unreachable") Accepting (or_introl _))).
    exists "--verbose". split; [right; now left | reflexivity].
Defined.

(** C8.  When the request has been issued and the response fetched and
    decoded, and the filter by the requested service leaves no line item,
    the program writes a message to standard error, exits with code 1 and
    writes nothing, neither table nor JSON, to standard output. *)
Theorem no_lines_exits_1 :
  forall (U : unicode.Tables) (osArgs : list string) (x : Exchange) (w : Sink)
         (resp : APIResponse),
    requested (main U osArgs x w) = true ->
    fetchLineStatuses x = inl resp ->
    filterByService U (apiData resp) (requestedService osArgs) = [] ->
    exitCode (main U osArgs x w) = 1
    /\ stderr (main U osArgs x w) <> EmptyString
    /\ stdout (main U osArgs x w) = EmptyString.
Proof.
  intros U osArgs x w resp. unfold main, requestedService.
  destruct (parseArgs osArgs (mkFlags false false false false [])) as [f | a] eqn:Hparse;
    [ | discriminate].
  destruct (parseArgs_inl _ _ _ Hparse) as (Ha & _). simpl in Ha. rewrite Ha.
  destruct (showHelp f); [discriminate | ].
  destruct (showVersion f); [discriminate | ].
  destruct (showCopyright f); [discriminate | ].
  match goal with
  | |- context [if ?c then mkRun _ _ 1 false else _] => destruct c; [discriminate | ]
  end.
  intros _ -> Hnone. rewrite Hnone.
  destruct (apiStatus resp); simpl; repeat split; discriminate.
Qed.

Lemma no_lines_witness :
  exitCode
    (main plainTables ["viaquatro"]
       (Responded 200
          (Decoded
             (mkAPIResponse true
                [mkServiceData
                   [mkLineItem "1" "Linha 1-Azul" "" "Operações Normais" "verde" "" ""]
                   "" "metro"])))
       Accepting)
  = 1.
Proof.
  exact (proj1 (no_lines_exits_1 plainTables ["viaquatro"]
                  (Responded 200
                     (Decoded
                        (mkAPIResponse true
                           [mkServiceData
                              [mkLineItem "1" "Linha 1-Azul" "" "Operações Normais" "verde" "" ""]
                              "" "metro"])))
                  Accepting
                  (mkAPIResponse true
                     [mkServiceData
                        [mkLineItem "1" "Linha 1-Azul" "" "Operações Normais" "verde" "" ""]
                        "" "metro"])
                  eq_refl eq_refl eq_refl)).
Defined.

(** ** The line name *)

Lemma splitFrom_not_nil (sep : string) (skip : nat) (cur s : string) :
  strings.splitFrom sep skip cur s <> [].
Proof.
  revert skip cur; induction s as [|a s IH]; intros skip cur;
    cbn [strings.splitFrom]; [discriminate | ].
  destruct skip; [ | apply IH].
  destruct (String.prefix sep (String a s)); [discriminate | apply IH].
Qed.

(** [strings.Split] returns at least one piece, so the index
    [len(parts)-1] of [formatLineName] is in range. *)
Lemma Split_not_nil (s sep : string) : strings.Split s sep <> [].
Proof. apply splitFrom_not_nil. Qed.

Lemma last_cons_not_nil {A : Type} (x d : A) (l : list A) :
  l <> [] -> List.last (x :: l) d = List.last l d.
Proof. destruct l; [contradiction | reflexivity]. Qed.

Lemma last_splitFrom_dash (cur s : string) :
  List.last (strings.splitFrom "-" 0 cur s) EmptyString = afterLastFrom "-" cur s.
Proof.
  revert cur; induction s as [|a s IH]; intros cur; [reflexivity | ].
  cbn [strings.splitFrom afterLastFrom String.prefix String.length Nat.sub].
  destruct (ascii_dec "-" a) as [<- | Hne].
  - rewrite Ascii.eqb_refl.
    assert (E : String.prefix EmptyString s = true) by now destruct s.
    rewrite E, last_cons_not_nil by apply splitFrom_not_nil. apply IH.
  - destruct (Ascii.eqb_spec a "-") as [-> | _]; [contradiction | apply IH].
Qed.

(** The piece [formatLineName] works on is the text after the last dash. *)
Lemma last_Split_dash (s : string) :
  List.last (strings.Split s "-") EmptyString = afterLast "-" s.
Proof. apply last_splitFrom_dash. Qed.

Lemma afterLastFrom_no_sep (sep : ascii) (cur s : string) :
  contains sep s = false -> afterLastFrom sep cur s = cur ++ s.
Proof.
  revert cur; induction s as [|a s IH]; intros cur; simpl.
  - now rewrite sapp_nil_r.
  - destruct (Ascii.eqb a sep); simpl; [discriminate | ].
    intros H. rewrite (IH _ H), sapp_assoc. reflexivity.
Qed.

(** What [formatLineName] computes: the text after the last dash, trimmed,
    its first byte converted to a string and upper-cased, the bytes after
    it lower-cased. *)
Lemma formatLineName_unfold (U : unicode.Tables) (line : string) :
  formatLineName U line =
    match strings.TrimSpace (afterLast "-" line) with
    | EmptyString => EmptyString
    | String name0 name1 =>
      strings.ToUpper U (utf8.EncodeRune (byteZ name0)) ++ strings.ToLower U name1
    end.
Proof.
  unfold formatLineName. rewrite last_Split_dash.
  now destruct (strings.TrimSpace (afterLast "-" line)).
Qed.

(** For a name that starts with an ASCII byte this is title case. *)
Lemma formatLineName_ascii_initial (U : unicode.Tables) (line : string) (a : ascii)
      (rest : string) :
  strings.TrimSpace (afterLast "-" line) = String a rest ->
  byteZ a < utf8.RuneSelf ->
  formatLineName U line = titleCase U (String a rest).
Proof.
  intros Hname Ha. rewrite formatLineName_unfold, Hname.
  unfold titleCase, utf8.DecodeRuneInString.
  apply Z.ltb_lt in Ha. rewrite Ha. cbn [snd stake sdrop].
  apply Z.ltb_lt in Ha. unfold utf8.RuneSelf in Ha.
  pose proof (byteZ_range a) as Hr.
  unfold utf8.EncodeRune.
  replace ((0 <=? byteZ a) && (byteZ a <=? 127)) with true
    by (symmetry; apply andb_true_iff; split; apply Z.leb_le; lia).
  now rewrite mkByte_byteZ.
Qed.

(** C9 at the input [água], which has no dash: title case is [Água], and
    [formatLineName] returns a string that starts with the two bytes of
    U+00C3, the rune whose number is the first byte of the input. *)
Theorem formatLineName_agua :
  contains "-" "água" = false
  /\ (forall U : unicode.Tables, titleCase U (strings.TrimSpace "água") = "Água")
  /\ (forall U : unicode.Tables, formatLineName U "água" <> "Água")
  /\ formatLineName plainTables "água" = "Ã" ++ utf8.EncodeRune utf8.RuneError ++ "gua".
Proof.
  split; [reflexivity | split; [ | split]].
  - intros U. reflexivity.
  - intros U. rewrite formatLineName_unfold.
    change (strings.TrimSpace (afterLast "-" "água")) with "água".
    cbv iota.
    change (strings.ToUpper U (utf8.EncodeRune (byteZ "195"))) with "Ã".
    cbn [append]. discriminate.
  - reflexivity.
Qed.

(** C4 at the input [Linha 11-Índigo]: the text after the last dash is
    [Índigo], already in title case, and [formatLineName] returns a string
    that starts with the two bytes of U+00C3. *)
Theorem formatLineName_Indigo :
  afterLast "-" "Linha 11-Índigo" = "Índigo"
  /\ (forall U : unicode.Tables,
         titleCase U (strings.TrimSpace (afterLast "-" "Linha 11-Índigo")) = "Índigo")
  /\ (forall U : unicode.Tables, formatLineName U "Linha 11-Índigo" <> "Índigo")
  /\ formatLineName plainTables "Linha 11-Índigo"
     = "Ã" ++ utf8.EncodeRune utf8.RuneError ++ "ndigo".
Proof.
  split; [reflexivity | split; [ | split]].
  - intros U. reflexivity.
  - intros U. rewrite formatLineName_unfold.
    change (strings.TrimSpace (afterLast "-" "Linha 11-Índigo")) with "Índigo".
    cbv iota.
    change (strings.ToUpper U (utf8.EncodeRune (byteZ "195"))) with "Ã".
    cbn [append]. discriminate.
  - reflexivity.
Qed.

(** ** The width of the name column *)

Lemma maxLen_loop (U : unicode.Tables) (lines : list LineItem) (m : Z) :
  fold_left
    (fun m line =>
       let name := formatLineName U (Line line) in
       if m <? Z.of_nat (String.length name) then Z.of_nat (String.length name) else m)
    lines m
  = fold_right Z.max m
      (List.map (fun l => Z.of_nat (String.length (formatLineName U (Line l)))) lines).
Proof.
  revert m; induction lines as [|l lines IH]; intros m; simpl; [reflexivity | ].
  rewrite IH. clear IH.
  set (n := Z.of_nat (String.length (formatLineName U (Line l)))).
  destruct (Z.ltb_spec m n) as [Hlt | Hge].
  - induction lines as [|l' lines IH]; simpl; lia.
  - induction lines as [|l' lines IH]; simpl; lia.
Qed.

(** The width [printTable] computes is the greatest length in bytes of a
    formatted name, and no less than 5. *)
Lemma maxLen_bytes (U : unicode.Tables) (lines : list LineItem) :
  maxLen U lines
  = fold_right Z.max 5
      (List.map (fun l => Z.of_nat (String.length (formatLineName U (Line l)))) lines).
Proof. apply maxLen_loop. Qed.

(** C6 at the single line [Linha 5-Lilás]: the formatted name [Lilás] is
    five characters wide, the widest name with the floor of 5 is 5, and
    the width [printTable] uses is 6, the length of the name in bytes. *)
Theorem maxLen_Lilas :
  forall U : unicode.Tables,
    let lines := [mkLineItem "5" "Linha 5-Lilás" "" "Operações Normais" "verde" "" ""] in
    formatLineName U "Linha 5-Lilás" = "Lilás"
    /\ displayWidth "Lilás" = 5
    /\ widestName U lines = 5
    /\ maxLen U lines = 6.
Proof. intros U. repeat split. Qed.

(** ** UTF-8 *)

Ltac to_prop :=
  repeat match goal with
         | H : _ && _ = true |- _ => apply andb_true_iff in H; destruct H
         | H : _ || _ = false |- _ => apply orb_false_iff in H; destruct H
         | H : negb _ = true |- _ => apply negb_true_iff in H
         | H : negb _ = false |- _ => apply negb_false_iff in H
         | H : (_ <=? _) = true |- _ => apply Z.leb_le in H
         | H : (_ <=? _) = false |- _ => apply Z.leb_gt in H
         | H : (_ <? _) = true |- _ => apply Z.ltb_lt in H
         | H : (_ <? _) = false |- _ => apply Z.ltb_ge in H
         | H : (_ =? _) = true |- _ => apply Z.eqb_eq in H
         | H : (_ =? _) = false |- _ => apply Z.eqb_neq in H
         | H : Nat.eqb _ _ = true |- _ => apply Nat.eqb_eq in H
         | H : Nat.eqb _ _ = false |- _ => apply Nat.eqb_neq in H
         end.

(** Decide the integer tests of the goal, one at a time, by arithmetic. *)
Ltac ztests :=
  repeat match goal with
         | |- context [?a =? ?b] =>
           destruct (Z.eqb_spec a b); try lia; cbn [andb orb negb]
         | |- context [?a <=? ?b] =>
           destruct (Z.leb_spec a b); try lia; cbn [andb orb negb]
         | |- context [?a <? ?b] =>
           destruct (Z.ltb_spec a b); try lia; cbn [andb orb negb]
         end.

Lemma ValidRune_iff (r : Z) :
  utf8.ValidRune r = true <-> 0 <= r <= 0x10FFFF /\ ~ (0xD800 <= r <= 0xDFFF).
Proof.
  unfold utf8.ValidRune, utf8.surrogate, utf8.MaxRune. split.
  - intros H. to_prop.
    match goal with H : _ && _ = false |- _ => apply andb_false_iff in H; destruct H end;
      to_prop; lia.
  - intros [H1 H2]. ztests; reflexivity.
Qed.

(** A byte below [RuneSelf] is a rune of its own. *)
Lemma Decode_ascii (a : ascii) (s : string) :
  byteZ a < 0x80 -> utf8.DecodeRuneInString (String a s) = (byteZ a, 1%nat).
Proof.
  intros H. unfold utf8.DecodeRuneInString, utf8.RuneSelf.
  apply Z.ltb_lt in H. now rewrite H.
Qed.

(** The width of a decoded rune is between 1 and 4 and within the string. *)
Lemma Decode_width (a : ascii) (s : string) :
  (1 <= snd (utf8.DecodeRuneInString (String a s)) <= 4)%nat
  /\ (snd (utf8.DecodeRuneInString (String a s)) <= String.length (String a s))%nat.
Proof.
  unfold utf8.DecodeRuneInString.
  repeat match goal with
         | |- context [if ?c then _ else _] => destruct c
         | |- context [match ?x with EmptyString => _ | String _ _ => _ end] => destruct x
         end; cbn [snd String.length]; lia.
Qed.

Lemma Decode_cases (s : string) :
  DecodeCase s (fst (utf8.DecodeRuneInString s)) (snd (utf8.DecodeRuneInString s)).
Proof.
  unfold utf8.DecodeRuneInString, utf8.accept, utf8.cont, utf8.RuneSelf.
  destruct s as [|a0 s]; [constructor | ].
  destruct (Z.ltb_spec (byteZ a0) 128); [now constructor | ].
  destruct s as [|a1 s]; [now constructor | ].
  repeat match goal with
         | |- context [if ?c then _ else _] => destruct c eqn:?
         | |- context [match ?x with EmptyString => _ | String _ _ => _ end] => destruct x
         end;
    cbn [fst snd]; to_prop;
    first [ now apply DecInvalid
          | apply DecTwo; unfold utf8.acceptLo, utf8.acceptHi in *;
            repeat match goal with
                   | H : context [?a =? ?b] |- _ => destruct (Z.eqb_spec a b); try lia
                   end; lia
          | apply DecThree; lia
          | apply DecFour; lia ].
Qed.

Lemma accept_bounds (b0 : Z) :
  0x80 <= utf8.acceptLo b0 /\ utf8.acceptHi b0 <= 0xBF.
Proof.
  unfold utf8.acceptLo, utf8.acceptHi.
  destruct (b0 =? 224), (b0 =? 240), (b0 =? 237), (b0 =? 244); lia.
Qed.

(** Arithmetic with the quotients and remainders of the encoding. *)
Ltac dlia := Z.div_mod_to_equations; lia.

Ltac accept_cases b0 H :=
  unfold utf8.acceptLo, utf8.acceptHi in H;
  destruct (Z.eqb_spec b0 224), (Z.eqb_spec b0 240),
    (Z.eqb_spec b0 237), (Z.eqb_spec b0 244); try lia.

(** Every decoded rune is a scalar value. *)
Lemma Decode_valid (s : string) :
  utf8.ValidRune (fst (utf8.DecodeRuneInString s)) = true.
Proof.
  apply ValidRune_iff.
  destruct (Decode_cases s) as [ | a0 s H0 | a0 a1 s H0 H1 | a0 a1 a2 s H0 H1 H2
                               | a0 a1 a2 a3 s H0 H1 H2 H3 | a0 s H0 ];
    unfold utf8.RuneError; try lia.
  - pose proof (byteZ_range a0). lia.
  - dlia.
  - accept_cases (byteZ a0) H1; dlia.
  - accept_cases (byteZ a0) H1; dlia.
Qed.

Lemma mkByte_eq (z : Z) (a : ascii) : z = byteZ a -> mkByte z = a.
Proof. intros ->. apply mkByte_byteZ. Qed.

Lemma byteZ_is (a : ascii) (z : Z) : byteZ a = z -> a = mkByte z.
Proof. intros <-. symmetry. apply mkByte_byteZ. Qed.

Lemma Decode_two (b0 b1 : Z) (rest : string) :
  0xC2 <= b0 <= 0xDF -> 0x80 <= b1 <= 0xBF ->
  utf8.DecodeRuneInString (String (mkByte b0) (String (mkByte b1) rest))
  = (b0 mod 32 * 64 + b1 mod 64, 2%nat).
Proof.
  intros H0 H1. unfold utf8.DecodeRuneInString.
  rewrite !byteZ_mkByte by lia.
  unfold utf8.accept, utf8.acceptLo, utf8.acceptHi, utf8.RuneSelf.
  ztests. reflexivity.
Qed.

Lemma Decode_three (b0 b1 b2 : Z) (rest : string) :
  0xE0 <= b0 <= 0xEF -> utf8.acceptLo b0 <= b1 <= utf8.acceptHi b0 ->
  0x80 <= b2 <= 0xBF ->
  utf8.DecodeRuneInString (String (mkByte b0) (String (mkByte b1) (String (mkByte b2) rest)))
  = (b0 mod 16 * 4096 + b1 mod 64 * 64 + b2 mod 64, 3%nat).
Proof.
  intros H0 H1 H2. pose proof (accept_bounds b0) as Hb.
  unfold utf8.DecodeRuneInString.
  rewrite !byteZ_mkByte by lia.
  unfold utf8.accept, utf8.cont, utf8.RuneSelf.
  set (lo := utf8.acceptLo b0) in *. set (hi := utf8.acceptHi b0) in *.
  ztests. reflexivity.
Qed.

Lemma Decode_four (b0 b1 b2 b3 : Z) (rest : string) :
  0xF0 <= b0 <= 0xF4 -> utf8.acceptLo b0 <= b1 <= utf8.acceptHi b0 ->
  0x80 <= b2 <= 0xBF -> 0x80 <= b3 <= 0xBF ->
  utf8.DecodeRuneInString
    (String (mkByte b0) (String (mkByte b1) (String (mkByte b2) (String (mkByte b3) rest))))
  = (b0 mod 8 * 262144 + b1 mod 64 * 4096 + b2 mod 64 * 64 + b3 mod 64, 4%nat).
Proof.
  intros H0 H1 H2 H3. pose proof (accept_bounds b0) as Hb.
  unfold utf8.DecodeRuneInString.
  rewrite !byteZ_mkByte by lia.
  unfold utf8.accept, utf8.cont, utf8.RuneSelf.
  set (lo := utf8.acceptLo b0) in *. set (hi := utf8.acceptHi b0) in *.
  ztests. reflexivity.
Qed.

(** The four shapes of an encoded scalar value. *)
Lemma EncodeRune_cases (r : Z) :
  utf8.ValidRune r = true ->
  (0 <= r <= 0x7F /\ utf8.EncodeRune r = str1 (mkByte r))
  \/ (0x80 <= r <= 0x7FF
      /\ utf8.EncodeRune r
         = String (mkByte (0xC0 + r / 64)) (String (mkByte (0x80 + r mod 64)) EmptyString))
  \/ (0x800 <= r <= 0xFFFF /\ utf8.EncodeRune r = utf8.enc3 r)
  \/ (0x10000 <= r <= 0x10FFFF
      /\ utf8.EncodeRune r
         = String (mkByte (0xF0 + r / 262144))
             (String (mkByte (0x80 + r / 4096 mod 64))
               (String (mkByte (0x80 + r / 64 mod 64))
                 (String (mkByte (0x80 + r mod 64)) EmptyString)))).
Proof.
  intros Hv. unfold utf8.EncodeRune. rewrite Hv. cbn [negb].
  apply ValidRune_iff in Hv.
  destruct (Z.leb_spec 0 r); [ | lia].
  destruct (Z.leb_spec r 0x7F); cbn [andb]; [left; split; [lia | reflexivity] | ].
  destruct (Z.leb_spec r 0x7FF); [right; left; split; [lia | reflexivity] | ].
  destruct (Z.leb_spec r 0xFFFF); [right; right; left; split; [lia | reflexivity] | ].
  right; right; right. split; [lia | reflexivity].
Qed.

(** A rune that is no scalar value is written as [RuneError]. *)
Lemma EncodeRune_invalid (r : Z) :
  utf8.ValidRune r = false -> utf8.EncodeRune r = utf8.EncodeRune utf8.RuneError.
Proof.
  intros Hv. unfold utf8.EncodeRune at 1. rewrite Hv. cbn [negb].
  assert (H : ~ (0 <= r <= 0x10FFFF /\ ~ (0xD800 <= r <= 0xDFFF))).
  { intros H. apply ValidRune_iff in H. congruence. }
  ztests; reflexivity.
Qed.

(** Decoding an encoded scalar value gives it back, with its width. *)
Lemma Encode_Decode (r : Z) (rest : string) :
  utf8.ValidRune r = true ->
  utf8.DecodeRuneInString (utf8.EncodeRune r ++ rest)
  = (r, String.length (utf8.EncodeRune r)).
Proof.
  intros Hv. pose proof Hv as Hr. apply ValidRune_iff in Hr.
  destruct (EncodeRune_cases r Hv) as [[H E] | [[H E] | [[H E] | [H E]]]]; rewrite E.
  - cbn [append str1 String.length]. rewrite Decode_ascii; rewrite byteZ_mkByte; trivial; lia.
  - cbn [append String.length]. rewrite Decode_two by dlia. f_equal. dlia.
  - unfold utf8.enc3. cbn [append String.length].
    rewrite Decode_three; [f_equal; dlia | dlia | | dlia].
    unfold utf8.acceptLo, utf8.acceptHi.
    destruct (Z.eqb_spec (0xE0 + r / 4096) 0xE0), (Z.eqb_spec (0xE0 + r / 4096) 0xF0),
      (Z.eqb_spec (0xE0 + r / 4096) 0xED), (Z.eqb_spec (0xE0 + r / 4096) 0xF4); dlia.
  - cbn [append String.length].
    rewrite Decode_four; [f_equal; dlia | dlia | | dlia | dlia].
    unfold utf8.acceptLo, utf8.acceptHi.
    destruct (Z.eqb_spec (0xF0 + r / 262144) 0xE0), (Z.eqb_spec (0xF0 + r / 262144) 0xF0),
      (Z.eqb_spec (0xF0 + r / 262144) 0xED), (Z.eqb_spec (0xF0 + r / 262144) 0xF4); dlia.
Qed.

(** An encoding is one to four bytes long, and one byte long only below
    [RuneSelf]. *)
Lemma EncodeRune_length (r : Z) :
  utf8.ValidRune r = true ->
  (1 <= String.length (utf8.EncodeRune r) <= 4)%nat
  /\ (String.length (utf8.EncodeRune r) = 1%nat -> r < 0x80).
Proof.
  intros Hv.
  destruct (EncodeRune_cases r Hv) as [[H E] | [[H E] | [[H E] | [H E]]]]; rewrite E;
    unfold utf8.enc3; cbn [String.length str1]; split; try lia; discriminate.
Qed.

(** The bytes of a decoded rune are its encoding: an encoding is accepted
    in its shortest form only. *)
Lemma Decode_Encode (s : string) :
  s <> EmptyString ->
  ~ (fst (utf8.DecodeRuneInString s) = utf8.RuneError
     /\ snd (utf8.DecodeRuneInString s) = 1%nat) ->
  stake (snd (utf8.DecodeRuneInString s)) s
  = utf8.EncodeRune (fst (utf8.DecodeRuneInString s)).
Proof.
  intros Hs Herr. pose proof (Decode_valid s) as Hv.
  destruct (Decode_cases s) as [ | a0 s H0 | a0 a1 s H0 H1 | a0 a1 a2 s H0 H1 H2
                               | a0 a1 a2 a3 s H0 H1 H2 H3 | a0 s H0 ];
    [contradiction | | | | | tauto];
    destruct (EncodeRune_cases _ Hv) as [[H E] | [[H E] | [[H E] | [H E]]]];
    try (pose proof (byteZ_range a0); exfalso; dlia);
    try (exfalso; accept_cases (byteZ a0) H1; dlia);
    rewrite E; unfold utf8.enc3, str1; cbn [stake];
    repeat f_equal; symmetry; apply mkByte_eq; try reflexivity;
    try (accept_cases (byteZ a0) H1); dlia.
Qed.

(** ** Mapping the runes of a string *)

Lemma MapFrom_skip (f : Z -> Z) (k : nat) (s : string) :
  strings.MapFrom f k s = strings.MapFrom f 0 (sdrop k s).
Proof.
  revert k; induction s as [|a s IH]; intros [|k]; try reflexivity.
  cbn [strings.MapFrom sdrop]. apply IH.
Qed.

Lemma EncodeRune_not_empty (r : Z) : utf8.EncodeRune r <> EmptyString.
Proof.
  unfold utf8.EncodeRune, utf8.enc3, str1.
  repeat match goal with |- context [if ?c then _ else _] => destruct c end; discriminate.
Qed.

(** [Map] on a string that starts with an encoded scalar value. *)
Lemma Map_Encode (f : Z -> Z) (r : Z) (rest : string) :
  utf8.ValidRune r = true ->
  strings.Map f (utf8.EncodeRune r ++ rest)
  = (if f r <? 0 then EmptyString else utf8.EncodeRune (f r)) ++ strings.Map f rest.
Proof.
  intros Hv. unfold strings.Map.
  pose proof (Encode_Decode r rest Hv) as Hd.
  pose proof (sdrop_app_length (utf8.EncodeRune r) rest) as Hdrop.
  destruct (utf8.EncodeRune r) as [|a x] eqn:E; [now apply EncodeRune_not_empty in E | ].
  cbn [append] in *. cbn [strings.MapFrom]. rewrite Hd.
  cbn [String.length sdrop] in *.
  rewrite Nat.sub_succ, Nat.sub_0_r, MapFrom_skip, Hdrop. reflexivity.
Qed.

(** A mapping that is idempotent on scalar values makes [Map] idempotent,
    on every string, valid UTF-8 or not. *)
Lemma Map_idempotent (f : Z -> Z) :
  (forall r, utf8.ValidRune r = true -> utf8.ValidRune (f r) = true /\ f (f r) = f r) ->
  forall (s : string) (k : nat),
    strings.Map f (strings.MapFrom f k s) = strings.MapFrom f k s.
Proof.
  intros Hf. induction s as [|a s IH]; intros k; [reflexivity | ].
  destruct k as [|k]; cbn [strings.MapFrom]; [ | apply IH].
  pose proof (Decode_valid (String a s)) as Hv.
  destruct (utf8.DecodeRuneInString (String a s)) as [c w]. cbn [fst] in Hv.
  destruct (Hf c Hv) as [Hfc Hidem].
  assert (Hpos : (f c <? 0) = false).
  { apply Z.ltb_ge. apply ValidRune_iff in Hfc. lia. }
  rewrite Hpos, Map_Encode, Hidem, Hpos, IH by exact Hfc. reflexivity.
Qed.

Lemma unicode_ToLower_cases (U : unicode.Tables) (r : Z) :
  (0xFF < r /\ unicode.ToLower U r = unicode.lowerAbove U r)
  \/ (r <= 0xFF /\ unicode.ToLower U r = r + 32
      /\ (0x41 <= r <= 0x5A \/ 0xC0 <= r <= 0xD6 \/ 0xD8 <= r <= 0xDE))
  \/ (r <= 0xFF /\ unicode.ToLower U r = r
      /\ ~ (0x41 <= r <= 0x5A \/ 0xC0 <= r <= 0xD6 \/ 0xD8 <= r <= 0xDE)).
Proof.
  unfold unicode.ToLower. ztests; intuition lia.
Qed.

Lemma unicode_ToLower_idempotent (U : unicode.Tables) :
  lowerTableOK U ->
  forall r, utf8.ValidRune r = true ->
            utf8.ValidRune (unicode.ToLower U r) = true
            /\ unicode.ToLower U (unicode.ToLower U r) = unicode.ToLower U r.
Proof.
  intros HU r Hv. pose proof Hv as Hr. apply ValidRune_iff in Hr.
  destruct (unicode_ToLower_cases U r) as [[H E] | [(H & E & Hc) | (H & E & Hc)]];
    rewrite E.
  - now apply HU.
  - split; [apply ValidRune_iff; lia | ].
    destruct (unicode_ToLower_cases U (r + 32)) as [[H' E'] | [(H' & E' & Hc') | (H' & E' & Hc')]];
      [lia | lia | exact E'].
  - split; [exact Hv | exact E].
Qed.

(** [strings.ToLower] is idempotent. *)
Lemma ToLower_idempotent (U : unicode.Tables) (s : string) :
  lowerTableOK U -> strings.ToLower U (strings.ToLower U s) = strings.ToLower U s.
Proof.
  intros HU. unfold strings.ToLower, strings.Map at 2.
  apply Map_idempotent. now apply unicode_ToLower_idempotent.
Qed.

Lemma plainTables_lowerTableOK : lowerTableOK plainTables.
Proof.
  intros r Hr Hv. split; [exact Hv | ].
  unfold unicode.ToLower. cbn [unicode.lowerAbove plainTables]. ztests; reflexivity.
Qed.

(** C10.  The status-color mapping is case-insensitive: a string and its
    lower-cased form get the same code, and [Verde] and [VERDE] get the
    green code of [verde].  (The case table above U+00FF is a parameter:
    lower-casing is taken to map scalar values to scalar values and to
    leave a lower-cased rune as it is.) *)
Theorem getColorForStatus_case_insensitive :
  forall U : unicode.Tables,
    lowerTableOK U ->
    (forall s : string,
        getColorForStatus U s = getColorForStatus U (strings.ToLower U s))
    /\ getColorForStatus U "Verde" = getColorForStatus U "verde"
    /\ getColorForStatus U "VERDE" = getColorForStatus U "verde"
    /\ getColorForStatus U "verde" = colorGreen.
Proof.
  intros U HU. repeat split.
  intros s. unfold getColorForStatus. now rewrite ToLower_idempotent.
Qed.

Lemma getColorForStatus_case_witness :
  getColorForStatus plainTables "CiNzA"
  = getColorForStatus plainTables (strings.ToLower plainTables "CiNzA").
Proof.
  exact (proj1 (getColorForStatus_case_insensitive plainTables plainTables_lowerTableOK)
               "CiNzA").
Defined.

(** ** Valid UTF-8 *)

Lemma validFrom_skip (k : nat) (s : string) :
  utf8.validFrom k s = utf8.validFrom 0 (sdrop k s).
Proof.
  revert k; induction s as [|a s IH]; intros [|k]; try reflexivity.
  cbn [utf8.validFrom sdrop]. apply IH.
Qed.

(** The width of a decoded rune is the length of its encoding. *)
Lemma Decode_size (s : string) :
  s <> EmptyString ->
  ~ (fst (utf8.DecodeRuneInString s) = utf8.RuneError
     /\ snd (utf8.DecodeRuneInString s) = 1%nat) ->
  snd (utf8.DecodeRuneInString s)
  = String.length (utf8.EncodeRune (fst (utf8.DecodeRuneInString s))).
Proof.
  intros Hs Herr. rewrite <- (Decode_Encode s Hs Herr).
  destruct s as [|a s]; [contradiction | ].
  destruct (Decode_width a s) as [_ Hle].
  revert Hle. generalize (snd (utf8.DecodeRuneInString (String a s))).
  generalize (String a s). clear.
  intros s n; revert s; induction n as [|n IH]; intros [|a s]; cbn [stake String.length];
    intros H; try lia.
  rewrite <- IH; lia.
Qed.

(** A string that starts with an encoded rune is valid when the rest is. *)
Lemma validFrom_Encode (r : Z) (rest : string) :
  utf8.validFrom 0 (utf8.EncodeRune r ++ rest) = utf8.validFrom 0 rest.
Proof.
  assert (Hval : forall r', utf8.ValidRune r' = true ->
                   utf8.validFrom 0 (utf8.EncodeRune r' ++ rest) = utf8.validFrom 0 rest).
  { intros r' Hv.
    pose proof (Encode_Decode r' rest Hv) as Hd.
    pose proof (sdrop_app_length (utf8.EncodeRune r') rest) as Hdrop.
    destruct (EncodeRune_length r' Hv) as [_ Hone].
    destruct (utf8.EncodeRune r') as [|a x] eqn:E; [now apply EncodeRune_not_empty in E | ].
    cbn [append] in *. cbn [utf8.validFrom]. rewrite Hd.
    cbn [String.length sdrop] in *.
    rewrite Nat.sub_succ, Nat.sub_0_r, validFrom_skip, Hdrop.
    replace ((r' =? utf8.RuneError) && Nat.eqb (S (String.length x)) 1) with false;
      [reflexivity | ].
    symmetry. apply andb_false_iff.
    destruct (Nat.eqb_spec (S (String.length x)) 1) as [E1 | ]; [left | now right].
    apply Z.eqb_neq. specialize (Hone E1). unfold utf8.RuneError. lia. }
  destruct (utf8.ValidRune r) eqn:Hv; [now apply Hval | ].
  rewrite (EncodeRune_invalid r Hv). now apply Hval.
Qed.

(** What [Map] returns is valid UTF-8, whatever the string and the mapping. *)
Lemma MapFrom_valid (f : Z -> Z) (s : string) (k : nat) (rest : string) :
  utf8.validFrom 0 (strings.MapFrom f k s ++ rest) = utf8.validFrom 0 rest.
Proof.
  revert k; induction s as [|a s IH]; intros k; [reflexivity | ].
  destruct k as [|k]; cbn [strings.MapFrom]; [ | apply IH].
  destruct (utf8.DecodeRuneInString (String a s)) as [c w].
  rewrite sapp_assoc.
  destruct (f c <? 0); [apply IH | ].
  rewrite validFrom_Encode. apply IH.
Qed.

(** The formatted line name is valid UTF-8 for every line label. *)
Lemma formatLineName_valid (U : unicode.Tables) (line : string) :
  utf8.ValidString (formatLineName U line) = true.
Proof.
  rewrite formatLineName_unfold.
  destruct (strings.TrimSpace (afterLast "-" line)) as [|name0 name1]; [reflexivity | ].
  unfold utf8.ValidString, strings.ToUpper, strings.ToLower, strings.Map.
  rewrite MapFrom_valid.
  rewrite <- (sapp_nil_r (strings.MapFrom _ 0 name1)).
  now rewrite MapFrom_valid.
Qed.

(** ** Valid UTF-8 and trimming *)

Lemma validFrom_cons (a : ascii) (s : string) :
  utf8.validFrom 0 (String a s)
  = negb ((fst (utf8.DecodeRuneInString (String a s)) =? utf8.RuneError)
          && Nat.eqb (snd (utf8.DecodeRuneInString (String a s))) 1)
    && utf8.validFrom 0 (sdrop (snd (utf8.DecodeRuneInString (String a s))) (String a s)).
Proof.
  cbn [utf8.validFrom].
  pose proof (Decode_width a s) as [[Hw _] _].
  destruct (utf8.DecodeRuneInString (String a s)) as [c w]. cbn [fst snd] in *.
  rewrite validFrom_skip. f_equal. f_equal. now apply sdrop_pred.
Qed.

Lemma slength_sdrop (k : nat) (s : string) :
  String.length (sdrop k s) = (String.length s - k)%nat.
Proof.
  revert s; induction k as [|k IH]; intros [|a s]; cbn [sdrop String.length Nat.sub];
    try reflexivity. apply IH.
Qed.

Lemma stringOfRunes_cons (r : Z) (l : list Z) :
  stringOfRunes (r :: l) = utf8.EncodeRune r ++ stringOfRunes l.
Proof. reflexivity. Qed.

Lemma stringOfRunes_app (l1 l2 : list Z) :
  stringOfRunes (l1 ++ l2) = stringOfRunes l1 ++ stringOfRunes l2.
Proof.
  induction l1 as [|r l1 IH]; [reflexivity | ].
  cbn [app]. now rewrite !stringOfRunes_cons, IH, sapp_assoc.
Qed.

Lemma stringOfRunes_valid (l : list Z) : utf8.ValidString (stringOfRunes l) = true.
Proof.
  unfold utf8.ValidString. induction l as [|r l IH]; [reflexivity | ].
  now rewrite stringOfRunes_cons, validFrom_Encode.
Qed.

(** A valid string is the runes it decodes to, encoded. *)
Lemma valid_stringOfRunes (s : string) :
  utf8.ValidString s = true ->
  exists l : list Z, validRunes l /\ s = stringOfRunes l.
Proof.
  assert (H : forall (n : nat) (x : string),
             (String.length x <= n)%nat -> utf8.validFrom 0 x = true ->
             exists l : list Z, validRunes l /\ x = stringOfRunes l).
  { induction n as [|n IH]; intros [|a x] Hlen Hv;
      try (exists []; split; [constructor | reflexivity]);
      [cbn [String.length] in Hlen; lia | ].
    rewrite validFrom_cons in Hv. apply andb_true_iff in Hv as [Hne Hrest].
    assert (Herr : ~ (fst (utf8.DecodeRuneInString (String a x)) = utf8.RuneError
                      /\ snd (utf8.DecodeRuneInString (String a x)) = 1%nat)).
    { intros [E1 E2]. rewrite E1, E2 in Hne. discriminate Hne. }
    pose proof (Decode_width a x) as [[Hw _] _].
    destruct (IH (sdrop (snd (utf8.DecodeRuneInString (String a x))) (String a x)))
      as (l & Hl & El); [ | exact Hrest | ].
    { rewrite slength_sdrop. cbn [String.length] in *. lia. }
    exists (fst (utf8.DecodeRuneInString (String a x)) :: l). split.
    - constructor; [apply Decode_valid | exact Hl].
    - rewrite stringOfRunes_cons.
      rewrite <- El, <- Decode_Encode by (exact Herr || discriminate).
      symmetry. apply stake_sdrop. }
  intros Hv. now apply (H (String.length s)).
Qed.

(** *** Reversal *)

Lemma rev_onto_app (s t acc : string) :
  rev_onto (s ++ t) acc = rev_onto t (rev_onto s acc).
Proof. revert acc; induction s as [|a s IH]; intros acc; [reflexivity | apply IH]. Qed.

Lemma rev_onto_acc (s acc : string) : rev_onto s acc = srev s ++ acc.
Proof.
  unfold srev. revert acc; induction s as [|a s IH]; intros acc; [reflexivity | ].
  cbn [rev_onto]. rewrite (IH (String a acc)), (IH (String a EmptyString)), sapp_assoc.
  reflexivity.
Qed.

Lemma srev_app (s t : string) : srev (s ++ t) = srev t ++ srev s.
Proof. unfold srev at 1. rewrite rev_onto_app, rev_onto_acc. reflexivity. Qed.

Lemma srev_length (s : string) : String.length (srev s) = String.length s.
Proof.
  induction s as [|a s IH]; [reflexivity | ].
  change (String a s) with (str1 a ++ s) at 1.
  rewrite srev_app, slength_app, IH. unfold str1. cbn [String.length srev rev_onto]. lia.
Qed.

(** *** The last rune *)

(** Read from the end, the bytes of a rune decode to that rune, whatever
    comes before them. *)
Lemma DecodeLast_rune (e before : string) (c : Z) :
  utf8.DecodeRuneInString e = (c, String.length e) ->
  e <> EmptyString ->
  ~ (c = utf8.RuneError /\ String.length e = 1%nat) ->
  utf8.DecodeLastRune (srev e ++ before) = (c, String.length e).
Proof.
  intros HD Hne Herr.
  pose proof (Decode_cases e) as HC. rewrite HD in HC. cbn [fst snd] in HC.
  inversion HC as [ E | a0 s H0 E | a0 a1 s H0 H1 E | a0 a1 a2 s H0 H1 H2 E
                  | a0 a1 a2 a3 s H0 H1 H2 H3 E | a0 s H0 E ]; subst e.
  - contradiction.
  - destruct s; [ | discriminate].
    cbn [srev rev_onto append String.length]. unfold utf8.DecodeLastRune.
    unfold utf8.RuneSelf. destruct (Z.ltb_spec (byteZ a0) 128); [reflexivity | lia].
  - destruct s; [ | discriminate].
    cbn [srev rev_onto append String.length] in *. unfold utf8.DecodeLastRune.
    unfold utf8.RuneSelf. destruct (Z.ltb_spec (byteZ a1) 128); [lia | ].
    cbn [utf8.UTFMax Nat.sub utf8.scanStart].
    replace (utf8.RuneStart (byteZ a0)) with true
      by (unfold utf8.RuneStart, utf8.cont; ztests; reflexivity).
    cbn [String.length Nat.min stake srev rev_onto]. rewrite HD.
    cbn [Nat.eqb]. now subst c.
  - destruct s; [ | discriminate].
    pose proof (accept_bounds (byteZ a0)) as Hacc.
    cbn [srev rev_onto append String.length] in *. unfold utf8.DecodeLastRune.
    unfold utf8.RuneSelf. destruct (Z.ltb_spec (byteZ a2) 128); [lia | ].
    cbn [utf8.UTFMax Nat.sub utf8.scanStart].
    replace (utf8.RuneStart (byteZ a1)) with false
      by (unfold utf8.RuneStart, utf8.cont; ztests; reflexivity).
    replace (utf8.RuneStart (byteZ a0)) with true
      by (unfold utf8.RuneStart, utf8.cont; ztests; reflexivity).
    cbn [String.length Nat.min stake srev rev_onto]. rewrite HD.
    cbn [Nat.eqb]. now subst c.
  - destruct s; [ | discriminate].
    pose proof (accept_bounds (byteZ a0)) as Hacc.
    cbn [srev rev_onto append String.length] in *. unfold utf8.DecodeLastRune.
    unfold utf8.RuneSelf. destruct (Z.ltb_spec (byteZ a3) 128); [lia | ].
    cbn [utf8.UTFMax Nat.sub utf8.scanStart].
    replace (utf8.RuneStart (byteZ a2)) with false
      by (unfold utf8.RuneStart, utf8.cont; ztests; reflexivity).
    replace (utf8.RuneStart (byteZ a1)) with false
      by (unfold utf8.RuneStart, utf8.cont; ztests; reflexivity).
    replace (utf8.RuneStart (byteZ a0)) with true
      by (unfold utf8.RuneStart, utf8.cont; ztests; reflexivity).
    cbn [String.length Nat.min stake srev rev_onto]. rewrite HD.
    cbn [Nat.eqb]. now subst c.
  - exfalso. apply Herr. split; [now symmetry | cbn [String.length]; congruence].
Qed.

Lemma DecodeLast_Encode (c : Z) (before : string) :
  utf8.ValidRune c = true ->
  utf8.DecodeLastRune (srev (utf8.EncodeRune c) ++ before)
  = (c, String.length (utf8.EncodeRune c)).
Proof.
  intros Hc. apply DecodeLast_rune.
  - rewrite <- (sapp_nil_r (utf8.EncodeRune c)) at 1. now apply Encode_Decode.
  - apply EncodeRune_not_empty.
  - intros [E1 E2]. apply (EncodeRune_length c Hc) in E2. unfold utf8.RuneError in E1. lia.
Qed.

(** *** Trimming *)

Lemma trimLeftFrom_skip (f : Z -> bool) (k : nat) (s : string) :
  strings.trimLeftFrom f k s = strings.trimLeftFrom f 0 (sdrop k s).
Proof.
  revert k; induction s as [|a s IH]; intros [|k]; try reflexivity.
  cbn [strings.trimLeftFrom sdrop]. apply IH.
Qed.

Lemma lastIndexFrom_skip (f : Z -> bool) (truth : bool) (k : nat) (rs : string) :
  strings.lastIndexFrom f truth k rs = strings.lastIndexFrom f truth 0 (sdrop k rs).
Proof.
  revert k; induction rs as [|a rs IH]; intros [|k]; try reflexivity.
  cbn [strings.lastIndexFrom sdrop]. apply IH.
Qed.

(** [TrimLeftFunc] removes whole runes from a valid string. *)
Lemma TrimLeftFunc_runes (f : Z -> bool) (l : list Z) :
  validRunes l ->
  exists l' : list Z,
    validRunes l' /\ strings.TrimLeftFunc (stringOfRunes l) f = stringOfRunes l'.
Proof.
  unfold strings.TrimLeftFunc.
  induction 1 as [|c l Hc Hl IH]; [exists []; split; [constructor | reflexivity] | ].
  rewrite stringOfRunes_cons.
  pose proof (Encode_Decode c (stringOfRunes l) Hc) as HD.
  pose proof (sdrop_app_length (utf8.EncodeRune c) (stringOfRunes l)) as Hdrop.
  destruct (EncodeRune_length c Hc) as [[Hlen _] _].
  destruct (utf8.EncodeRune c ++ stringOfRunes l) as [|a s] eqn:E.
  { destruct (utf8.EncodeRune c); [cbn in Hlen; lia | discriminate E]. }
  cbn [strings.trimLeftFrom]. rewrite HD.
  destruct (f c).
  - rewrite trimLeftFrom_skip, (sdrop_pred _ a) by exact Hlen. rewrite Hdrop. exact IH.
  - exists (c :: l). split; [now constructor | ].
    now rewrite stringOfRunes_cons.
Qed.

(** The index that [lastIndexFunc] returns in a valid string is where a
    rune starts. *)
Lemma lastIndexFunc_runes (f : Z -> bool) (l : list Z) :
  validRunes l ->
  strings.lastIndexFunc (stringOfRunes l) f false = -1
  \/ exists (l0 : list Z) (c : Z) (l1 : list Z),
       l = (l0 ++ c :: l1)%list
       /\ strings.lastIndexFunc (stringOfRunes l) f false
          = Z.of_nat (String.length (stringOfRunes l0)).
Proof.
  unfold strings.lastIndexFunc.
  induction l as [|c l IH] using rev_ind; intros Hv; [now left | ].
  apply Forall_app in Hv as [Hl Hc]. inversion Hc as [|? ? Hc' _]; subst.
  rewrite stringOfRunes_app, stringOfRunes_cons. cbn [stringOfRunes fold_right].
  rewrite sapp_nil_r, srev_app.
  pose proof (DecodeLast_Encode c (srev (stringOfRunes l)) Hc') as HD.
  pose proof (sdrop_app_length (srev (utf8.EncodeRune c)) (srev (stringOfRunes l))) as Hdrop.
  pose proof (slength_app (srev (utf8.EncodeRune c)) (srev (stringOfRunes l))) as Hlen.
  rewrite !srev_length in Hdrop, Hlen.
  destruct (EncodeRune_length c Hc') as [[Hone _] _].
  destruct (srev (utf8.EncodeRune c) ++ srev (stringOfRunes l)) as [|a rs] eqn:E.
  { cbn [String.length] in Hlen. lia. }
  cbn [strings.lastIndexFrom]. rewrite HD.
  destruct (f c); cbn [Bool.eqb].
  - rewrite lastIndexFrom_skip, (sdrop_pred _ a) by exact Hone. rewrite Hdrop.
    destruct (IH Hl) as [E1 | (l0 & c0 & l1 & El & Ei)]; [now left | right].
    exists l0, c0, (l1 ++ [c])%list. split; [ | exact Ei].
    rewrite El, <- app_assoc. reflexivity.
  - right. exists l, c, []. split; [reflexivity | ]. rewrite Hlen, srev_length. lia.
Qed.

(** [TrimRightFunc] removes whole runes from a valid string. *)
Lemma TrimRightFunc_runes (f : Z -> bool) (l : list Z) :
  validRunes l ->
  exists l' : list Z,
    validRunes l' /\ strings.TrimRightFunc (stringOfRunes l) f = stringOfRunes l'.
Proof.
  intros Hv. unfold strings.TrimRightFunc.
  destruct (lastIndexFunc_runes f l Hv) as [E | (l0 & c & l1 & El & Ei)].
  - rewrite E. exists []. split; [constructor | ].
    change (Z.to_nat (-1)) with 0%nat. cbn [sdrop].
    now destruct (stringOfRunes l).
  - rewrite Ei, Nat2Z.id. subst l.
    apply Forall_app in Hv as [Hl0 Hv]. inversion Hv as [|? ? Hc Hl1]; subst.
    rewrite stringOfRunes_app, stringOfRunes_cons, sdrop_app_length.
    pose proof (Encode_Decode c (stringOfRunes l1) Hc) as HD.
    exists (l0 ++ [c])%list. split.
    { apply Forall_app. split; [exact Hl0 | now constructor]. }
    assert (Hcut : stake (String.length (stringOfRunes l0)
                          + String.length (utf8.EncodeRune c))
                         (stringOfRunes l0 ++ utf8.EncodeRune c ++ stringOfRunes l1)
                   = stringOfRunes (l0 ++ [c])).
    { rewrite <- sapp_assoc, <- slength_app, stake_app_length, stringOfRunes_app.
      rewrite stringOfRunes_cons. cbn [stringOfRunes fold_right].
      now rewrite sapp_nil_r. }
    destruct (utf8.EncodeRune c ++ stringOfRunes l1) as [|a s] eqn:E.
    { destruct (utf8.EncodeRune c) eqn:Ec;
        [now apply EncodeRune_not_empty in Ec | discriminate E]. }
    replace (0 <=? Z.of_nat (String.length (stringOfRunes l0))) with true
      by (symmetry; apply Z.leb_le; lia).
    cbn [andb]. rewrite HD. cbn [snd].
    destruct (Z.leb_spec utf8.RuneSelf (byteZ a)) as [Hhigh | Hlow].
    + rewrite <- Nat2Z.inj_add, Nat2Z.id. exact Hcut.
    + rewrite (Decode_ascii a s Hlow) in HD. injection HD as _ Hw.
      rewrite <- Hw in Hcut.
      change 1 with (Z.of_nat 1). rewrite <- Nat2Z.inj_add, Nat2Z.id. exact Hcut.
Qed.

(** Trimming a valid string leaves a valid string. *)
Lemma TrimSpace_valid (s : string) :
  utf8.ValidString s = true -> utf8.ValidString (strings.TrimSpace s) = true.
Proof.
  intros Hv. apply valid_stringOfRunes in Hv as (l & Hl & ->).
  unfold strings.TrimSpace.
  destruct (TrimLeftFunc_runes unicode.IsSpace l Hl) as (l1 & Hl1 & ->).
  destruct (TrimRightFunc_runes unicode.IsSpace l1 Hl1) as (l2 & _ & ->).
  apply stringOfRunes_valid.
Qed.

(** The normalized form of a valid status text is valid. *)
Lemma normalizeStatus_valid (U : unicode.Tables) (status : string) :
  utf8.ValidString status = true ->
  utf8.ValidString (normalizeStatus U status) = true.
Proof.
  intros Hv. unfold normalizeStatus.
  destruct (String.eqb _ _); [reflexivity | ].
  destruct (String.eqb _ _); [reflexivity | ].
  now apply TrimSpace_valid.
Qed.

(** ** Decoding what the encoder wrote *)

Lemma run_app (st : json.State) (a b : string) :
  json.run st (a ++ b) = json.run (json.run st a) b.
Proof. revert st; induction a as [|x a IH]; intros st; [reflexivity | apply IH]. Qed.

Lemma run_indent (m : json.Mode) (stk : list json.Frame) (res : option json.Value)
      (depth : nat) :
  between m ->
  json.run (json.mkState m stk res) (json.newline "    " depth) = json.mkState m stk res.
Proof.
  intros Hm. unfold json.newline.
  assert (Hstep : forall a, a = " "%char \/ a = "010"%char ->
                            json.step (json.mkState m stk res) a = json.mkState m stk res).
  { intros a [-> | ->];
      destruct Hm as [-> | [-> | [-> | [-> | [-> | ->]]]]]; reflexivity. }
  cbn [json.run]. rewrite Hstep by tauto.
  induction depth as [|d IH]; [reflexivity | ].
  cbn [strings.Repeat append json.run]. rewrite !Hstep by tauto. exact IH.
Qed.

Lemma hexVal_hexDigit (n : Z) :
  0 <= n < 16 -> json.hexVal (byteZ (json.hexDigit n)) = Some n.
Proof.
  intros H. unfold json.hexDigit, json.hexVal.
  destruct (Z.ltb_spec n 10); rewrite byteZ_mkByte by lia; ztests; f_equal; lia.
Qed.

Lemma EncodeRune_ascii (a : ascii) :
  byteZ a < 0x80 -> utf8.EncodeRune (byteZ a) = str1 a.
Proof.
  intros H. pose proof (byteZ_range a). unfold utf8.EncodeRune.
  ztests. now rewrite mkByte_byteZ.
Qed.

(** An ordinary byte of a string is taken as it is. *)
Lemma step_InStr_plain (key : bool) (acc : string) (stk : list json.Frame)
      (res : option json.Value) (a : ascii) :
  byteZ a <> 0x22 -> byteZ a <> 0x5C -> 0x20 <= byteZ a ->
  json.step (json.mkState (json.InStr key acc None) stk res) a
  = json.mkState (json.InStr key (acc ++ str1 a) None) stk res.
Proof.
  intros H1 H2 H3. unfold json.step. cbn [json.mode json.stack json.result json.flush].
  ztests. reflexivity.
Qed.

Lemma run_highBytes (key : bool) (stk : list json.Frame) (res : option json.Value)
      (x acc : string) :
  highBytes x ->
  json.run (json.mkState (json.InStr key acc None) stk res) x
  = json.mkState (json.InStr key (acc ++ x) None) stk res.
Proof.
  revert acc; induction x as [|a x IH]; intros acc H.
  - now rewrite sapp_nil_r.
  - destruct H as [Ha Hx]. cbn [json.run].
    rewrite step_InStr_plain by lia. rewrite IH by exact Hx.
    now rewrite sapp_assoc.
Qed.

(** The bytes of a rune of two bytes or more are all above 0x7F. *)
Lemma Decode_highBytes (a : ascii) (s : string) :
  0x80 <= byteZ a ->
  ~ (fst (utf8.DecodeRuneInString (String a s)) = utf8.RuneError
     /\ snd (utf8.DecodeRuneInString (String a s)) = 1%nat) ->
  highBytes (stake (snd (utf8.DecodeRuneInString (String a s))) (String a s)).
Proof.
  intros Ha Herr.
  remember (String a s) as t eqn:Et.
  destruct (Decode_cases t) as [ | a0 s0 H0 | a0 a1 s0 H0 H1 | a0 a1 a2 s0 H0 H1 H2
                               | a0 a1 a2 a3 s0 H0 H1 H2 H3 | a0 s0 H0 ];
    try discriminate; try tauto.
  - injection Et as -> ->. lia.
  - cbn [stake highBytes]. repeat split; lia.
  - pose proof (accept_bounds (byteZ a0)). cbn [stake highBytes]. repeat split; lia.
  - pose proof (accept_bounds (byteZ a0)). cbn [stake highBytes]. repeat split; lia.
Qed.

(** The escape of an ASCII byte is read back as that byte. *)
Lemma run_escapeByte (key : bool) (acc : string) (stk : list json.Frame)
      (res : option json.Value) (a : ascii) :
  byteZ a < 0x80 -> json.htmlSafe (byteZ a) = false ->
  json.run (json.mkState (json.InStr key acc None) stk res) (json.escapeByte (byteZ a))
  = json.mkState (json.InStr key (acc ++ str1 a) None) stk res.
Proof.
  intros Ha Hsafe. pose proof (byteZ_range a) as Hr.
  unfold json.escapeByte.
  destruct ((byteZ a =? 0x5C) || (byteZ a =? 0x22)) eqn:E1.
  { apply orb_true_iff in E1. destruct E1 as [E | E]; apply Z.eqb_eq in E;
      apply byteZ_is in E; subst a; reflexivity. }
  destruct (Z.eqb_spec (byteZ a) 0x0A) as [E | _];
    [apply byteZ_is in E; subst a; reflexivity | ].
  destruct (Z.eqb_spec (byteZ a) 0x0D) as [E | _];
    [apply byteZ_is in E; subst a; reflexivity | ].
  destruct (Z.eqb_spec (byteZ a) 0x09) as [E | _];
    [apply byteZ_is in E; subst a; reflexivity | ].
  change (json.run (json.mkState (json.InStr key acc None) stk res)
            ("\u00" ++ String (json.hexDigit (byteZ a / 16))
                         (str1 (json.hexDigit (byteZ a mod 16)))))
    with (json.run (json.mkState (json.InHex key acc None 2 0) stk res)
            (String (json.hexDigit (byteZ a / 16))
               (str1 (json.hexDigit (byteZ a mod 16))))).
  unfold str1. cbn [json.run]. unfold json.step at 2.
  cbn [json.mode json.stack json.result].
  rewrite hexVal_hexDigit by dlia. cbn [Nat.eqb].
  unfold json.step. cbn [json.mode json.stack json.result].
  rewrite hexVal_hexDigit by dlia. cbn [Nat.eqb].
  replace ((0 * 16 + byteZ a / 16) * 16 + byteZ a mod 16) with (byteZ a) by dlia.
  unfold json.endHex. ztests. now rewrite EncodeRune_ascii.
Qed.

(** The body of an encoded string is read back as the string, when the
    string is valid UTF-8. *)
Lemma run_quoteFrom (key : bool) (stk : list json.Frame) (res : option json.Value)
      (s : string) :
  forall (k : nat) (acc : string),
    utf8.validFrom k s = true ->
    json.run (json.mkState (json.InStr key acc None) stk res) (json.quoteFrom k s)
    = json.mkState (json.InStr key (acc ++ sdrop k s) None) stk res.
Proof.
  induction s as [|a s IH]; intros k acc Hvalid.
  { destruct k; cbn [json.quoteFrom json.run sdrop]; now rewrite sapp_nil_r. }
  destruct k as [|k]; [ | cbn [json.quoteFrom sdrop]; now apply IH].
  cbn [json.quoteFrom sdrop]. cbn [utf8.validFrom] in Hvalid.
  pose proof (byteZ_range a) as Hr.
  destruct (Z.ltb_spec (byteZ a) utf8.RuneSelf) as [Hlow | Hhigh]; unfold utf8.RuneSelf in *.
  - (* an ASCII byte *)
    rewrite Decode_ascii in Hvalid by exact Hlow.
    apply andb_true_iff in Hvalid. destruct Hvalid as [_ Hvalid]. cbn [Nat.sub] in Hvalid.
    rewrite run_app.
    assert (E : json.run (json.mkState (json.InStr key acc None) stk res)
                  (if json.htmlSafe (byteZ a) then str1 a else json.escapeByte (byteZ a))
                = json.mkState (json.InStr key (acc ++ str1 a) None) stk res).
    { destruct (json.htmlSafe (byteZ a)) eqn:Hsafe; [ | now apply run_escapeByte].
      unfold json.htmlSafe in Hsafe. to_prop. cbn [str1 json.run].
      apply step_InStr_plain; lia. }
    rewrite E, IH by exact Hvalid. cbn [sdrop]. now rewrite sapp_assoc.
  - (* a rune of two bytes or more *)
    pose proof (Decode_width a s) as [[Hw1 _] _].
    assert (Hs : String a s <> EmptyString) by discriminate.
    pose proof (Decode_Encode (String a s) Hs) as Hcanon.
    pose proof (Decode_highBytes a s Hhigh) as Hbytes.
    pose proof (stake_sdrop (snd (utf8.DecodeRuneInString (String a s))) (String a s)) as Hsplit.
    rewrite <- (sdrop_pred _ a s Hw1) in Hsplit.
    destruct (utf8.DecodeRuneInString (String a s)) as [c size]. cbn [fst snd] in *.
    apply andb_true_iff in Hvalid. destruct Hvalid as [Herr Hvalid].
    apply negb_true_iff in Herr. rewrite Herr.
    assert (Hok : ~ (c = utf8.RuneError /\ size = 1%nat)).
    { intros [-> ->]. discriminate Herr. }
    specialize (Hcanon Hok). specialize (Hbytes Hok).
    assert (Hescaped : forall c', c = c' -> c' = 0x2028 \/ c' = 0x2029 ->
              json.run (json.mkState (json.InStr key acc None) stk res)
                (("\u202" ++ String (json.hexDigit (c' mod 16)) (json.quoteFrom (size - 1) s)))
              = json.mkState (json.InStr key (acc ++ String a s) None) stk res).
    { intros c' -> Hc.
      change ("\u202" ++ String (json.hexDigit (c' mod 16)) (json.quoteFrom (size - 1) s))
        with (("\u202" ++ str1 (json.hexDigit (c' mod 16))) ++ json.quoteFrom (size - 1) s).
      rewrite run_app.
      assert (E : json.run (json.mkState (json.InStr key acc None) stk res)
                    ("\u202" ++ str1 (json.hexDigit (c' mod 16)))
                  = json.mkState (json.InStr key (acc ++ utf8.EncodeRune c') None) stk res)
        by (destruct Hc as [-> | ->]; reflexivity).
      rewrite E, IH by exact Hvalid.
      now rewrite <- Hcanon, sapp_assoc, Hsplit. }
    destruct (Z.eqb_spec c 0x2028) as [E28 | N28]; [now apply (Hescaped c); [ | left] | ].
    destruct (Z.eqb_spec c 0x2029) as [E29 | N29]; [now apply (Hescaped c); [ | right] | ].
    cbn [orb].
    rewrite run_app, run_highBytes, IH by assumption.
    now rewrite sapp_assoc, Hsplit.
Qed.

(** A valid string is left as it is. *)
Lemma MapFrom_id_valid (s : string) :
  forall k : nat,
    utf8.validFrom k s = true -> strings.MapFrom (fun r => r) k s = sdrop k s.
Proof.
  induction s as [|a s IH]; intros k Hv; [now destruct k | ].
  destruct k as [|k]; cbn [strings.MapFrom sdrop]; [ | now apply IH].
  cbn [utf8.validFrom] in Hv.
  pose proof (Decode_width a s) as [[Hw1 _] _].
  assert (Hs : String a s <> EmptyString) by discriminate.
  pose proof (Decode_Encode (String a s) Hs) as Hcanon.
  pose proof (Decode_valid (String a s)) as Hc.
  pose proof (stake_sdrop (snd (utf8.DecodeRuneInString (String a s))) (String a s)) as Hsplit.
  rewrite <- (sdrop_pred _ a s Hw1) in Hsplit.
  destruct (utf8.DecodeRuneInString (String a s)) as [c size]. cbn [fst snd] in *.
  apply andb_true_iff in Hv as [Herr Hv]. apply negb_true_iff in Herr.
  assert (Hok : ~ (c = utf8.RuneError /\ size = 1%nat)).
  { intros [-> ->]. discriminate Herr. }
  replace (c <? 0) with false
    by (symmetry; apply Z.ltb_ge; apply ValidRune_iff in Hc; lia).
  rewrite <- (Hcanon Hok), (IH _ Hv). exact Hsplit.
Qed.

Lemma replaceInvalid_valid (s : string) : utf8.ValidString s = true -> replaceInvalid s = s.
Proof. intros Hv. apply (MapFrom_id_valid s 0 Hv). Qed.

(** The body of an encoded string is read back as the string with U+FFFD
    for every byte that is no part of a rune. *)
Lemma run_quoteFrom_any (key : bool) (stk : list json.Frame) (res : option json.Value)
      (s : string) :
  forall (k : nat) (acc : string),
    json.run (json.mkState (json.InStr key acc None) stk res) (json.quoteFrom k s)
    = json.mkState (json.InStr key (acc ++ strings.MapFrom (fun r => r) k s) None) stk res.
Proof.
  induction s as [|a s IH]; intros k acc.
  { destruct k; cbn [json.quoteFrom json.run strings.MapFrom]; now rewrite sapp_nil_r. }
  destruct k as [|k]; [ | cbn [json.quoteFrom strings.MapFrom]; now apply IH].
  cbn [json.quoteFrom strings.MapFrom].
  pose proof (byteZ_range a) as Hr.
  destruct (Z.ltb_spec (byteZ a) utf8.RuneSelf) as [Hlow | Hhigh]; unfold utf8.RuneSelf in *.
  - (* an ASCII byte *)
    rewrite Decode_ascii by exact Hlow. cbn [Nat.sub].
    replace (byteZ a <? 0) with false by (symmetry; apply Z.ltb_ge; lia).
    rewrite EncodeRune_ascii by exact Hlow. rewrite run_app.
    assert (E : json.run (json.mkState (json.InStr key acc None) stk res)
                  (if json.htmlSafe (byteZ a) then str1 a else json.escapeByte (byteZ a))
                = json.mkState (json.InStr key (acc ++ str1 a) None) stk res).
    { destruct (json.htmlSafe (byteZ a)) eqn:Hsafe; [ | now apply run_escapeByte].
      unfold json.htmlSafe in Hsafe. to_prop. cbn [str1 json.run].
      apply step_InStr_plain; lia. }
    rewrite E, IH. now rewrite sapp_assoc.
  - (* an invalid byte, or a rune of two bytes or more *)
    assert (Hs : String a s <> EmptyString) by discriminate.
    pose proof (Decode_Encode (String a s) Hs) as Hcanon.
    pose proof (Decode_highBytes a s Hhigh) as Hbytes.
    pose proof (Decode_valid (String a s)) as Hc.
    destruct (utf8.DecodeRuneInString (String a s)) as [c size]. cbn [fst snd] in *.
    replace (c <? 0) with false
      by (symmetry; apply Z.ltb_ge; apply ValidRune_iff in Hc; lia).
    destruct ((c =? utf8.RuneError) && Nat.eqb size 1) eqn:Herr.
    { to_prop. subst c size. cbn [Nat.sub]. rewrite run_app.
      change (json.run (json.mkState (json.InStr key acc None) stk res) ("\u" ++ "fffd"))
        with (json.mkState (json.InStr key (acc ++ utf8.EncodeRune utf8.RuneError) None)
                stk res).
      rewrite IH. now rewrite sapp_assoc. }
    assert (Hok : ~ (c = utf8.RuneError /\ size = 1%nat)).
    { intros [-> ->]. discriminate Herr. }
    specialize (Hcanon Hok). specialize (Hbytes Hok).
    assert (Hescaped : forall c', c = c' -> c' = 0x2028 \/ c' = 0x2029 ->
              json.run (json.mkState (json.InStr key acc None) stk res)
                (("\u202" ++ String (json.hexDigit (c' mod 16)) (json.quoteFrom (size - 1) s)))
              = json.mkState
                  (json.InStr key
                     (acc ++ utf8.EncodeRune c ++ strings.MapFrom (fun r => r) (size - 1) s)
                     None) stk res).
    { intros c' -> Hc'.
      change ("\u202" ++ String (json.hexDigit (c' mod 16)) (json.quoteFrom (size - 1) s))
        with (("\u202" ++ str1 (json.hexDigit (c' mod 16))) ++ json.quoteFrom (size - 1) s).
      rewrite run_app.
      assert (E : json.run (json.mkState (json.InStr key acc None) stk res)
                    ("\u202" ++ str1 (json.hexDigit (c' mod 16)))
                  = json.mkState (json.InStr key (acc ++ utf8.EncodeRune c') None) stk res)
        by (destruct Hc' as [-> | ->]; reflexivity).
      rewrite E, IH. now rewrite sapp_assoc. }
    destruct (Z.eqb_spec c 0x2028) as [E28 | N28]; [now apply (Hescaped c); [ | left] | ].
    destruct (Z.eqb_spec c 0x2029) as [E29 | N29]; [now apply (Hescaped c); [ | right] | ].
    cbn [orb].
    rewrite run_app, run_highBytes, IH by assumption.
    now rewrite sapp_assoc, Hcanon.
Qed.

(** An encoded string, read where a value is expected. *)
Lemma run_quote_any (m : json.Mode) (stk : list json.Frame) (res : option json.Value)
      (s : string) :
  m = json.Start \/ m = json.ArrOpen ->
  json.run (json.mkState m stk res) (json.quote s)
  = json.deliver (json.Str (replaceInvalid s)) stk res.
Proof.
  intros Hm. unfold json.quote.
  change (String "034" (json.quoteFrom 0 s ++ str1 "034"))
    with (str1 "034" ++ (json.quoteFrom 0 s ++ str1 "034")).
  rewrite !run_app.
  replace (json.run (json.mkState m stk res) (str1 "034"))
    with (json.mkState (json.InStr false EmptyString None) stk res)
    by (destruct Hm as [-> | ->]; reflexivity).
  rewrite run_quoteFrom_any. reflexivity.
Qed.

(** An encoded string, read where a key is expected, is the key of the
    member that follows. *)
Lemma run_quote_key (m : json.Mode) (acc : list (string * json.Value)) (k0 : string)
      (stk : list json.Frame) (res : option json.Value) (k : string) :
  m = json.ObjOpen \/ m = json.Key ->
  utf8.ValidString k = true ->
  json.run (json.mkState m (json.FObj acc k0 :: stk) res) (json.quote k)
  = json.mkState json.Colon (json.FObj acc k :: stk) res.
Proof.
  intros Hm Hvalid. unfold json.quote.
  change (String "034" (json.quoteFrom 0 k ++ str1 "034"))
    with (str1 "034" ++ (json.quoteFrom 0 k ++ str1 "034")).
  rewrite !run_app.
  replace (json.run (json.mkState m (json.FObj acc k0 :: stk) res) (str1 "034"))
    with (json.mkState (json.InStr true EmptyString None) (json.FObj acc k0 :: stk) res)
    by (destruct Hm as [-> | ->]; reflexivity).
  rewrite run_quoteFrom by exact Hvalid. reflexivity.
Qed.

(** The object of one output line is read back with its two texts made
    valid. *)
Lemma run_outputLine (m : json.Mode) (stk : list json.Frame) (res : option json.Value)
      (depth : nat) (o : OutputLine) :
  m = json.Start \/ m = json.ArrOpen ->
  json.run (json.mkState m stk res) (json.indented "    " depth (outputLineValue o))
  = json.deliver (outputLineValue (coercedLine o)) stk res.
Proof.
  intros Hm. unfold outputLineValue, coercedLine. cbn [olLine olStatus].
  cbn [json.indented List.map String.concat].
  rewrite !run_app.
  replace (json.run (json.mkState m stk res) "{")
    with (json.mkState json.ObjOpen (json.FObj [] EmptyString :: stk) res)
    by (destruct Hm as [-> | ->]; reflexivity).
  rewrite run_indent by (unfold between; tauto).
  rewrite run_quote_key by (reflexivity || tauto).
  change (json.run (json.mkState json.Colon (json.FObj [] "line" :: stk) res) ": ")
    with (json.mkState json.Start (json.FObj [] "line" :: stk) res).
  rewrite run_quote_any by tauto.
  cbn [json.deliver app].
  change (json.run (json.mkState json.After
                      (json.FObj [("line", json.Str (replaceInvalid (olLine o)))] "line" :: stk)
                      res) ",")
    with (json.mkState json.Key
            (json.FObj [("line", json.Str (replaceInvalid (olLine o)))] "line" :: stk) res).
  rewrite run_indent by (unfold between; tauto).
  rewrite run_quote_key by (reflexivity || tauto).
  change (json.run (json.mkState json.Colon
                      (json.FObj [("line", json.Str (replaceInvalid (olLine o)))] "status" :: stk)
                      res) ": ")
    with (json.mkState json.Start
            (json.FObj [("line", json.Str (replaceInvalid (olLine o)))] "status" :: stk) res).
  rewrite run_quote_any by tauto.
  cbn [json.deliver app].
  rewrite run_indent by (unfold between; tauto).
  reflexivity.
Qed.

(** The elements of the data array, one after the other. *)
Lemma run_outputLines (stk : list json.Frame) (res : option json.Value) (depth : nat)
      (outs : list OutputLine) :
  forall (m : json.Mode) (acc : list json.Value),
    m = json.Start \/ m = json.ArrOpen ->
    outs <> [] ->
    json.run (json.mkState m (json.FArr acc :: stk) res)
      (String.concat ("," ++ json.newline "    " depth)
         (List.map (json.indented "    " depth) (List.map outputLineValue outs)))
    = json.mkState json.After
        (json.FArr (acc ++ List.map outputLineValue (List.map coercedLine outs))%list :: stk)
        res.
Proof.
  induction outs as [|o outs IH]; intros m acc Hm Hne; [contradiction | ].
  destruct outs as [|o2 outs].
  - cbn [List.map String.concat].
    rewrite run_outputLine by assumption. reflexivity.
  - change (String.concat ("," ++ json.newline "    " depth)
              (List.map (json.indented "    " depth)
                 (List.map outputLineValue (o :: o2 :: outs))))
      with (json.indented "    " depth (outputLineValue o)
            ++ ("," ++ json.newline "    " depth)
            ++ String.concat ("," ++ json.newline "    " depth)
                 (List.map (json.indented "    " depth)
                    (List.map outputLineValue (o2 :: outs)))).
    rewrite !run_app.
    rewrite run_outputLine by assumption.
    cbn [json.deliver].
    change (json.run (json.mkState json.After
                        (json.FArr (acc ++ [outputLineValue (coercedLine o)])%list :: stk)
                        res) ",")
      with (json.mkState json.Start
              (json.FArr (acc ++ [outputLineValue (coercedLine o)])%list :: stk) res).
    rewrite run_indent by (unfold between; tauto).
    rewrite IH by (tauto || discriminate).
    cbn [List.map]. now rewrite <- app_assoc.
Qed.

(** The data array is read back with its texts made valid. *)
Lemma run_data (stk : list json.Frame) (res : option json.Value) (depth : nat)
      (outs : list OutputLine) :
  json.run (json.mkState json.Start stk res)
    (json.indented "    " depth (json.Array (List.map outputLineValue outs)))
  = json.deliver (json.Array (List.map outputLineValue (List.map coercedLine outs))) stk res.
Proof.
  destruct outs as [|o outs]; [reflexivity | ].
  change (json.indented "    " depth (json.Array (List.map outputLineValue (o :: outs))))
    with ("[" ++ json.newline "    " (S depth)
          ++ String.concat ("," ++ json.newline "    " (S depth))
               (List.map (json.indented "    " (S depth))
                  (List.map outputLineValue (o :: outs)))
          ++ json.newline "    " depth ++ "]").
  rewrite !run_app.
  change (json.run (json.mkState json.Start stk res) "[")
    with (json.mkState json.ArrOpen (json.FArr [] :: stk) res).
  rewrite run_indent by (unfold between; tauto).
  rewrite run_outputLines by (tauto || discriminate).
  rewrite run_indent by (unfold between; tauto).
  reflexivity.
Qed.

Lemma indented_document (data : json.Value) :
  json.indented "    " 0
    (json.Object [("code", json.Number 200); ("data", data);
                  ("message", json.Str "success")])
  = documentHead ++ json.indented "    " 1 data ++ documentTail.
Proof.
  unfold documentHead, documentTail.
  cbn [json.indented List.map String.concat].
  rewrite !sapp_assoc. reflexivity.
Qed.

(** The document of an output response is read back with the texts of
    its lines made valid. *)
Lemma Decode_Encode_coerced (outs : list OutputLine) :
  json.Decode (json.Encode "    " (outputValue (mkOutputResponse 200 outs "success")))
  = Some (outputValue (mkOutputResponse 200 (List.map coercedLine outs) "success")).
Proof.
  unfold json.Decode, json.Encode, outputValue.
  cbn [orCode orData orMessage].
  rewrite indented_document, !run_app.
  change (json.run (json.mkState json.Start [] None) documentHead)
    with (json.mkState json.Start [json.FObj [("code", json.Number 200)] "data"] None).
  rewrite run_data.
  reflexivity.
Qed.

(** The document of an output response is read back as it is when its
    texts are valid. *)
Lemma Decode_Encode_output (outs : list OutputLine) :
  Forall validLine outs ->
  json.Decode (json.Encode "    " (outputValue (mkOutputResponse 200 outs "success")))
  = Some (outputValue (mkOutputResponse 200 outs "success")).
Proof.
  intros Hvalid. rewrite Decode_Encode_coerced.
  replace (List.map coercedLine outs) with outs; [reflexivity | ].
  induction Hvalid as [|o outs [Hline Hstatus] _ IH]; [reflexivity | ].
  cbn [List.map]. rewrite <- IH. f_equal.
  unfold coercedLine. rewrite !replaceInvalid_valid by assumption. now destruct o.
Qed.

(** ** The JSON renderer *)

Lemma setAt_middle {A : Type} (pre post : list A) (x v : A) :
  setAt (List.length pre) v (pre ++ x :: post)%list = Some (pre ++ v :: post)%list.
Proof.
  induction pre as [|h pre IH]; [reflexivity | ].
  cbn [List.length app setAt]. now rewrite IH.
Qed.

(** The loop of [printJSON] never leaves its slice, and fills it with the
    formatted name and the normalized status of every line, in order. *)
Lemma fillOutput_map (U : unicode.Tables) (lines : list LineItem) :
  forall pre : list OutputLine,
    fillOutput U lines (List.length pre)
      (pre ++ List.repeat (mkOutputLine EmptyString EmptyString) (List.length lines))%list
    = Some (pre ++ List.map (fun l => mkOutputLine (formatLineName U (Line l))
                                                  (normalizeStatus U (Status l)))
                            lines)%list.
Proof.
  induction lines as [|l lines IH]; intros pre; [reflexivity | ].
  cbn [fillOutput List.length List.repeat List.map].
  rewrite setAt_middle.
  specialize (IH (pre ++ [mkOutputLine (formatLineName U (Line l))
                                       (normalizeStatus U (Status l))])%list).
  rewrite length_app, Nat.add_1_r, <- !app_assoc in IH. exact IH.
Qed.

Lemma printJSON_text (U : unicode.Tables) (lines : list LineItem) :
  printJSON U lines
  = Some (json.Encode "    "
            (outputValue
               (mkOutputResponse 200
                  (List.map (fun l => mkOutputLine (formatLineName U (Line l))
                                                   (normalizeStatus U (Status l)))
                            lines)
                  "success"))).
Proof.
  unfold printJSON.
  pose proof (fillOutput_map U lines []) as H. cbn [List.length app] in H.
  now rewrite H.
Qed.

Lemma outputValue_expected (U : unicode.Tables) (lines : list LineItem) :
  outputValue
    (mkOutputResponse 200
       (List.map (fun l => mkOutputLine (formatLineName U (Line l))
                                        (normalizeStatus U (Status l)))
                 lines)
       "success")
  = expectedDocument U lines.
Proof.
  unfold outputValue, expectedDocument. cbn [orCode orData orMessage].
  now rewrite map_map.
Qed.

(** The decoder of the response leaves no text that is not valid UTF-8. *)
Lemma decodeString_valid (s : string) : utf8.ValidString (decodeString s) = true.
Proof.
  unfold utf8.ValidString, decodeString, strings.Map.
  rewrite <- (sapp_nil_r (strings.MapFrom _ 0 s)). now rewrite MapFrom_valid.
Qed.

Lemma fetched_status_valid (U : unicode.Tables) (x : Exchange) (resp : APIResponse)
      (service : string) (l : LineItem) :
  fetchLineStatuses x = inl resp ->
  In l (filterByService U (apiData resp) service) ->
  utf8.ValidString (Status l) = true.
Proof.
  intros Hfetch Hl.
  assert (Hresp : exists raw, resp = decodeResponse raw).
  { destruct x as [err | statusCode [err | raw]]; cbn [fetchLineStatuses] in Hfetch;
      try discriminate Hfetch;
      destruct (negb (statusCode =? 200)); try discriminate Hfetch.
    injection Hfetch as <-. now exists raw. }
  destruct Hresp as [raw ->].
  rewrite filterByService_selects in Hl.
  apply in_flat_map in Hl as (svc & Hsvc & Hl). apply filter_In in Hsvc as [Hsvc _].
  cbn [decodeResponse apiData] in Hsvc.
  apply in_map_iff in Hsvc as (svc0 & <- & _).
  cbn [decodeServiceData ListItem] in Hl.
  apply in_map_iff in Hl as (l0 & <- & _).
  cbn [decodeLineItem Status]. apply decodeString_valid.
Qed.

(** C2.  For every non-empty list of line items whose status texts are
    valid UTF-8, the JSON renderer writes a document, and decoding it
    yields the code 200, the message [success] and a data array whose
    entries are, in order, the formatted name and the normalized status of
    the source items, the transforms of the table renderer.  These are all
    the lists the renderer is given: the items of the program are those of
    a decoded response that the filter leaves, and their status texts are
    valid UTF-8 whatever the bytes of the body, since the decoder of the
    response makes every string valid. *)
Theorem printJSON_round_trip :
  forall U : unicode.Tables,
    (forall lines : list LineItem,
        lines <> [] ->
        (forall l, In l lines -> utf8.ValidString (Status l) = true) ->
        exists text : string,
          printJSON U lines = Some text
          /\ json.Decode text = Some (expectedDocument U lines)
          /\ json.field "code" (expectedDocument U lines) = Some (json.Number 200)
          /\ json.field "message" (expectedDocument U lines) = Some (json.Str "success")
          /\ json.field "data" (expectedDocument U lines)
             = Some (json.Array
                       (List.map
                          (fun l => json.Object
                                      [("line", json.Str (formatLineName U (Line l)));
                                       ("status", json.Str (normalizeStatus U (Status l)))])
                          lines)))
    /\ (forall (x : Exchange) (resp : APIResponse) (service : string) (l : LineItem),
           fetchLineStatuses x = inl resp ->
           In l (filterByService U (apiData resp) service) ->
           utf8.ValidString (Status l) = true).
Proof.
  intros U. split; [ | apply fetched_status_valid].
  intros lines _ Hvalid.
  eexists. split; [apply printJSON_text | ].
  split; [ | repeat split].
  rewrite Decode_Encode_output; [now rewrite outputValue_expected | ].
  apply Forall_forall. intros o Ho. apply in_map_iff in Ho.
  destruct Ho as (l & <- & Hl). split; cbn [olLine olStatus].
  - apply formatLineName_valid.
  - now apply normalizeStatus_valid, Hvalid.
Qed.

Lemma printJSON_round_trip_witness :
  exists text : string,
    printJSON plainTables
      [mkLineItem "1" "Linha 1-Azul" "" "Operações Normais" "verde" "" "";
       mkLineItem "5" "Linha 5-Lilás" "" " Velocidade <Reduzida> " "amarelo" "" ""]
    = Some text
    /\ json.Decode text
       = Some (json.Object
                 [("code", json.Number 200);
                  ("data",
                   json.Array
                     [json.Object [("line", json.Str "Azul");
                                   ("status", json.Str "Operação Normal")];
                      json.Object [("line", json.Str "Lilás");
                                   ("status", json.Str "Velocidade <Reduzida>")]]);
                  ("message", json.Str "success")]).
Proof.
  destruct (proj1 (printJSON_round_trip plainTables)
              [mkLineItem "1" "Linha 1-Azul" "" "Operações Normais" "verde" "" "";
               mkLineItem "5" "Linha 5-Lilás" "" " Velocidade <Reduzida> " "amarelo" "" ""])
    as (text & Htext & Hdoc & _).
  - discriminate.
  - intros l [<- | [<- | []]]; reflexivity.
  - exists text. split; [exact Htext | exact Hdoc].
Defined.

(** ** Further properties of the transforms *)

(** The text after the last dash, trimmed, is put in title case (the first
    letter in upper case, the rest in lower case) whenever it starts with an
    ASCII byte. *)
Theorem formatLineName_title_case :
  forall (U : unicode.Tables) (line : string) (a : ascii) (rest : string),
    strings.TrimSpace (afterLast "-" line) = String a rest ->
    byteZ a < utf8.RuneSelf ->
    formatLineName U line = titleCase U (strings.TrimSpace (afterLast "-" line)).
Proof.
  intros U line a rest Hname Ha. rewrite Hname.
  now apply formatLineName_ascii_initial.
Qed.

Lemma formatLineName_title_case_witness :
  formatLineName plainTables "Linha 3 - vERMELHA "
  = titleCase plainTables (strings.TrimSpace (afterLast "-" "Linha 3 - vERMELHA "))
  /\ titleCase plainTables (strings.TrimSpace (afterLast "-" "Linha 3 - vERMELHA "))
     = "Vermelha".
Proof.
  split; [ | reflexivity].
  exact (formatLineName_title_case plainTables "Linha 3 - vERMELHA " "v" "ERMELHA"
           eq_refl eq_refl).
Defined.

Lemma afterLastFrom_trailing (sep : ascii) (cur s : string) :
  afterLastFrom sep cur (s ++ str1 sep) = EmptyString.
Proof.
  revert cur; induction s as [|a s IH]; intros cur; cbn [append str1 afterLastFrom].
  - now rewrite Ascii.eqb_refl.
  - destruct (Ascii.eqb a sep); apply IH.
Qed.

(** The two examples of the specification: [Linha 1-Azul] is formatted as
    [Azul], and a label that ends with a dash, or whose text after the last
    dash is white space, is formatted as the empty string. *)
Theorem formatLineName_examples :
  forall U : unicode.Tables,
    formatLineName U "Linha 1-Azul" = "Azul"
    /\ (forall s : string, formatLineName U (s ++ "-") = EmptyString)
    /\ (forall s : string,
           strings.TrimSpace (afterLast "-" s) = EmptyString ->
           formatLineName U s = EmptyString).
Proof.
  intros U. split; [reflexivity | split].
  - intros s. rewrite formatLineName_unfold. unfold afterLast.
    change "-" with (str1 "-") at 1. now rewrite afterLastFrom_trailing.
  - intros s H. now rewrite formatLineName_unfold, H.
Qed.

Lemma formatLineName_examples_witness :
  formatLineName plainTables "Linha 4-   " = EmptyString.
Proof.
  exact (proj2 (proj2 (formatLineName_examples plainTables)) "Linha 4-   " eq_refl).
Defined.

(** A label without a dash is formatted as a whole: the result is that of
    the label with a dash before it, and it is title case when the trimmed
    label starts with an ASCII byte. *)
Theorem formatLineName_no_dash :
  forall (U : unicode.Tables) (s : string),
    contains "-" s = false ->
    afterLast "-" s = s
    /\ formatLineName U s = formatLineName U ("-" ++ s)
    /\ (forall (a : ascii) (rest : string),
           strings.TrimSpace s = String a rest -> byteZ a < utf8.RuneSelf ->
           formatLineName U s = titleCase U (strings.TrimSpace s)).
Proof.
  intros U s Hs.
  assert (E : afterLast "-" s = s) by (unfold afterLast; now rewrite afterLastFrom_no_sep).
  split; [exact E | split].
  - now rewrite !formatLineName_unfold.
  - intros a rest Hname Ha. rewrite Hname.
    apply formatLineName_ascii_initial; [now rewrite E | exact Ha].
Qed.

Lemma formatLineName_no_dash_witness :
  formatLineName plainTables "  cORAL" = titleCase plainTables (strings.TrimSpace "  cORAL")
  /\ titleCase plainTables (strings.TrimSpace "  cORAL") = "Coral".
Proof.
  split; [ | reflexivity].
  exact (proj2 (proj2 (formatLineName_no_dash plainTables "  cORAL" eq_refl))
               "c"%char "ORAL" eq_refl eq_refl).
Defined.

(** ** Case-insensitive comparison of ASCII strings *)

Lemma lor_below_RuneSelf (x y : Z) :
  0 <= x < 128 -> 0 <= y < 128 -> Z.lor x y < 128.
Proof.
  intros Hx Hy.
  assert (H0 : 0 <= Z.lor x y) by (apply Z.lor_nonneg; lia).
  destruct (Z.eq_dec (Z.lor x y) 0) as [E | N]; [lia | ].
  change 128 with (2 ^ 7). apply Z.log2_lt_pow2; [lia | ].
  rewrite Z.log2_lor by lia.
  assert (Hlog : forall z, 0 <= z < 128 -> Z.log2 z < 7).
  { intros z Hz. destruct (Z.eq_dec z 0) as [-> | Nz]; [reflexivity | ].
    apply Z.log2_lt_pow2; [lia | exact (proj2 Hz)]. }
  pose proof (Hlog x Hx). pose proof (Hlog y Hy). lia.
Qed.

Lemma ToLower_ascii_cons (U : unicode.Tables) (a : ascii) (s : string) :
  byteZ a < 0x80 ->
  strings.ToLower U (String a s)
  = String (mkByte (unicode.ToLower U (byteZ a))) (strings.ToLower U s).
Proof.
  intros Ha. pose proof (byteZ_range a) as Hr.
  unfold strings.ToLower, strings.Map. cbn [strings.MapFrom].
  rewrite Decode_ascii by exact Ha. cbn [Nat.sub].
  assert (Hl : 0 <= unicode.ToLower U (byteZ a) <= 0x7F).
  { unfold unicode.ToLower. ztests; lia. }
  replace (unicode.ToLower U (byteZ a) <? 0) with false by (symmetry; apply Z.ltb_ge; lia).
  unfold utf8.EncodeRune.
  replace ((0 <=? unicode.ToLower U (byteZ a)) && (unicode.ToLower U (byteZ a) <=? 127))
    with true by (symmetry; apply andb_true_iff; split; apply Z.leb_le; lia).
  reflexivity.
Qed.

(** On two ASCII bytes the test of [EqualFold] is equality of the lower
    cases. *)
Lemma asciiFold_lower (U : unicode.Tables) (x y : Z) :
  0 <= x < 128 -> 0 <= y < 128 ->
  strings.asciiFold x y = (unicode.ToLower U x =? unicode.ToLower U y).
Proof.
  intros Hx Hy. unfold strings.asciiFold.
  destruct (unicode_ToLower_cases U x) as [[? Ex] | [(? & Ex & ?) | (? & Ex & ?)]];
    [lia | | ];
    (destruct (unicode_ToLower_cases U y) as [[? Ey] | [(? & Ey & ?) | (? & Ey & ?)]];
     [lia | | ]);
    rewrite Ex, Ey;
    destruct (Z.min_spec x y) as [[? ->] | [? ->]], (Z.max_spec x y) as [[? ->] | [? ->]];
    ztests; try reflexivity; lia.
Qed.

Lemma EqualFold_isASCII (U : unicode.Tables) (s t : string) :
  isASCII s = true -> isASCII t = true ->
  strings.EqualFold U s t = String.eqb (strings.ToLower U s) (strings.ToLower U t).
Proof.
  unfold isASCII. revert t. induction s as [|a s IH]; intros [|b t] Hs Ht;
    cbn [list_ascii_of_string forallb] in Hs, Ht; to_prop.
  - reflexivity.
  - rewrite ToLower_ascii_cons by assumption. reflexivity.
  - rewrite ToLower_ascii_cons by assumption. reflexivity.
  - pose proof (byteZ_range a) as Ha. pose proof (byteZ_range b) as Hb.
    rewrite !ToLower_ascii_cons by assumption.
    cbn [strings.EqualFold String.eqb]. unfold utf8.RuneSelf.
    pose proof (lor_below_RuneSelf (byteZ a) (byteZ b)) as Hlor.
    destruct (Z.leb_spec 128 (Z.lor (byteZ a) (byteZ b))); [lia | ].
    rewrite (asciiFold_lower U) by lia. rewrite IH by assumption.
    assert (Hl : forall z, 0 <= z < 128 -> 0 <= unicode.ToLower U z < 256).
    { intros z Hz. unfold unicode.ToLower. ztests; lia. }
    assert (Hla : 0 <= unicode.ToLower U (byteZ a) < 256) by (apply Hl; lia).
    assert (Hlb : 0 <= unicode.ToLower U (byteZ b) < 256) by (apply Hl; lia).
    destruct (Z.eqb_spec (unicode.ToLower U (byteZ a)) (unicode.ToLower U (byteZ b)))
      as [E | N].
    + rewrite E, Ascii.eqb_refl. reflexivity.
    + destruct (Ascii.eqb_spec (mkByte (unicode.ToLower U (byteZ a)))
                               (mkByte (unicode.ToLower U (byteZ b)))) as [E | _];
        [ | reflexivity].
      exfalso. apply N.
      rewrite <- (byteZ_mkByte _ Hla), <- (byteZ_mkByte _ Hlb). now rewrite E.
Qed.

(** [EqualFold] on ASCII strings is equality of the lower-cased strings:
    the comparison of the service argument is case-insensitive. *)
Theorem EqualFold_ascii :
  forall (U : unicode.Tables) (s t : string),
    forallb (fun a => byteZ a <? 0x80) (list_ascii_of_string s) = true ->
    forallb (fun a => byteZ a <? 0x80) (list_ascii_of_string t) = true ->
    strings.EqualFold U s t = String.eqb (strings.ToLower U s) (strings.ToLower U t).
Proof. exact EqualFold_isASCII. Qed.

Lemma EqualFold_ascii_witness :
  strings.EqualFold plainTables "ViaQuatro" "VIAQUATRO"
  = String.eqb (strings.ToLower plainTables "ViaQuatro")
               (strings.ToLower plainTables "VIAQUATRO").
Proof.
  exact (EqualFold_ascii plainTables "ViaQuatro" "VIAQUATRO" eq_refl eq_refl).
Defined.

(** ** Further properties of the renderers and of [main] *)

(** [printJSON] never indexes its slice out of range: it always writes a
    document. *)
Theorem printJSON_writes :
  forall (U : unicode.Tables) (lines : list LineItem),
    exists text : string, printJSON U lines = Some text.
Proof. intros U lines. eexists. apply printJSON_text. Qed.

Lemma rows_loop (f : LineItem -> string) (lines : list LineItem) (out : string) :
  fold_left (fun out line => out ++ f line) lines out
  = out ++ fold_right (fun line rest => f line ++ rest) EmptyString lines.
Proof.
  revert out; induction lines as [|l lines IH]; intros out; cbn [fold_left fold_right].
  - now rewrite sapp_nil_r.
  - now rewrite IH, sapp_assoc.
Qed.

(** Help, version and copyright: an invocation with one of these flags and
    no unknown flag writes to standard output only, exits with code 0 and
    issues no HTTP request, whatever its other arguments. *)
Theorem informational_exits_0 :
  forall (U : unicode.Tables) (osArgs : list string) (x : Exchange) (w : Sink),
    (forall a, In a osArgs -> unknownFlag a = false) ->
    (exists a, In a osArgs /\ informational a = true) ->
    exitCode (main U osArgs x w) = 0
    /\ stderr (main U osArgs x w) = EmptyString
    /\ stdout (main U osArgs x w) <> EmptyString
    /\ requested (main U osArgs x w) = false.
Proof.
  intros U osArgs x w Hknown [a [Hin Hinfo]]. unfold main.
  destruct (parseArgs osArgs (mkFlags false false false false [])) as [f | b] eqn:Hparse.
  - destruct (parseArgs_inl _ _ _ Hparse) as (_ & Hh & Hv & Hc & _). simpl in Hh, Hv, Hc.
    assert (Hany : showHelp f = true \/ showVersion f = true \/ showCopyright f = true).
    { rewrite Hh, Hv, Hc. unfold informational in Hinfo.
      apply orb_true_iff in Hinfo. destruct Hinfo as [Hinfo | Hinfo];
        [apply orb_true_iff in Hinfo; destruct Hinfo as [Hinfo | Hinfo] | ].
      - right; left. apply existsb_exists. now exists a.
      - right; right. apply existsb_exists. now exists a.
      - left. apply existsb_exists. now exists a. }
    destruct (showHelp f); [repeat split; discriminate | ].
    destruct (showVersion f); [repeat split; discriminate | ].
    destruct (showCopyright f); [repeat split; discriminate | ].
    destruct Hany as [H | [H | H]]; discriminate H.
  - apply parseArgs_inr in Hparse. destruct Hparse as [Hb Hu].
    rewrite (Hknown b Hb) in Hu. discriminate Hu.
Qed.

Lemma informational_exits_0_witness :
  exitCode (main plainTables ["cptm"; "-j"; "--version"] (RequestFailed "unreachable") Accepting)
  = 0.
Proof.
  refine (proj1 (informational_exits_0 plainTables ["cptm"; "-j"; "--version"]
                   (RequestFailed "unreachable") Accepting _ _)).
  - intros a [<- | [<- | [<- | []]]]; reflexivity.
  - exists "--version". split; [right; right; now left | reflexivity].
Defined.


(** ** The run of [main] *)

(** Without an unknown flag the argument loop runs to its end. *)
Lemma parseArgs_known (osArgs : list string) (f : Flags) :
  (forall a, In a osArgs -> unknownFlag a = false) ->
  parseArgs osArgs f
  = inl (mkFlags (jsonOutput f || existsb isJSONFlag osArgs)
                 (showVersion f || existsb isVersionFlag osArgs)
                 (showCopyright f || existsb isCopyrightFlag osArgs)
                 (showHelp f || existsb isHelpFlag osArgs)
                 (args f ++ positionals osArgs)).
Proof.
  intros Hknown.
  destruct (parseArgs osArgs f) as [f' | a] eqn:Hparse.
  - destruct (parseArgs_inl _ _ _ Hparse) as (Ha & Hh & Hv & Hc & Hj).
    destruct f' as [j' v' c' h' a'].
    cbn [args showHelp showVersion showCopyright jsonOutput] in Ha, Hh, Hv, Hc, Hj.
    now subst.
  - apply parseArgs_inr in Hparse as [Hin Hu].
    rewrite (Hknown a Hin) in Hu. discriminate Hu.
Qed.

(** The loop stops at the first unknown flag. *)
Lemma parseArgs_first_unknown (pre post : list string) (a : string) (f : Flags) :
  (forall b, In b pre -> unknownFlag b = false) ->
  unknownFlag a = true ->
  parseArgs (pre ++ a :: post) f = inr a.
Proof.
  intros Hpre Ha. revert f. induction pre as [|b pre IH]; intros f.
  - cbn [app]. rewrite parseArgs_cons.
    unfold unknownFlag, recognizedFlag in Ha.
    apply andb_true_iff in Ha as [Hp Hr]. apply negb_true_iff in Hr.
    apply orb_false_iff in Hr as [Hr Hh]. apply orb_false_iff in Hr as [Hr Hc].
    apply orb_false_iff in Hr as [Hj Hv].
    now rewrite Hj, Hv, Hc, Hh, Hp.
  - assert (Hb : unknownFlag b = false) by (apply Hpre; now left).
    assert (Hrest : forall c, In c pre -> unknownFlag c = false)
      by (intros c Hc; apply Hpre; now right).
    cbn [app]. rewrite parseArgs_cons.
    destruct (isJSONFlag b) eqn:Ej; [now apply IH | ].
    destruct (isVersionFlag b) eqn:Ev; [now apply IH | ].
    destruct (isCopyrightFlag b) eqn:Ec; [now apply IH | ].
    destruct (isHelpFlag b) eqn:Eh; [now apply IH | ].
    destruct (strings.HasPrefix b "-") eqn:Ep; [ | now apply IH].
    unfold unknownFlag, recognizedFlag in Hb.
    now rewrite Ep, Ej, Ev, Ec, Eh in Hb.
Qed.

Lemma proceeds_iff (U : unicode.Tables) (osArgs : list string) :
  proceeds U osArgs = true
  <-> (forall a, In a osArgs -> unknownFlag a = false)
      /\ (forall a, In a osArgs -> informational a = false)
      /\ match positionals osArgs with
         | [] => True
         | service :: _ => isValidService U service = true
         end.
Proof.
  unfold proceeds. rewrite andb_true_iff, forallb_forall. split.
  - intros [Hall Hservice]. repeat split.
    + intros a Ha. specialize (Hall a Ha). apply andb_true_iff in Hall as [H _].
      now apply negb_true_iff in H.
    + intros a Ha. specialize (Hall a Ha). apply andb_true_iff in Hall as [_ H].
      now apply negb_true_iff in H.
    + now destruct (positionals osArgs).
  - intros (Hu & Hi & Hservice). split.
    + intros a Ha. now rewrite (Hu a Ha), (Hi a Ha).
    + now destruct (positionals osArgs).
Qed.

(** The flags of an invocation that has none of the help, version and
    copyright flags. *)
Lemma no_informational (osArgs : list string) :
  (forall a, In a osArgs -> informational a = false) ->
  existsb isHelpFlag osArgs = false
  /\ existsb isVersionFlag osArgs = false
  /\ existsb isCopyrightFlag osArgs = false.
Proof.
  intros Hinfo. repeat split;
    apply (existsb_none _ informational);
    try exact Hinfo; intros a E; now apply informational_flags in E.
Qed.

(** What [main] does once the arguments are accepted. *)
Lemma main_proceeds (U : unicode.Tables) (osArgs : list string) (x : Exchange) (w : Sink) :
  proceeds U osArgs = true ->
  main U osArgs x w
  = match fetchLineStatuses x with
    | inr err => failure ("Error: " ++ err) true
    | inl apiResp =>
      if apiStatus apiResp then
        match filterByService U (apiData apiResp) (requestedService osArgs) with
        | [] => failure "No lines found" true
        | line :: rest =>
          if existsb isJSONFlag osArgs then
            match w with
            | Accepting =>
              mkRun (LF ++ json.Encode "    " (expectedDocument U (line :: rest)))
                    EmptyString 0 true
            | Failing err =>
              mkRun (LF ++ json.Encode "    " (expectedDocument U (line :: rest)))
                    ("Error encoding JSON: " ++ err ++ LF) 1 true
            end
          else mkRun (LF ++ printTable U (line :: rest)) EmptyString 0 true
        end
      else failure "Error: API returned unsuccessful status" true
    end.
Proof.
  intros H. apply proceeds_iff in H as (Hu & Hi & Hservice).
  destruct (no_informational osArgs Hi) as (Hh & Hv & Hc).
  unfold main, requestedService.
  rewrite (parseArgs_known _ _ Hu).
  cbn [showHelp showVersion showCopyright jsonOutput args app orb].
  rewrite Hh, Hv, Hc.
  destruct (fetchLineStatuses x) as [resp | err].
  - destruct (positionals osArgs) as [|service others].
    + destruct (apiStatus resp); [ | reflexivity]. cbn [negb].
      destruct (filterByService U (apiData resp) EmptyString) as [|line rest];
        [reflexivity | ].
      rewrite printJSON_text, outputValue_expected. reflexivity.
    + rewrite Hservice. cbn [negb].
      destruct (apiStatus resp); [ | reflexivity]. cbn [negb].
      destruct (filterByService U (apiData resp) service) as [|line rest];
        [reflexivity | ].
      rewrite printJSON_text, outputValue_expected. reflexivity.
  - destruct (positionals osArgs) as [|service others]; [reflexivity | ].
    rewrite Hservice. reflexivity.
Qed.

(** A successful run: a blank line and then the table, or the document
    that [printJSON] writes when the JSON flag is given and standard
    output takes it, on standard output; nothing on standard error; exit
    code 0. *)
Theorem main_success :
  forall (U : unicode.Tables) (osArgs : list string) (x : Exchange) (w : Sink)
         (resp : APIResponse),
    proceeds U osArgs = true ->
    fetchLineStatuses x = inl resp ->
    apiStatus resp = true ->
    filterByService U (apiData resp) (requestedService osArgs) <> [] ->
    (existsb isJSONFlag osArgs = true -> w = Accepting) ->
    exists out : string,
      (if existsb isJSONFlag osArgs
       then printJSON U (filterByService U (apiData resp) (requestedService osArgs))
            = Some out
       else out
            = printTable U (filterByService U (apiData resp) (requestedService osArgs)))
      /\ main U osArgs x w = mkRun (LF ++ out) EmptyString 0 true.
Proof.
  intros U osArgs x w resp Hp Hfetch Hstatus Hlines Hw.
  rewrite (main_proceeds U osArgs x w Hp), Hfetch, Hstatus.
  destruct (filterByService U (apiData resp) (requestedService osArgs)) as [|line rest];
    [contradiction | ].
  destruct (existsb isJSONFlag osArgs).
  - rewrite (Hw eq_refl). eexists. split; [ | reflexivity].
    now rewrite printJSON_text, outputValue_expected.
  - eexists. split; reflexivity.
Qed.

Lemma main_success_witness :
  main plainTables ["Metro"]
    (Responded 200
       (Decoded
          (mkAPIResponse true
             [mkServiceData
                [mkLineItem "1" "Linha 1-Azul" "" "Operações Normais" "verde" "" ""]
                "" "metro";
              mkServiceData
                [mkLineItem "7" "Linha 7-Rubi" "" "Operação Parcial" "amarelo" "" ""]
                "" "cptm"])))
    (Failing "broken pipe")
  = mkRun (LF ++ colorBold ++ "Linha  Status" ++ colorReset ++ LF
           ++ "---------------------------" ++ LF
           ++ "Azul   " ++ colorGreen ++ "Operação Normal" ++ colorReset ++ LF)
          EmptyString 0 true.
Proof.
  destruct (main_success plainTables ["Metro"]
              (Responded 200
                 (Decoded
                    (mkAPIResponse true
                       [mkServiceData
                          [mkLineItem "1" "Linha 1-Azul" "" "Operações Normais" "verde" "" ""]
                          "" "metro";
                        mkServiceData
                          [mkLineItem "7" "Linha 7-Rubi" "" "Operação Parcial" "amarelo" "" ""]
                          "" "cptm"])))
              (Failing "broken pipe")
              (mkAPIResponse true
                 [mkServiceData
                    [mkLineItem "1" "Linha 1-Azul" "" "Operações Normais" "verde" "" ""]
                    "" "metro";
                  mkServiceData
                    [mkLineItem "7" "Linha 7-Rubi" "" "Operação Parcial" "amarelo" "" ""]
                    "" "cptm"])
              eq_refl eq_refl eq_refl ltac:(discriminate) ltac:(discriminate))
    as (out & Hout & Hmain).
  cbn [existsb isJSONFlag String.eqb Ascii.eqb Bool.eqb orb] in Hout.
  rewrite Hmain, Hout. reflexivity.
Defined.

(** The HTTP request is issued exactly when the arguments are accepted:
    no unknown flag, no help, version or copyright flag, and no service
    argument that is not a valid service. *)
Theorem request_issued_iff_proceeds :
  forall (U : unicode.Tables) (osArgs : list string) (x : Exchange) (w : Sink),
    requested (main U osArgs x w) = proceeds U osArgs.
Proof.
  intros U osArgs x w.
  destruct (proceeds U osArgs) eqn:Hp.
  - rewrite (main_proceeds U osArgs x w Hp).
    destruct (fetchLineStatuses x) as [resp | err]; [ | reflexivity].
    destruct (apiStatus resp); [ | reflexivity].
    destruct (filterByService U (apiData resp) (requestedService osArgs));
      [reflexivity | ].
    now destruct (existsb isJSONFlag osArgs), w.
  - unfold main.
    destruct (parseArgs osArgs (mkFlags false false false false [])) as [f | a] eqn:Hparse;
      [ | reflexivity].
    destruct (parseArgs_inl _ _ _ Hparse) as (Ha & Hh & Hv & Hc & _).
    cbn [args showHelp showVersion showCopyright orb app] in Ha, Hh, Hv, Hc.
    destruct (showHelp f) eqn:Eh; [reflexivity | ].
    destruct (showVersion f) eqn:Ev; [reflexivity | ].
    destruct (showCopyright f) eqn:Ec; [reflexivity | ].
    rewrite Ha.
    assert (Hvalid : match positionals osArgs with
                     | [] => true
                     | service :: _ => isValidService U service
                     end = false).
    { unfold proceeds in Hp. apply andb_false_iff in Hp as [Hall | Hs]; [ | exact Hs].
      exfalso.
      assert (Hnone : forallb (fun a => negb (unknownFlag a) && negb (informational a))
                        osArgs = true); [ | congruence].
      apply forallb_forall. intros a Hin. apply andb_true_iff. split; apply negb_true_iff.
      - destruct (unknownFlag a) eqn:Hu; [ | reflexivity].
        destruct (parseArgs_unknown osArgs (mkFlags false false false false [])) as [b Hb];
          [now exists a | congruence].
      - unfold informational.
        assert (Hn : forall p, existsb p osArgs = false -> p a = false).
        { intros p Hex. destruct (p a) eqn:Epa; [ | reflexivity].
          rewrite <- Hex. symmetry. apply existsb_exists. now exists a. }
        rewrite (Hn isVersionFlag), (Hn isCopyrightFlag), (Hn isHelpFlag);
          first [reflexivity | congruence]. }
    destruct (positionals osArgs) as [|service others]; [discriminate Hvalid | ].
    now rewrite Hvalid.
Qed.

(** The failures after the request, each with its message: the request
    fails, the status code is not 200 (whatever the body), the body is
    not the JSON expected, the response reports no success, or no line is
    left by the filter.  Each exits with code 1 and writes nothing to
    standard output. *)
Theorem request_failures :
  forall (U : unicode.Tables) (osArgs : list string) (w : Sink),
    proceeds U osArgs = true ->
    (forall err,
        main U osArgs (RequestFailed err) w
        = failure ("Error: failed to fetch data: " ++ err) true)
    /\ (forall statusCode body,
           statusCode <> 200 ->
           main U osArgs (Responded statusCode body) w
           = failure ("Error: API returned status " ++ fmt.Itoa statusCode) true)
    /\ (forall err,
           main U osArgs (Responded 200 (Malformed err)) w
           = failure ("Error: failed to parse response: " ++ err) true)
    /\ (forall resp,
           apiStatus resp = false ->
           main U osArgs (Responded 200 (Decoded resp)) w
           = failure "Error: API returned unsuccessful status" true)
    /\ (forall resp,
           apiStatus resp = true ->
           filterByService U (apiData (decodeResponse resp)) (requestedService osArgs) = [] ->
           main U osArgs (Responded 200 (Decoded resp)) w = failure "No lines found" true).
Proof.
  intros U osArgs w Hp. repeat split; intros; rewrite (main_proceeds U osArgs _ w Hp).
  - reflexivity.
  - cbn [fetchLineStatuses].
    destruct (Z.eqb_spec statusCode 200) as [E | _]; [contradiction | reflexivity].
  - reflexivity.
  - cbn [fetchLineStatuses Z.eqb Pos.eqb negb decodeResponse apiStatus]. now rewrite H.
  - cbn [fetchLineStatuses Z.eqb Pos.eqb negb].
    change (apiStatus (decodeResponse resp)) with (apiStatus resp). now rewrite H, H0.
Qed.

Lemma request_failures_witness :
  main plainTables ["cptm"; "--json"]
    (Responded 503 (Malformed "unexpected end of JSON input")) Accepting
  = failure "Error: API returned status 503" true.
Proof.
  refine (proj1 (proj2 (request_failures plainTables ["cptm"; "--json"] Accepting eq_refl))
                503 (Malformed "unexpected end of JSON input") _).
  discriminate.
Defined.

(** The first unknown flag, in the order of the arguments, ends the run,
    whatever stands before and after it: the message names it, and no
    help, version or copyright text is written. *)
Theorem first_unknown_flag_reported :
  forall (U : unicode.Tables) (pre post : list string) (a : string) (x : Exchange)
         (w : Sink),
    (forall b, In b pre -> unknownFlag b = false) ->
    unknownFlag a = true ->
    main U (pre ++ a :: post) x w
    = failure ("Error: unknown flag '" ++ a ++ "'" ++ LF
               ++ "Use 'tpsp --help' for usage information") false.
Proof.
  intros U pre post a x w Hpre Ha. unfold main.
  rewrite (parseArgs_first_unknown pre post a _ Hpre Ha).
  unfold failure. f_equal. now rewrite !sapp_assoc.
Qed.

Lemma first_unknown_flag_reported_witness :
  main plainTables ["--help"; "metro"; "-x"; "--verbose"] (RequestFailed "unreachable")
    Accepting
  = failure ("Error: unknown flag '-x'" ++ LF
             ++ "Use 'tpsp --help' for usage information") false.
Proof.
  refine (first_unknown_flag_reported plainTables ["--help"; "metro"] ["--verbose"] "-x"
            (RequestFailed "unreachable") Accepting _ eq_refl).
  intros b [<- | [<- | []]]; reflexivity.
Defined.

(** Help goes before version and version before copyright: with no
    unknown flag, the usage text is written when a help flag is given,
    else the version when a version flag is given, else the copyright
    text when the copyright flag is given, whatever the other arguments. *)
Theorem informational_precedence :
  forall (U : unicode.Tables) (osArgs : list string) (x : Exchange) (w : Sink),
    (forall a, In a osArgs -> unknownFlag a = false) ->
    (existsb isHelpFlag osArgs = true ->
     main U osArgs x w = mkRun printUsage EmptyString 0 false)
    /\ (existsb isHelpFlag osArgs = false ->
        existsb isVersionFlag osArgs = true ->
        main U osArgs x w = mkRun ("tpsp (2.0.0)" ++ LF) EmptyString 0 false)
    /\ (existsb isHelpFlag osArgs = false ->
        existsb isVersionFlag osArgs = false ->
        existsb isCopyrightFlag osArgs = true ->
        main U osArgs x w = mkRun (copyrightInfo ++ LF) EmptyString 0 false).
Proof.
  intros U osArgs x w Hknown. unfold main. rewrite (parseArgs_known _ _ Hknown).
  cbn [showHelp showVersion showCopyright orb].
  repeat split.
  - now intros ->.
  - now intros -> ->.
  - now intros -> -> ->.
Qed.

Lemma informational_precedence_witness :
  main plainTables ["--copyright"; "-v"; "bogus"; "-h"] (RequestFailed "unreachable") Accepting
  = mkRun printUsage EmptyString 0 false
  /\ main plainTables ["--copyright"; "-v"; "bogus"] (RequestFailed "unreachable") Accepting
     = mkRun ("tpsp (2.0.0)" ++ LF) EmptyString 0 false.
Proof.
  split.
  - refine (proj1 (informational_precedence plainTables ["--copyright"; "-v"; "bogus"; "-h"]
                     (RequestFailed "unreachable") Accepting _) eq_refl).
    intros a [<- | [<- | [<- | [<- | []]]]]; reflexivity.
  - refine (proj1 (proj2 (informational_precedence plainTables ["--copyright"; "-v"; "bogus"]
                            (RequestFailed "unreachable") Accepting _)) eq_refl eq_refl).
    intros a [<- | [<- | [<- | []]]]; reflexivity.
Defined.

(** A run depends on the arguments only through the flags that occur and
    the first positional argument: the order of the arguments, repeated
    flags and further positional arguments change nothing. *)
Theorem main_determined_by_flags :
  forall (U : unicode.Tables) (osArgs osArgs' : list string) (x : Exchange) (w : Sink),
    (forall a, In a osArgs -> unknownFlag a = false) ->
    (forall a, In a osArgs' -> unknownFlag a = false) ->
    existsb isJSONFlag osArgs = existsb isJSONFlag osArgs' ->
    existsb isVersionFlag osArgs = existsb isVersionFlag osArgs' ->
    existsb isCopyrightFlag osArgs = existsb isCopyrightFlag osArgs' ->
    existsb isHelpFlag osArgs = existsb isHelpFlag osArgs' ->
    serviceArgument osArgs = serviceArgument osArgs' ->
    main U osArgs x w = main U osArgs' x w.
Proof.
  intros U osArgs osArgs' x w Hk Hk' Hj Hv Hc Hh Hs. unfold main.
  rewrite (parseArgs_known _ _ Hk), (parseArgs_known _ _ Hk').
  cbn [showHelp showVersion showCopyright jsonOutput args orb app].
  rewrite Hj, Hv, Hc, Hh. unfold serviceArgument in Hs.
  destruct (positionals osArgs) as [|s rest], (positionals osArgs') as [|s' rest'];
    try discriminate Hs; [reflexivity | ].
  injection Hs as ->. reflexivity.
Qed.

Lemma main_determined_by_flags_witness :
  main plainTables ["--json"; "cptm"; "metro"; "-j"] (RequestFailed "unreachable") Accepting
  = main plainTables ["cptm"; "-j"] (RequestFailed "unreachable") Accepting.
Proof.
  refine (main_determined_by_flags plainTables ["--json"; "cptm"; "metro"; "-j"] ["cptm"; "-j"]
            (RequestFailed "unreachable") Accepting _ _
            eq_refl eq_refl eq_refl eq_refl eq_refl).
  - intros a [<- | [<- | [<- | [<- | []]]]]; reflexivity.
  - intros a [<- | [<- | []]]; reflexivity.
Defined.

(** The argument loop treats the JSON flag apart from the rest: started
    from flags that differ in [jsonOutput] only, it stops at the same
    unknown flag or ends with flags that differ in [jsonOutput] only. *)
Lemma parseArgs_json (osArgs : list string) (f f' : Flags) :
  showVersion f = showVersion f' -> showCopyright f = showCopyright f' ->
  showHelp f = showHelp f' -> args f = args f' ->
  match parseArgs osArgs f, parseArgs osArgs f' with
  | inl g, inl g' =>
    showVersion g = showVersion g' /\ showCopyright g = showCopyright g'
    /\ showHelp g = showHelp g' /\ args g = args g'
  | inr a, inr a' => a = a'
  | _, _ => False
  end.
Proof.
  revert f f'. induction osArgs as [|arg rest IH]; intros f f' Hv Hc Hh Ha.
  - cbn [parseArgs]. tauto.
  - rewrite !parseArgs_cons.
    destruct (isJSONFlag arg); [now apply IH | ].
    destruct (isVersionFlag arg); [now apply IH | ].
    destruct (isCopyrightFlag arg); [now apply IH | ].
    destruct (isHelpFlag arg); [now apply IH | ].
    destruct (strings.HasPrefix arg "-"); [reflexivity | ].
    apply IH; cbn [showVersion showCopyright showHelp args]; congruence.
Qed.

Lemma parseArgs_json_inserted (pre post : list string) (j : string) (f : Flags) :
  isJSONFlag j = true ->
  match parseArgs (pre ++ j :: post) f, parseArgs (pre ++ post) f with
  | inl g, inl g' =>
    showVersion g = showVersion g' /\ showCopyright g = showCopyright g'
    /\ showHelp g = showHelp g' /\ args g = args g'
  | inr a, inr a' => a = a'
  | _, _ => False
  end.
Proof.
  intros Hj. revert f. induction pre as [|arg pre IH]; intros f.
  - cbn [app]. rewrite (parseArgs_cons j), Hj. now apply parseArgs_json.
  - cbn [app]. rewrite !parseArgs_cons.
    destruct (isJSONFlag arg); [apply IH | ].
    destruct (isVersionFlag arg); [apply IH | ].
    destruct (isCopyrightFlag arg); [apply IH | ].
    destruct (isHelpFlag arg); [apply IH | ].
    destruct (strings.HasPrefix arg "-"); [reflexivity | apply IH].
Qed.

(** The JSON flag changes what is written to standard output and, as
    long as standard output takes the document, nothing else: with the
    flag added anywhere among the arguments the request is issued or not
    as without it, and when the write of the document succeeds the exit
    code and the text on standard error are what they are without it. *)
Theorem json_flag_changes_stdout_only :
  forall (U : unicode.Tables) (pre post : list string) (j : string) (x : Exchange)
         (w : Sink),
    isJSONFlag j = true ->
    requested (main U (pre ++ j :: post) x w) = requested (main U (pre ++ post) x w)
    /\ (w = Accepting ->
        exitCode (main U (pre ++ j :: post) x w) = exitCode (main U (pre ++ post) x w)
        /\ stderr (main U (pre ++ j :: post) x w) = stderr (main U (pre ++ post) x w)).
Proof.
  intros U pre post j x w Hj. unfold main.
  pose proof (parseArgs_json_inserted pre post j (mkFlags false false false false []) Hj) as H.
  destruct (parseArgs (pre ++ j :: post) _) as [g | a], (parseArgs (pre ++ post) _) as [g' | a'];
    try contradiction.
  - destruct H as (Hv & Hc & Hh & Ha). rewrite Hv, Hc, Hh, Ha.
    destruct (showHelp g'); [repeat split | ].
    destruct (showVersion g'); [repeat split | ].
    destruct (showCopyright g'); [repeat split | ].
    match goal with
    | |- context [if ?c then mkRun _ _ 1 false else _] => destruct c; [repeat split | ]
    end.
    destruct (fetchLineStatuses x) as [resp | err]; [ | repeat split].
    destruct (negb (apiStatus resp)); [repeat split | ].
    destruct (filterByService U (apiData resp) _) as [|line rest]; [repeat split | ].
    rewrite printJSON_text.
    split; [now destruct (jsonOutput g), (jsonOutput g'), w | ].
    intros ->. now destruct (jsonOutput g), (jsonOutput g').
  - subst a'. repeat split.
Qed.

Lemma json_flag_changes_stdout_only_witness :
  exitCode
    (main plainTables ["metro"; "--json"]
       (Responded 200
          (Decoded
             (mkAPIResponse true
                [mkServiceData [mkLineItem "1" "Linha 1-Azul" "" "Operação Normal" "verde" "" ""]
                               "" "metro"])))
       Accepting)
  = exitCode
      (main plainTables ["metro"]
         (Responded 200
            (Decoded
               (mkAPIResponse true
                  [mkServiceData
                     [mkLineItem "1" "Linha 1-Azul" "" "Operação Normal" "verde" "" ""]
                     "" "metro"])))
         Accepting)
  /\ stdout
       (main plainTables ["metro"; "--json"]
          (Responded 200
             (Decoded
                (mkAPIResponse true
                   [mkServiceData
                      [mkLineItem "1" "Linha 1-Azul" "" "Operação Normal" "verde" "" ""]
                      "" "metro"])))
          Accepting)
     <> stdout
          (main plainTables ["metro"]
             (Responded 200
                (Decoded
                   (mkAPIResponse true
                      [mkServiceData
                         [mkLineItem "1" "Linha 1-Azul" "" "Operação Normal" "verde" "" ""]
                         "" "metro"])))
             Accepting).
Proof.
  split.
  - exact (proj1 (proj2 (json_flag_changes_stdout_only plainTables ["metro"] [] "--json"
                           (Responded 200
                              (Decoded
                                 (mkAPIResponse true
                                    [mkServiceData
                                       [mkLineItem "1" "Linha 1-Azul" "" "Operação Normal"
                                                   "verde" "" ""]
                                       "" "metro"])))
                           Accepting eq_refl) eq_refl)).
  - intros H. vm_compute in H. discriminate H.
Defined.

(** A service argument that is no valid service is named on standard
    error together with the valid services, when no flag ends the run
    before; further positional arguments are not looked at. *)
Theorem invalid_service_reported :
  forall (U : unicode.Tables) (osArgs : list string) (x : Exchange) (w : Sink)
         (service : string),
    (forall a, In a osArgs -> unknownFlag a = false) ->
    (forall a, In a osArgs -> informational a = false) ->
    serviceArgument osArgs = Some service ->
    isValidService U service = false ->
    main U osArgs x w
    = failure ("Error: invalid service '" ++ service ++ "'" ++ LF
               ++ "Valid services: metro, cptm, viamobilidade, viaquatro") false.
Proof.
  intros U osArgs x w service Hu Hi Hs Hinvalid.
  destruct (no_informational osArgs Hi) as (Hh & Hv & Hc).
  unfold main. rewrite (parseArgs_known _ _ Hu).
  cbn [showHelp showVersion showCopyright jsonOutput args app orb].
  rewrite Hh, Hv, Hc. unfold serviceArgument in Hs.
  destruct (positionals osArgs) as [|s others]; [discriminate Hs | ].
  injection Hs as ->. rewrite Hinvalid. cbn [negb].
  unfold failure. f_equal. now rewrite !sapp_assoc.
Qed.

Lemma invalid_service_reported_witness :
  main plainTables ["-j"; "onibus"; "metro"] (RequestFailed "unreachable") Accepting
  = failure ("Error: invalid service 'onibus'" ++ LF
             ++ "Valid services: metro, cptm, viamobilidade, viaquatro") false.
Proof.
  refine (invalid_service_reported plainTables ["-j"; "onibus"; "metro"]
            (RequestFailed "unreachable") Accepting "onibus" _ _ eq_refl eq_refl).
  - intros a [<- | [<- | [<- | []]]]; reflexivity.
  - intros a [<- | [<- | [<- | []]]]; reflexivity.
Defined.

(** ** The valid services *)

(** A service argument of ASCII bytes is valid exactly when its lower
    case is one of the four service names: the names are accepted in any
    letter case, and nothing else is. *)
Theorem isValidService_ascii :
  forall (U : unicode.Tables) (service : string),
    isASCII service = true ->
    (isValidService U service = true <-> In (strings.ToLower U service) validServices).
Proof.
  intros U service Hascii.
  assert (Hfold : forall name,
             isASCII name = true -> strings.ToLower U name = name ->
             strings.EqualFold U name service = String.eqb name (strings.ToLower U service)).
  { intros name Hname Hlower. rewrite EqualFold_isASCII by assumption. now rewrite Hlower. }
  unfold isValidService, validServices. cbn [isValidService_in In].
  rewrite !Hfold by reflexivity.
  repeat match goal with
         | |- context [String.eqb ?n (strings.ToLower U service)] =>
           destruct (String.eqb_spec n (strings.ToLower U service))
         end; split; try tauto; discriminate.
Qed.

Lemma isValidService_ascii_witness :
  isValidService plainTables "ViaMobilidade" = true
  /\ isValidService plainTables "metro " = false.
Proof.
  split.
  - apply (proj2 (isValidService_ascii plainTables "ViaMobilidade" eq_refl)).
    right; right; now left.
  - destruct (isValidService plainTables "metro ") eqn:E; [ | reflexivity].
    apply (proj1 (isValidService_ascii plainTables "metro " eq_refl)) in E.
    cbn in E. repeat (destruct E as [E | E]; [discriminate E | ]). destruct E.
Defined.

(** ** The label before the last dash *)

Lemma afterLastFrom_app (sep : ascii) (cur before after : string) :
  afterLastFrom sep cur (before ++ String sep after) = afterLastFrom sep EmptyString after.
Proof.
  revert cur; induction before as [|a before IH]; intros cur; cbn [append afterLastFrom].
  - now rewrite Ascii.eqb_refl.
  - destruct (Ascii.eqb a sep); apply IH.
Qed.

(** Only the text after the last dash counts: whatever stands before it,
    dashes included, the label is formatted as that text alone is. *)
Theorem formatLineName_last_piece :
  forall (U : unicode.Tables) (before after : string),
    contains "-" after = false ->
    formatLineName U (before ++ "-" ++ after) = formatLineName U after.
Proof.
  intros U before after Hafter. rewrite !formatLineName_unfold. unfold afterLast.
  change ("-" ++ after) with (String "-" after).
  rewrite afterLastFrom_app, !afterLastFrom_no_sep by exact Hafter. reflexivity.
Qed.

Lemma formatLineName_last_piece_witness :
  formatLineName plainTables "Linha 15-Prata - monotrilho"
  = formatLineName plainTables " monotrilho"
  /\ formatLineName plainTables " monotrilho" = "Monotrilho".
Proof.
  split; [ | reflexivity].
  exact (formatLineName_last_piece plainTables "Linha 15-Prata " " monotrilho" eq_refl).
Defined.

(** ** Trimming, rune by rune *)

Lemma dropWhile_split (f : Z -> bool) (l : list Z) :
  exists dropped : list Z, l = (dropped ++ dropWhile f l)%list.
Proof.
  induction l as [|r l [d IH]]; [now exists [] | ].
  cbn [dropWhile]. destruct (f r); [ | now exists []].
  exists (r :: d). cbn [app]. now rewrite <- IH.
Qed.

Lemma dropWhile_noLead (f : Z -> bool) (l : list Z) : noLead f (dropWhile f l).
Proof.
  induction l as [|r l IH]; [exact I | ].
  cbn [dropWhile]. destruct (f r) eqn:E; [exact IH | exact E].
Qed.

Lemma noLead_dropWhile (f : Z -> bool) (l : list Z) : noLead f l -> dropWhile f l = l.
Proof. destruct l as [|r l]; [reflexivity | ]. cbn [noLead dropWhile]. now intros ->. Qed.

Lemma noLead_app (f : Z -> bool) (l1 l2 : list Z) : noLead f (l1 ++ l2) -> noLead f l1.
Proof. destruct l1; [intros _; exact I | intros H; exact H]. Qed.

Lemma dropWhile_valid (f : Z -> bool) (l : list Z) : validRunes l -> validRunes (dropWhile f l).
Proof.
  unfold validRunes. intros H. destruct (dropWhile_split f l) as [d E].
  rewrite E in H. now apply Forall_app in H.
Qed.

Lemma rev_valid (l : list Z) : validRunes l -> validRunes (rev l).
Proof. unfold validRunes. apply Forall_rev. Qed.

(** Trimming the trimmed runes changes nothing. *)
Lemma trimRunes_idempotent (l : list Z) : trimRunes (trimRunes l) = trimRunes l.
Proof.
  unfold trimRunes.
  set (f := unicode.IsSpace). set (m := dropWhile f l).
  pose proof (dropWhile_noLead f l) as Hm. fold m in Hm.
  pose proof (dropWhile_noLead f (rev m)) as Hr.
  destruct (dropWhile_split f (rev m)) as [d E].
  set (r := dropWhile f (rev m)) in *.
  assert (Hrev : noLead f (rev r)).
  { apply (noLead_app f _ (rev d)). rewrite <- rev_app_distr, <- E, rev_involutive.
    exact Hm. }
  rewrite (noLead_dropWhile f (rev r) Hrev), rev_involutive.
  now rewrite (noLead_dropWhile f r Hr).
Qed.

(** [TrimLeftFunc] on a valid string drops the runes that satisfy [f] up to
    the first that does not. *)
Lemma TrimLeftFunc_dropWhile (f : Z -> bool) (l : list Z) :
  validRunes l ->
  strings.TrimLeftFunc (stringOfRunes l) f = stringOfRunes (dropWhile f l).
Proof.
  unfold strings.TrimLeftFunc.
  induction 1 as [|c l Hc Hl IH]; [reflexivity | ].
  rewrite stringOfRunes_cons. cbn [dropWhile].
  pose proof (Encode_Decode c (stringOfRunes l) Hc) as HD.
  pose proof (sdrop_app_length (utf8.EncodeRune c) (stringOfRunes l)) as Hdrop.
  destruct (EncodeRune_length c Hc) as [[Hlen _] _].
  destruct (utf8.EncodeRune c ++ stringOfRunes l) as [|a s] eqn:E.
  { destruct (utf8.EncodeRune c); [cbn in Hlen; lia | discriminate E]. }
  cbn [strings.trimLeftFrom]. rewrite HD.
  destruct (f c).
  - rewrite trimLeftFrom_skip, (sdrop_pred _ a) by exact Hlen. rewrite Hdrop. exact IH.
  - now rewrite stringOfRunes_cons.
Qed.

(** The index [lastIndexFunc] returns in a valid string: where the last
    rune that does not satisfy [f] starts. *)
Lemma lastIndexFunc_dropWhile (f : Z -> bool) (l : list Z) :
  validRunes l ->
  strings.lastIndexFunc (stringOfRunes l) f false
  = match dropWhile f (rev l) with
    | [] => -1
    | _ :: before => Z.of_nat (String.length (stringOfRunes (rev before)))
    end.
Proof.
  unfold strings.lastIndexFunc.
  induction l as [|c l IH] using rev_ind; intros Hv; [reflexivity | ].
  apply Forall_app in Hv as [Hl Hc]. inversion Hc as [|? ? Hc' _]; subst.
  rewrite rev_app_distr. cbn [rev app dropWhile].
  rewrite stringOfRunes_app, stringOfRunes_cons. cbn [stringOfRunes fold_right].
  rewrite sapp_nil_r, srev_app.
  pose proof (DecodeLast_Encode c (srev (stringOfRunes l)) Hc') as HD.
  pose proof (sdrop_app_length (srev (utf8.EncodeRune c)) (srev (stringOfRunes l))) as Hdrop.
  pose proof (slength_app (srev (utf8.EncodeRune c)) (srev (stringOfRunes l))) as Hlen.
  rewrite srev_length in Hdrop.
  destruct (EncodeRune_length c Hc') as [[Hone _] _].
  destruct (srev (utf8.EncodeRune c) ++ srev (stringOfRunes l)) as [|a rs] eqn:E.
  { rewrite srev_length in Hlen. cbn [String.length] in Hlen. lia. }
  cbn [strings.lastIndexFrom]. rewrite HD.
  destruct (f c); cbn [Bool.eqb].
  - rewrite lastIndexFrom_skip, (sdrop_pred _ a) by exact Hone. rewrite Hdrop.
    now apply IH.
  - rewrite rev_involutive, Hlen, !srev_length. lia.
Qed.

(** [TrimRightFunc] on a valid string drops the runes that satisfy [f]
    after the last that does not. *)
Lemma TrimRightFunc_dropWhile (f : Z -> bool) (l : list Z) :
  validRunes l ->
  strings.TrimRightFunc (stringOfRunes l) f = stringOfRunes (rev (dropWhile f (rev l))).
Proof.
  intros Hv. unfold strings.TrimRightFunc.
  rewrite (lastIndexFunc_dropWhile f l Hv).
  destruct (dropWhile_split f (rev l)) as [d E].
  destruct (dropWhile f (rev l)) as [|c before].
  - change (Z.to_nat (-1)) with 0%nat. cbn [sdrop]. now destruct (stringOfRunes l).
  - assert (El : l = (rev before ++ c :: rev d)%list).
    { rewrite <- (rev_involutive l), E, rev_app_distr. cbn [rev].
      now rewrite <- app_assoc. }
    rewrite Nat2Z.id. rewrite El in Hv |- *.
    apply Forall_app in Hv as [_ Hv]. inversion Hv as [|? ? Hc _]; subst.
    rewrite stringOfRunes_app, stringOfRunes_cons, sdrop_app_length.
    pose proof (Encode_Decode c (stringOfRunes (rev d)) Hc) as HD.
    assert (Hcut : stake (String.length (stringOfRunes (rev before))
                          + String.length (utf8.EncodeRune c))
                         (stringOfRunes (rev before)
                          ++ utf8.EncodeRune c ++ stringOfRunes (rev d))
                   = stringOfRunes (rev (c :: before))).
    { rewrite <- sapp_assoc, <- slength_app, stake_app_length. cbn [rev].
      rewrite stringOfRunes_app, stringOfRunes_cons. cbn [stringOfRunes fold_right].
      now rewrite sapp_nil_r. }
    destruct (utf8.EncodeRune c ++ stringOfRunes (rev d)) as [|a s] eqn:Es.
    { destruct (utf8.EncodeRune c) eqn:Ec;
        [now apply EncodeRune_not_empty in Ec | discriminate Es]. }
    replace (0 <=? Z.of_nat (String.length (stringOfRunes (rev before)))) with true
      by (symmetry; apply Z.leb_le; lia).
    cbn [andb]. rewrite HD. cbn [snd].
    destruct (Z.leb_spec utf8.RuneSelf (byteZ a)) as [Hhigh | Hlow].
    + rewrite <- Nat2Z.inj_add, Nat2Z.id. exact Hcut.
    + rewrite (Decode_ascii a s Hlow) in HD. injection HD as _ Hw.
      rewrite <- Hw in Hcut.
      change 1 with (Z.of_nat 1). rewrite <- Nat2Z.inj_add, Nat2Z.id. exact Hcut.
Qed.

(** [TrimSpace] on a valid string removes the white space at its start and
    end, rune by rune. *)
Lemma TrimSpace_runes (l : list Z) :
  validRunes l -> strings.TrimSpace (stringOfRunes l) = stringOfRunes (trimRunes l).
Proof.
  intros Hl. unfold strings.TrimSpace, trimRunes.
  rewrite TrimLeftFunc_dropWhile by exact Hl.
  apply TrimRightFunc_dropWhile. now apply dropWhile_valid.
Qed.

Lemma trimRunes_valid (l : list Z) : validRunes l -> validRunes (trimRunes l).
Proof.
  intros Hl. unfold trimRunes.
  now apply rev_valid, dropWhile_valid, rev_valid, dropWhile_valid.
Qed.

(** Trimming a valid string twice is trimming it once. *)
Lemma TrimSpace_idempotent (s : string) :
  utf8.ValidString s = true ->
  strings.TrimSpace (strings.TrimSpace s) = strings.TrimSpace s.
Proof.
  intros Hv. apply valid_stringOfRunes in Hv as (l & Hl & ->).
  rewrite (TrimSpace_runes l Hl), (TrimSpace_runes _ (trimRunes_valid l Hl)).
  now rewrite trimRunes_idempotent.
Qed.

(** Normalizing a normalized status changes nothing. *)
Theorem normalizeStatus_idempotent :
  forall (U : unicode.Tables) (status : string),
    utf8.ValidString status = true ->
    normalizeStatus U (normalizeStatus U status) = normalizeStatus U status.
Proof.
  intros U status Hv. unfold normalizeStatus at 2 3.
  destruct (String.eqb _ "operações encerradas") eqn:E1; [reflexivity | ].
  destruct (String.eqb _ "operações normais") eqn:E2; [reflexivity | ].
  unfold normalizeStatus. rewrite TrimSpace_idempotent by exact Hv.
  now rewrite E1, E2.
Qed.

Lemma normalizeStatus_idempotent_witness :
  normalizeStatus plainTables (normalizeStatus plainTables "  Operações Normais ")
  = normalizeStatus plainTables "  Operações Normais ".
Proof. exact (normalizeStatus_idempotent plainTables "  Operações Normais " eq_refl). Defined.

Lemma IsSpace_valid (r : Z) : unicode.IsSpace r = true -> utf8.ValidRune r = true.
Proof.
  unfold unicode.IsSpace. intros H. apply ValidRune_iff.
  destruct (Z.leb_spec r 255); to_prop;
    repeat match goal with
           | H : _ || _ = true |- _ => apply orb_true_iff in H; destruct H
           end; to_prop; lia.
Qed.

Lemma dropWhile_all (f : Z -> bool) (spaces l : list Z) :
  Forall (fun r => f r = true) spaces -> dropWhile f (spaces ++ l) = dropWhile f l.
Proof.
  induction 1 as [|r spaces Hr _ IH]; [reflexivity | ].
  cbn [app dropWhile]. now rewrite Hr.
Qed.

(** White space around a text that neither starts nor ends with white
    space is what trimming removes. *)
Lemma trimRunes_spec (lead l trail : list Z) :
  Forall (fun r => unicode.IsSpace r = true) lead ->
  Forall (fun r => unicode.IsSpace r = true) trail ->
  noLead unicode.IsSpace l -> noLead unicode.IsSpace (rev l) ->
  trimRunes (lead ++ l ++ trail) = l.
Proof.
  intros Hlead Htrail Hl Hrev. unfold trimRunes.
  rewrite (dropWhile_all _ lead) by exact Hlead.
  destruct l as [|c l].
  - cbn [app]. rewrite <- (app_nil_r trail) at 1.
    rewrite (dropWhile_all _ trail) by exact Htrail. reflexivity.
  - rewrite (noLead_dropWhile _ ((c :: l) ++ trail)) by exact Hl.
    rewrite rev_app_distr, (dropWhile_all _ (rev trail)) by now apply Forall_rev.
    rewrite (noLead_dropWhile _ _ Hrev). apply rev_involutive.
Qed.

(** The trimming of [normalizeStatus]: a valid text that neither starts
    nor ends with white space and is none of the two phrases is returned
    as it is, and with any white space added before and after it. *)
Theorem normalizeStatus_trims :
  forall (U : unicode.Tables) (lead l trail : list Z),
    Forall (fun r => unicode.IsSpace r = true) lead ->
    Forall (fun r => unicode.IsSpace r = true) trail ->
    validRunes l ->
    noLead unicode.IsSpace l -> noLead unicode.IsSpace (rev l) ->
    strings.ToLower U (stringOfRunes l) <> "operações encerradas" ->
    strings.ToLower U (stringOfRunes l) <> "operações normais" ->
    normalizeStatus U (stringOfRunes (lead ++ l ++ trail)) = stringOfRunes l.
Proof.
  intros U lead l trail Hlead Htrail Hl Hfirst Hlast H1 H2.
  assert (Hspaces : forall spaces,
             Forall (fun r => unicode.IsSpace r = true) spaces -> validRunes spaces).
  { intros spaces H. unfold validRunes. apply Forall_forall. intros r Hr.
    apply IsSpace_valid. now apply (proj1 (Forall_forall _ _) H). }
  assert (Hall : validRunes (lead ++ l ++ trail)).
  { apply Forall_app. split; [now apply Hspaces | ].
    apply Forall_app. split; [exact Hl | now apply Hspaces]. }
  unfold normalizeStatus. rewrite (TrimSpace_runes _ Hall), trimRunes_spec by assumption.
  destruct (String.eqb_spec (strings.ToLower U (stringOfRunes l)) "operações encerradas");
    [contradiction | ].
  destruct (String.eqb_spec (strings.ToLower U (stringOfRunes l)) "operações normais");
    [contradiction | reflexivity].
Qed.

Lemma normalizeStatus_trims_witness :
  normalizeStatus plainTables (stringOfRunes ([32; 9] ++ [79; 107; 32; 243] ++ [160; 10; 8195]))
  = stringOfRunes [79; 107; 32; 243].
Proof.
  refine (normalizeStatus_trims plainTables [32; 9] [79; 107; 32; 243] [160; 10; 8195]
            _ _ _ eq_refl eq_refl _ _).
  - repeat constructor.
  - repeat constructor.
  - repeat constructor.
  - discriminate.
  - discriminate.
Defined.

(** ** The rows of the table and their alignment *)

Lemma countFrom_skip (k : nat) (s : string) :
  utf8.countFrom k s = utf8.countFrom 0 (sdrop k s).
Proof.
  revert k; induction s as [|a s IH]; intros [|k]; try reflexivity.
  cbn [utf8.countFrom sdrop]. apply IH.
Qed.

(** A string has no more runes than bytes. *)
Lemma countFrom_length (s : string) (k : nat) :
  0 <= utf8.countFrom k s <= Z.of_nat (String.length s).
Proof.
  revert k; induction s as [|a s IH]; intros k; cbn [utf8.countFrom String.length].
  - destruct k; lia.
  - destruct k as [|k].
    + specialize (IH (snd (utf8.DecodeRuneInString (String a s)) - 1)%nat). lia.
    + specialize (IH k). lia.
Qed.

Lemma countFrom_Encode (r : Z) (rest : string) :
  utf8.ValidRune r = true ->
  utf8.countFrom 0 (utf8.EncodeRune r ++ rest) = 1 + utf8.countFrom 0 rest.
Proof.
  intros Hr.
  pose proof (Encode_Decode r rest Hr) as HD.
  pose proof (sdrop_app_length (utf8.EncodeRune r) rest) as Hdrop.
  destruct (EncodeRune_length r Hr) as [[Hlen _] _].
  destruct (utf8.EncodeRune r ++ rest) as [|a s] eqn:E.
  { destruct (utf8.EncodeRune r); [cbn in Hlen; lia | discriminate E]. }
  cbn [utf8.countFrom]. rewrite HD. cbn [snd].
  rewrite countFrom_skip, (sdrop_pred _ a) by exact Hlen. now rewrite Hdrop.
Qed.

(** The runes of a valid string followed by a text are its runes and
    those of the text. *)
Lemma RuneCount_app (s t : string) :
  utf8.ValidString s = true ->
  utf8.RuneCountInString (s ++ t) = utf8.RuneCountInString s + utf8.RuneCountInString t.
Proof.
  intros Hv. apply valid_stringOfRunes in Hv as (l & Hl & ->).
  unfold utf8.RuneCountInString.
  induction Hl as [|r l Hr Hl IH]; [reflexivity | ].
  rewrite stringOfRunes_cons, sapp_assoc, !countFrom_Encode by exact Hr.
  rewrite IH. lia.
Qed.

Lemma RuneCount_blanks (n : nat) :
  utf8.RuneCountInString (strings.Repeat " " n) = Z.of_nat n.
Proof.
  unfold utf8.RuneCountInString. induction n as [|n IH]; [reflexivity | ].
  change (strings.Repeat " " (S n)) with (String " " (strings.Repeat " " n)).
  cbn [utf8.countFrom]. rewrite Decode_ascii by (cbn; lia).
  cbn [snd Nat.sub]. rewrite IH. lia.
Qed.

(** Within the limit of [fmt] on a width, the verb writes the text and
    blanks up to the width. *)
Lemma padRight_blanks (wid : Z) (s : string) :
  0 <= wid <= 1000000 ->
  fmt.padRight wid s = s ++ strings.Repeat " " (Z.to_nat (wid - displayWidth s)).
Proof.
  intros H. unfold fmt.padRight, displayWidth.
  destruct (Z.ltb_spec 1000000 wid); [lia | ].
  destruct (Z.ltb_spec wid (-1000000)); [lia | ].
  cbn [orb]. now rewrite Z.abs_eq by lia.
Qed.

(** A valid text followed by blanks up to a width it does not exceed is
    that many characters wide. *)
Lemma blanks_width (wid : Z) (s : string) :
  utf8.ValidString s = true ->
  displayWidth s <= wid ->
  displayWidth (s ++ strings.Repeat " " (Z.to_nat (wid - displayWidth s))) = wid.
Proof.
  unfold displayWidth. intros Hv Hw.
  rewrite RuneCount_app, RuneCount_blanks by exact Hv. lia.
Qed.

(** The width of the name column is no less than the length of a name. *)
Lemma maxLen_bound (U : unicode.Tables) (lines : list LineItem) (l : LineItem) :
  In l lines ->
  Z.of_nat (String.length (formatLineName U (Line l))) <= maxLen U lines.
Proof.
  unfold maxLen. rewrite maxLen_loop.
  induction lines as [|l' lines IH]; intros Hin; [destruct Hin | ].
  cbn [List.map fold_right]. destruct Hin as [-> | Hin]; [lia | ].
  specialize (IH Hin). lia.
Qed.

Lemma maxLen_floor (U : unicode.Tables) (lines : list LineItem) : 5 <= maxLen U lines.
Proof.
  unfold maxLen. rewrite maxLen_loop.
  induction lines as [|l lines IH]; cbn [List.map fold_right]; lia.
Qed.

Lemma concat_rows {A : Type} (f : A -> string) (l : list A) :
  fold_right (fun x rest => f x ++ rest) EmptyString l
  = String.concat EmptyString (List.map f l).
Proof.
  induction l as [|x l IH]; [reflexivity | ].
  cbn [fold_right List.map]. rewrite IH.
  destruct l as [|y l]; [apply sapp_nil_r | reflexivity].
Qed.

(** What [printTable] writes when no formatted name is longer than the
    widest width [fmt] takes: the header, the divider and the rows, every
    name with its blanks. *)
Lemma printTable_text (U : unicode.Tables) (lines : list LineItem) :
  maxLen U lines <= 1000000 ->
  printTable U lines
  = (colorBold ++ "Linha" ++ strings.Repeat " " (Z.to_nat (maxLen U lines - 5))
     ++ "  Status" ++ colorReset ++ LF)
    ++ (strings.Repeat "-" (Z.to_nat (maxLen U lines + 22)) ++ LF)
    ++ String.concat EmptyString
         (List.map
            (fun line =>
               formatLineName U (Line line)
               ++ strings.Repeat " "
                    (Z.to_nat (maxLen U lines - displayWidth (formatLineName U (Line line))))
               ++ "  " ++ getColorForStatus U (StatusColor line)
               ++ normalizeStatus U (Status line) ++ colorReset ++ LF)
            lines).
Proof.
  intros Hmax. pose proof (maxLen_floor U lines) as Hfloor.
  assert (Hrows : List.map (tableRow U (maxLen U lines)) lines
                  = List.map
                      (fun line =>
                         formatLineName U (Line line)
                         ++ strings.Repeat " "
                              (Z.to_nat (maxLen U lines
                                         - displayWidth (formatLineName U (Line line))))
                         ++ "  " ++ getColorForStatus U (StatusColor line)
                         ++ normalizeStatus U (Status line) ++ colorReset ++ LF)
                      lines).
  { apply map_ext. intros line. unfold tableRow.
    rewrite padRight_blanks by lia. now rewrite !sapp_assoc. }
  unfold printTable. rewrite rows_loop, concat_rows, Hrows.
  rewrite padRight_blanks by lia. change (displayWidth "Linha") with 5.
  replace (maxLen U lines + 2 + 20) with (maxLen U lines + 22) by lia.
  rewrite !sapp_assoc. reflexivity.
Qed.

(** [printTable] writes the bold header, the divider of [maxLen + 22]
    dashes and then one row per line item, in order: the formatted name,
    blanks up to [maxLen] characters, two more blanks, the colour code, the
    normalized status, the reset code and a line feed. *)
Theorem printTable_rows :
  forall (U : unicode.Tables) (lines : list LineItem),
    maxLen U lines <= 1000000 ->
    printTable U lines
    = (colorBold ++ "Linha" ++ strings.Repeat " " (Z.to_nat (maxLen U lines - 5))
       ++ "  Status" ++ colorReset ++ LF)
      ++ (strings.Repeat "-" (Z.to_nat (maxLen U lines + 22)) ++ LF)
      ++ String.concat EmptyString
           (List.map
              (fun line =>
                 formatLineName U (Line line)
                 ++ strings.Repeat " "
                      (Z.to_nat (maxLen U lines - displayWidth (formatLineName U (Line line))))
                 ++ "  " ++ getColorForStatus U (StatusColor line)
                 ++ normalizeStatus U (Status line) ++ colorReset ++ LF)
              lines).
Proof. exact printTable_text. Qed.

Lemma printTable_rows_witness :
  printTable plainTables
    [mkLineItem "5" "Linha 5-Lilás" "" "Operações Normais" "verde" "" "";
     mkLineItem "1" "Linha 1-Azul" "" " Paralisada" "vermelho" "" ""]
  = colorBold ++ "Linha   Status" ++ colorReset ++ LF
    ++ "----------------------------" ++ LF
    ++ "Lilás   " ++ colorGreen ++ "Operação Normal" ++ colorReset ++ LF
    ++ "Azul    " ++ colorRed ++ "Paralisada" ++ colorReset ++ LF.
Proof.
  apply (printTable_rows plainTables
           [mkLineItem "5" "Linha 5-Lilás" "" "Operações Normais" "verde" "" "";
            mkLineItem "1" "Linha 1-Azul" "" " Paralisada" "vermelho" "" ""]).
  vm_compute. discriminate.
Defined.

Lemma map_combine_map {A B C : Type} (f : A -> B) (g : B * A -> C) (l : list A) :
  List.map g (List.combine (List.map f l) l) = List.map (fun x => g (f x, x)) l.
Proof. induction l as [|x l IH]; [reflexivity | ]. cbn [List.map List.combine]. now rewrite IH. Qed.

(** The columns of the table are aligned.  In what [printTable] writes,
    the header cell and the name cell of every row, which two blanks part
    from the status column, are exactly [maxLen] characters wide, also
    where [maxLen], counted in bytes, is more than the widest name needs. *)
Theorem printTable_aligned :
  forall (U : unicode.Tables) (lines : list LineItem),
    maxLen U lines <= 1000000 ->
    exists (head : string) (cells : list string),
      printTable U lines
      = (colorBold ++ head ++ "  Status" ++ colorReset ++ LF)
        ++ (strings.Repeat "-" (Z.to_nat (maxLen U lines + 22)) ++ LF)
        ++ String.concat EmptyString
             (List.map
                (fun row : string * LineItem =>
                   fst row ++ "  " ++ getColorForStatus U (StatusColor (snd row))
                   ++ normalizeStatus U (Status (snd row)) ++ colorReset ++ LF)
                (List.combine cells lines))
      /\ List.length cells = List.length lines
      /\ displayWidth head = maxLen U lines
      /\ Forall (fun cell => displayWidth cell = maxLen U lines) cells.
Proof.
  intros U lines Hmax. pose proof (maxLen_floor U lines) as Hfloor.
  exists ("Linha" ++ strings.Repeat " " (Z.to_nat (maxLen U lines - 5))).
  exists (List.map
            (fun line =>
               formatLineName U (Line line)
               ++ strings.Repeat " "
                    (Z.to_nat (maxLen U lines - displayWidth (formatLineName U (Line line)))))
            lines).
  split; [ | split; [apply length_map | split]].
  - rewrite (printTable_text U lines Hmax), map_combine_map. cbn [fst snd].
    rewrite (map_ext
               (fun line =>
                  (formatLineName U (Line line)
                   ++ strings.Repeat " "
                        (Z.to_nat (maxLen U lines
                                   - displayWidth (formatLineName U (Line line)))))
                  ++ "  " ++ getColorForStatus U (StatusColor line)
                  ++ normalizeStatus U (Status line) ++ colorReset ++ LF)
               (fun line =>
                  formatLineName U (Line line)
                  ++ strings.Repeat " "
                       (Z.to_nat (maxLen U lines
                                  - displayWidth (formatLineName U (Line line))))
                  ++ "  " ++ getColorForStatus U (StatusColor line)
                  ++ normalizeStatus U (Status line) ++ colorReset ++ LF))
      by (intros line; now rewrite !sapp_assoc).
    rewrite !sapp_assoc. reflexivity.
  - apply (blanks_width (maxLen U lines) "Linha"); [reflexivity | ].
    now change (displayWidth "Linha") with 5.
  - apply Forall_forall. intros cell Hcell.
    apply in_map_iff in Hcell as (line & <- & Hline).
    apply blanks_width; [apply formatLineName_valid | ].
    pose proof (maxLen_bound U lines line Hline).
    pose proof (countFrom_length (formatLineName U (Line line)) 0).
    unfold displayWidth, utf8.RuneCountInString. lia.
Qed.

Lemma printTable_aligned_witness :
  exists (head : string) (cells : list string),
    printTable plainTables
      [mkLineItem "5" "Linha 5-Lilás" "" "Operações Normais" "verde" "" "";
       mkLineItem "1" "Linha 1-Azul" "" " Paralisada" "vermelho" "" ""]
    = (colorBold ++ head ++ "  Status" ++ colorReset ++ LF)
      ++ ("----------------------------" ++ LF)
      ++ String.concat EmptyString
           (List.map
              (fun row : string * LineItem =>
                 fst row ++ "  " ++ getColorForStatus plainTables (StatusColor (snd row))
                 ++ normalizeStatus plainTables (Status (snd row)) ++ colorReset ++ LF)
              (List.combine cells
                 [mkLineItem "5" "Linha 5-Lilás" "" "Operações Normais" "verde" "" "";
                  mkLineItem "1" "Linha 1-Azul" "" " Paralisada" "vermelho" "" ""]))
    /\ List.length cells = 2%nat
    /\ displayWidth head = 6
    /\ Forall (fun cell => displayWidth cell = 6) cells.
Proof.
  apply (printTable_aligned plainTables
           [mkLineItem "5" "Linha 5-Lilás" "" "Operações Normais" "verde" "" "";
            mkLineItem "1" "Linha 1-Azul" "" " Paralisada" "vermelho" "" ""]).
  vm_compute. discriminate.
Defined.

(** ** The width of the name column and the widest name *)

Lemma RuneCount_ascii (s : string) :
  isASCII s = true -> utf8.RuneCountInString s = Z.of_nat (String.length s).
Proof.
  unfold isASCII, utf8.RuneCountInString. induction s as [|a s IH]; [reflexivity | ].
  cbn [list_ascii_of_string forallb]. intros H. apply andb_true_iff in H as [Ha Hs].
  apply Z.ltb_lt in Ha. cbn [utf8.countFrom String.length].
  rewrite Decode_ascii by exact Ha. cbn [snd Nat.sub]. rewrite (IH Hs). lia.
Qed.

(** The width [printTable] gives the name column is never less than the
    display width of the widest name, and it is that width when every
    formatted name is ASCII. *)
Theorem maxLen_widest :
  forall (U : unicode.Tables) (lines : list LineItem),
    widestName U lines <= maxLen U lines
    /\ ((forall l, In l lines -> isASCII (formatLineName U (Line l)) = true) ->
        maxLen U lines = widestName U lines).
Proof.
  intros U lines. unfold maxLen, widestName, displayWidth. rewrite maxLen_loop. split.
  - induction lines as [|l lines IH]; cbn [List.map fold_right]; [lia | ].
    pose proof (countFrom_length (formatLineName U (Line l)) 0).
    unfold utf8.RuneCountInString in *. lia.
  - intros Hascii. induction lines as [|l lines IH]; cbn [List.map fold_right]; [reflexivity | ].
    rewrite IH by (intros l' Hl'; apply Hascii; now right).
    rewrite RuneCount_ascii by (apply Hascii; now left). reflexivity.
Qed.

Lemma maxLen_widest_witness :
  maxLen plainTables
    [mkLineItem "" "Linha 3-Vermelha" "" "" "" "" ""; mkLineItem "" "Linha 1-Azul" "" "" "" "" ""]
  = widestName plainTables
      [mkLineItem "" "Linha 3-Vermelha" "" "" "" "" ""; mkLineItem "" "Linha 1-Azul" "" "" "" "" ""].
Proof.
  apply (proj2 (maxLen_widest plainTables
                  [mkLineItem "" "Linha 3-Vermelha" "" "" "" "" "";
                   mkLineItem "" "Linha 1-Azul" "" "" "" "" ""])).
  intros l [<- | [<- | []]]; reflexivity.
Defined.

(** ** The bytes of the JSON document *)

Lemma allBytes_app (p : Z -> bool) (a b : string) :
  allBytes p (a ++ b) = allBytes p a && allBytes p b.
Proof.
  induction a as [|x a IH]; [reflexivity | ].
  cbn [append allBytes]. now rewrite IH, andb_assoc.
Qed.

Lemma allBytes_weaken (p q : Z -> bool) (s : string) :
  (forall b, 0 <= b < 256 -> p b = true -> q b = true) ->
  allBytes p s = true -> allBytes q s = true.
Proof.
  intros Hpq. induction s as [|a s IH]; [reflexivity | ].
  cbn [allBytes]. intros H. apply andb_true_iff in H as [Ha Hs].
  rewrite (Hpq _ (byteZ_range a) Ha). now apply IH.
Qed.

Lemma validFrom_ascii (a : ascii) (rest : string) :
  byteZ a < 0x80 -> utf8.validFrom 0 (String a rest) = utf8.validFrom 0 rest.
Proof.
  intros Ha. cbn [utf8.validFrom]. rewrite Decode_ascii by exact Ha.
  cbn [Nat.eqb Nat.sub]. unfold utf8.RuneError. pose proof (byteZ_range a).
  destruct (Z.eqb_spec (byteZ a) 65533); [lia | reflexivity].
Qed.

Lemma validFrom_ascii_app (x rest : string) :
  allBytes (fun b => b <? 0x80) x = true ->
  utf8.validFrom 0 (x ++ rest) = utf8.validFrom 0 rest.
Proof.
  induction x as [|a x IH]; [reflexivity | ].
  cbn [allBytes append]. intros H. apply andb_true_iff in H as [Ha Hx].
  apply Z.ltb_lt in Ha. rewrite validFrom_ascii by exact Ha. now apply IH.
Qed.

(** A valid text followed by a valid text is valid. *)
Lemma ValidString_app (a b : string) :
  utf8.ValidString a = true -> utf8.ValidString b = true -> utf8.ValidString (a ++ b) = true.
Proof.
  intros Ha Hb.
  apply valid_stringOfRunes in Ha as (la & _ & ->).
  apply valid_stringOfRunes in Hb as (lb & _ & ->).
  rewrite <- stringOfRunes_app. apply stringOfRunes_valid.
Qed.

Lemma safeText_app (a b : string) : safeText a -> safeText b -> safeText (a ++ b).
Proof.
  intros [Va Sa] [Vb Sb]. split.
  - now apply ValidString_app.
  - now rewrite allBytes_app, Sa, Sb.
Qed.

Lemma plain_safeText (s : string) : allBytes plainByte s = true -> safeText s.
Proof.
  intros H. split.
  - unfold utf8.ValidString. rewrite <- (sapp_nil_r s), validFrom_ascii_app; [reflexivity | ].
    revert H. apply allBytes_weaken. intros b Hb. unfold plainByte, printingByte.
    intros Hp. apply orb_true_iff in Hp as [Hp | Hp]; to_prop; apply Z.ltb_lt; lia.
  - revert H. apply allBytes_weaken. intros b Hb. unfold plainByte, printingByte.
    intros Hp. apply orb_true_iff in Hp as [Hp | Hp].
    + apply Z.eqb_eq in Hp. subst b. reflexivity.
    + apply andb_true_iff in Hp as [_ Hp]. exact Hp.
Qed.

Lemma printing_ascii (s : string) :
  allBytes printingByte s = true -> allBytes (fun b => b <? 0x80) s = true.
Proof.
  apply allBytes_weaken. intros b _ Hp. unfold printingByte in Hp. to_prop.
  now apply Z.ltb_lt.
Qed.

Lemma printing_not_special (s : string) :
  allBytes printingByte s = true -> allBytes (fun b => negb (htmlSpecial b)) s = true.
Proof.
  apply allBytes_weaken. intros b _ Hp. unfold printingByte in Hp.
  apply andb_true_iff in Hp as [_ Hp]. exact Hp.
Qed.

Lemma hexDigit_printing (n : Z) :
  0 <= n < 16 -> printingByte (byteZ (json.hexDigit n)) = true.
Proof.
  intros H. unfold json.hexDigit, printingByte, htmlSpecial.
  destruct (Z.ltb_spec n 10); rewrite byteZ_mkByte by lia; ztests; reflexivity.
Qed.

(** The escape of an ASCII byte is made of a backslash, a quote, letters
    and digits. *)
Lemma escapeByte_bytes (b : Z) :
  0 <= b < 0x80 ->
  allBytes printingByte (json.escapeByte b) = true.
Proof.
  intros Hb. unfold json.escapeByte.
  destruct ((b =? 0x5C) || (b =? 0x22)) eqn:E.
  { apply orb_true_iff in E as [E | E]; apply Z.eqb_eq in E; subst b; reflexivity. }
  destruct (b =? 0x0A); [reflexivity | ].
  destruct (b =? 0x0D); [reflexivity | ].
  destruct (b =? 0x09); [reflexivity | ].
  change ("\u00" ++ String (json.hexDigit (b / 16)) (str1 (json.hexDigit (b mod 16))))
    with ("\u00" ++ (String (json.hexDigit (b / 16)) (str1 (json.hexDigit (b mod 16))))).
  rewrite allBytes_app. cbn [str1 allBytes].
  rewrite !hexDigit_printing by dlia. reflexivity.
Qed.

Lemma separator_escape_bytes (c : Z) :
  allBytes printingByte ("\u202" ++ str1 (json.hexDigit (c mod 16))) = true.
Proof.
  rewrite allBytes_app. cbn [str1 allBytes].
  rewrite hexDigit_printing by dlia. reflexivity.
Qed.

(** The body of a JSON string is valid UTF-8, whatever the bytes of the
    Go string. *)
Lemma quoteFrom_valid (s : string) :
  forall (k : nat) (rest : string),
    utf8.validFrom 0 (json.quoteFrom k s ++ rest) = utf8.validFrom 0 rest.
Proof.
  induction s as [|a s IH]; intros k rest; [now destruct k | ].
  destruct k as [|k]; cbn [json.quoteFrom]; [ | apply IH].
  pose proof (byteZ_range a) as Hr.
  destruct (Z.ltb_spec (byteZ a) utf8.RuneSelf) as [Hlow | Hhigh]; unfold utf8.RuneSelf in *.
  - rewrite sapp_assoc, validFrom_ascii_app; [apply IH | ].
    destruct (json.htmlSafe (byteZ a)) eqn:Hsafe.
    + cbn [str1 allBytes]. apply Z.ltb_lt in Hlow. now rewrite Hlow.
    + apply printing_ascii, escapeByte_bytes. lia.
  - pose proof (Decode_width a s) as [[Hw1 _] _].
    assert (Hs : String a s <> EmptyString) by discriminate.
    pose proof (Decode_Encode (String a s) Hs) as Hcanon.
    destruct (utf8.DecodeRuneInString (String a s)) as [c size]. cbn [fst snd] in *.
    destruct ((c =? utf8.RuneError) && Nat.eqb size 1) eqn:Herr.
    { rewrite sapp_assoc, validFrom_ascii_app; [apply IH | reflexivity]. }
    assert (Hok : ~ (c = utf8.RuneError /\ size = 1%nat)).
    { intros [-> ->]. discriminate Herr. }
    specialize (Hcanon Hok).
    destruct ((c =? 0x2028) || (c =? 0x2029)) eqn:Hsep.
    + change (("\u202" ++ String (json.hexDigit (c mod 16)) (json.quoteFrom (size - 1) s))
              ++ rest)
        with (("\u202" ++ str1 (json.hexDigit (c mod 16)))
              ++ (json.quoteFrom (size - 1) s ++ rest)).
      rewrite validFrom_ascii_app; [apply IH | ].
      apply printing_ascii, separator_escape_bytes.
    + rewrite Hcanon, sapp_assoc, validFrom_Encode. apply IH.
Qed.

(** It has none of the bytes [<], [>] and [&]. *)
Lemma quoteFrom_bytes (s : string) :
  forall k : nat, allBytes (fun b => negb (htmlSpecial b)) (json.quoteFrom k s) = true.
Proof.
  induction s as [|a s IH]; intros k; [now destruct k | ].
  destruct k as [|k]; cbn [json.quoteFrom]; [ | apply IH].
  pose proof (byteZ_range a) as Hr.
  destruct (Z.ltb_spec (byteZ a) utf8.RuneSelf) as [Hlow | Hhigh]; unfold utf8.RuneSelf in *.
  - rewrite allBytes_app, IH, andb_true_r.
    destruct (json.htmlSafe (byteZ a)) eqn:Hsafe.
    + cbn [str1 allBytes]. unfold json.htmlSafe in Hsafe. unfold htmlSpecial.
      to_prop. ztests; first [reflexivity | discriminate].
    + apply printing_not_special, escapeByte_bytes. lia.
  - pose proof (Decode_highBytes a s Hhigh) as Hbytes.
    destruct (utf8.DecodeRuneInString (String a s)) as [c size]. cbn [fst snd] in *.
    destruct ((c =? utf8.RuneError) && Nat.eqb size 1) eqn:Herr.
    { rewrite allBytes_app, IH. reflexivity. }
    assert (Hok : ~ (c = utf8.RuneError /\ size = 1%nat)).
    { intros [-> ->]. discriminate Herr. }
    specialize (Hbytes Hok).
    destruct ((c =? 0x2028) || (c =? 0x2029)) eqn:Hsep.
    + change ("\u202" ++ String (json.hexDigit (c mod 16)) (json.quoteFrom (size - 1) s))
        with (("\u202" ++ str1 (json.hexDigit (c mod 16))) ++ json.quoteFrom (size - 1) s).
      rewrite (allBytes_app _ (_ ++ _)), IH, andb_true_r.
      apply printing_not_special, separator_escape_bytes.
    + rewrite allBytes_app, IH, andb_true_r.
      revert Hbytes. generalize (stake size (String a s)). clear.
      induction s as [|x s IH]; [reflexivity | ].
      cbn [highBytes allBytes]. intros [Hx Hs]. rewrite IH by exact Hs.
      unfold htmlSpecial. ztests; reflexivity.
Qed.

Lemma quote_safeText (s : string) : safeText (json.quote s).
Proof.
  unfold json.quote.
  change (String "034" (json.quoteFrom 0 s ++ str1 "034"))
    with (str1 "034" ++ (json.quoteFrom 0 s ++ str1 "034")).
  split.
  - unfold utf8.ValidString.
    rewrite validFrom_ascii_app, quoteFrom_valid by reflexivity. reflexivity.
  - rewrite !allBytes_app, quoteFrom_bytes. reflexivity.
Qed.

Lemma newline_safeText (depth : nat) : safeText (json.newline "    " depth).
Proof.
  apply plain_safeText. unfold json.newline. cbn [allBytes].
  apply andb_true_iff. split; [reflexivity | ].
  induction depth as [|d IH]; [reflexivity | ].
  cbn [strings.Repeat]. now rewrite allBytes_app, IH.
Qed.

Lemma concat_safeText (sep : string) (pieces : list string) :
  safeText sep -> Forall safeText pieces -> safeText (String.concat sep pieces).
Proof.
  intros Hsep. induction 1 as [|x pieces Hx Hrest IH]; [now apply plain_safeText | ].
  destruct pieces as [|y pieces]; [exact Hx | ].
  change (String.concat sep (x :: y :: pieces))
    with (x ++ sep ++ String.concat sep (y :: pieces)).
  now repeat apply safeText_app.
Qed.

Lemma outputLine_safeText (depth : nat) (o : OutputLine) :
  safeText (json.indented "    " depth (outputLineValue o)).
Proof.
  unfold outputLineValue. cbn [json.indented List.map String.concat].
  repeat first [apply quote_safeText | apply newline_safeText
               | now apply plain_safeText | apply safeText_app].
Qed.

Lemma data_safeText (depth : nat) (outs : list OutputLine) :
  safeText (json.indented "    " depth (json.Array (List.map outputLineValue outs))).
Proof.
  destruct outs as [|o outs]; [now apply plain_safeText | ].
  change (json.indented "    " depth (json.Array (List.map outputLineValue (o :: outs))))
    with ("[" ++ json.newline "    " (S depth)
          ++ String.concat ("," ++ json.newline "    " (S depth))
               (List.map (json.indented "    " (S depth))
                  (List.map outputLineValue (o :: outs)))
          ++ json.newline "    " depth ++ "]").
  apply safeText_app; [now apply plain_safeText | ].
  apply safeText_app; [apply newline_safeText | ].
  apply safeText_app; [ | apply safeText_app;
                            [apply newline_safeText | now apply plain_safeText]].
  apply concat_safeText.
  - apply safeText_app; [now apply plain_safeText | apply newline_safeText].
  - apply Forall_forall. intros x Hx.
    apply in_map_iff in Hx as (v & <- & Hv). apply in_map_iff in Hv as (o' & <- & _).
    apply outputLine_safeText.
Qed.

(** The JSON document is valid UTF-8 and holds none of the bytes [<], [>]
    and [&], whatever the bytes of the line labels and status texts. *)
Theorem printJSON_safe_text :
  forall (U : unicode.Tables) (lines : list LineItem) (text : string),
    printJSON U lines = Some text -> safeText text.
Proof.
  intros U lines text. rewrite printJSON_text. intros H. injection H as <-.
  unfold json.Encode, outputValue. cbn [orCode orData orMessage].
  rewrite indented_document.
  repeat apply safeText_app; try apply data_safeText; now apply plain_safeText.
Qed.

Lemma printJSON_safe_text_witness :
  printJSON plainTables [mkLineItem "" "Linha 9-a<b" "" (" B&B> " ++ str1 "255") "" "" ""]
  = Some escapedDocument
  /\ safeText escapedDocument.
Proof.
  split; [reflexivity | ].
  exact (printJSON_safe_text plainTables
           [mkLineItem "" "Linha 9-a<b" "" (" B&B> " ++ str1 "255") "" "" ""]
           escapedDocument eq_refl).
Defined.

(** ** The bytes of the table *)

Lemma Repeat_ascii_valid (a : ascii) (n : nat) :
  byteZ a < 0x80 -> utf8.ValidString (strings.Repeat (str1 a) n) = true.
Proof.
  intros Ha. unfold utf8.ValidString. induction n as [|n IH]; [reflexivity | ].
  cbn [strings.Repeat str1 append]. now rewrite validFrom_ascii.
Qed.

Lemma padRight_valid (wid : Z) (s : string) :
  utf8.ValidString s = true -> utf8.ValidString (fmt.padRight wid s) = true.
Proof.
  intros Hs. unfold fmt.padRight.
  destruct ((1000000 <? wid) || (wid <? -1000000)).
  - now apply (ValidString_app "%!(BADWIDTH)").
  - apply ValidString_app; [exact Hs | ].
    apply (Repeat_ascii_valid " "). cbn. lia.
Qed.

Lemma getColorForStatus_valid (U : unicode.Tables) (statusColor : string) :
  utf8.ValidString (getColorForStatus U statusColor) = true.
Proof.
  unfold getColorForStatus.
  repeat match goal with
         | |- context [if ?c then _ else _] => destruct c; [reflexivity | ]
         end.
  reflexivity.
Qed.

Lemma tableRow_valid (U : unicode.Tables) (width : Z) (line : LineItem) :
  utf8.ValidString (Status line) = true ->
  utf8.ValidString (tableRow U width line) = true.
Proof.
  intros Hs. unfold tableRow.
  apply ValidString_app; [apply padRight_valid, formatLineName_valid | ].
  apply (ValidString_app "  "); [reflexivity | ].
  apply ValidString_app; [apply getColorForStatus_valid | ].
  apply ValidString_app; [now apply normalizeStatus_valid | reflexivity].
Qed.

(** The table is valid UTF-8 whenever the status texts are, whatever the
    bytes of the line labels: a byte of a label that is no part of a rune
    comes out of the title-casing as U+FFFD. *)
Theorem printTable_valid :
  forall (U : unicode.Tables) (lines : list LineItem),
    (forall l, In l lines -> utf8.ValidString (Status l) = true) ->
    utf8.ValidString (printTable U lines) = true.
Proof.
  intros U lines Hlines. unfold printTable. rewrite rows_loop.
  generalize (maxLen U lines). intros w.
  apply ValidString_app; [ | apply ValidString_app].
  - apply (ValidString_app colorBold); [reflexivity | ].
    apply ValidString_app; [now apply padRight_valid | reflexivity].
  - apply ValidString_app; [ | reflexivity].
    apply (Repeat_ascii_valid "-"). cbn. lia.
  - cbn [append]. induction lines as [|l lines IH]; [reflexivity | ].
    cbn [fold_right]. apply ValidString_app.
    + apply tableRow_valid, Hlines. now left.
    + apply IH. intros l' Hl'. apply Hlines. now right.
Qed.

Lemma printTable_valid_witness :
  utf8.ValidString
    (printTable plainTables
       [mkLineItem "" ("Linha 2-V" ++ str1 "255" ++ "rde") "" "Operação Normal" "verde" "" ""])
  = true
  /\ formatLineName plainTables ("Linha 2-V" ++ str1 "255" ++ "rde")
     = "V" ++ utf8.EncodeRune utf8.RuneError ++ "rde".
Proof.
  split; [ | reflexivity].
  apply (printTable_valid plainTables
           [mkLineItem "" ("Linha 2-V" ++ str1 "255" ++ "rde") "" "Operação Normal"
                       "verde" "" ""]).
  intros l [<- | []]. reflexivity.
Defined.

(** ** The filter on joined data *)

(** The filter works batch by batch: on two lists of batches, one after
    the other, it returns what it returns on the first followed by what it
    returns on the second; and the items it returns are the items of the
    batches that pass its test, no other. *)
Theorem filterByService_app :
  forall (U : unicode.Tables) (data data' : list ServiceData) (service : string),
    filterByService U (data ++ data') service
    = (filterByService U data service ++ filterByService U data' service)%list
    /\ forall item : LineItem,
         In item (filterByService U data service)
         <-> exists svc : ServiceData,
               In svc data /\ selects U service svc = true /\ In item (ListItem svc).
Proof.
  intros U data data' service. rewrite !filterByService_selects. split.
  - now rewrite filter_app, flat_map_app.
  - intros item. rewrite in_flat_map. split.
    + intros (svc & Hsvc & Hitem). apply filter_In in Hsvc as [Hsvc Hsel]. now exists svc.
    + intros (svc & Hsvc & Hsel & Hitem). exists svc. split; [ | exact Hitem].
      now apply filter_In.
Qed.

Lemma filterByService_app_witness :
  filterByService plainTables
    ([mkServiceData [mkLineItem "1" "Linha 1-Azul" "" "" "" "" ""] "" "metro"]
     ++ [mkServiceData [mkLineItem "7" "Linha 7-Rubi" "" "" "" "" ""] "" "cptm";
         mkServiceData [mkLineItem "2" "Linha 2-Verde" "" "" "" "" ""] "" "METRO"])
    "Metro"
  = [mkLineItem "1" "Linha 1-Azul" "" "" "" "" ""; mkLineItem "2" "Linha 2-Verde" "" "" "" "" ""].
Proof.
  exact (proj1 (filterByService_app plainTables
                  [mkServiceData [mkLineItem "1" "Linha 1-Azul" "" "" "" "" ""] "" "metro"]
                  [mkServiceData [mkLineItem "7" "Linha 7-Rubi" "" "" "" "" ""] "" "cptm";
                   mkServiceData [mkLineItem "2" "Linha 2-Verde" "" "" "" "" ""] "" "METRO"]
                  "Metro")).
Defined.

(** ** The JSON document for every status text *)

Lemma coerced_lines (U : unicode.Tables) (lines : list LineItem) :
  List.map outputLineValue
    (List.map coercedLine
       (List.map (fun l => mkOutputLine (formatLineName U (Line l))
                                        (normalizeStatus U (Status l)))
                 lines))
  = List.map
      (fun l => json.Object
                  [("line", json.Str (formatLineName U (Line l)));
                   ("status", json.Str (replaceInvalid (normalizeStatus U (Status l))))])
      lines.
Proof.
  rewrite !map_map. apply map_ext. intros l.
  unfold outputLineValue, coercedLine. cbn [olLine olStatus].
  now rewrite (replaceInvalid_valid _ (formatLineName_valid U (Line l))).
Qed.

(** Decoding the document of the JSON renderer yields, for every list of
    line items, the code 200, the message [success] and, per item in
    order, the formatted name and the normalized status with U+FFFD in
    place of every byte that is no part of a rune. *)
Theorem printJSON_decodes :
  forall (U : unicode.Tables) (lines : list LineItem),
    exists text : string,
      printJSON U lines = Some text
      /\ json.Decode text = Some (decodedDocument U lines).
Proof.
  intros U lines. eexists. split; [apply printJSON_text | ].
  rewrite Decode_Encode_coerced. unfold outputValue, decodedDocument.
  cbn [orCode orData orMessage]. now rewrite coerced_lines.
Qed.

(** In JSON mode, when standard output takes the document, what the
    program has written there can be decoded: the blank line before the
    document is white space to a decoder, and what is read is the document
    of the lines that the filter left. *)
Theorem main_json_decodes :
  forall (U : unicode.Tables) (osArgs : list string) (x : Exchange) (resp : APIResponse),
    proceeds U osArgs = true ->
    existsb isJSONFlag osArgs = true ->
    fetchLineStatuses x = inl resp ->
    apiStatus resp = true ->
    filterByService U (apiData resp) (requestedService osArgs) <> [] ->
    json.Decode (stdout (main U osArgs x Accepting))
    = Some (decodedDocument U (filterByService U (apiData resp) (requestedService osArgs))).
Proof.
  intros U osArgs x resp Hp Hj Hfetch Hstatus Hlines.
  rewrite (main_proceeds U osArgs x Accepting Hp), Hfetch, Hstatus, Hj.
  destruct (filterByService U (apiData resp) (requestedService osArgs)) as [|l lines];
    [contradiction | ].
  cbn [stdout].
  change (json.Decode (LF ++ json.Encode "    " (expectedDocument U (l :: lines))))
    with (json.Decode (json.Encode "    " (expectedDocument U (l :: lines)))).
  rewrite <- outputValue_expected, Decode_Encode_coerced.
  unfold outputValue, decodedDocument.
  cbn [orCode orData orMessage]. now rewrite coerced_lines.
Qed.

Lemma main_json_decodes_witness :
  json.Decode
    (stdout
       (main plainTables ["viaquatro"; "-j"]
          (Responded 200
             (Decoded
                (mkAPIResponse true
                   [mkServiceData
                      [mkLineItem "4" "Linha 4-Amarela" "" " Velocidade Reduzida" "amarelo" "" ""]
                      "" "ViaQuatro"])))
          Accepting))
  = Some (json.Object
            [("code", json.Number 200);
             ("data",
              json.Array
                [json.Object
                   [("line", json.Str "Amarela");
                    ("status", json.Str "Velocidade Reduzida")]]);
             ("message", json.Str "success")]).
Proof.
  exact (main_json_decodes plainTables ["viaquatro"; "-j"]
           (Responded 200
              (Decoded
                 (mkAPIResponse true
                    [mkServiceData
                       [mkLineItem "4" "Linha 4-Amarela" "" " Velocidade Reduzida" "amarelo"
                                   "" ""]
                       "" "ViaQuatro"])))
           (mkAPIResponse true
              [mkServiceData
                 [mkLineItem "4" "Linha 4-Amarela" "" " Velocidade Reduzida" "amarelo" "" ""]
                 "" "ViaQuatro"])
           eq_refl eq_refl eq_refl eq_refl ltac:(discriminate)).
Defined.
